(** * agentops-hub: the run execution and observability pipeline

    A shallow embedding of the backend's run pipeline
    ([app/ai/tool_registry.py], [app/ai/agent_builder.py],
    [app/ai/runner.py], [app/services/conversation_service.py],
    [app/services/run_service.py], [app/api/v1/streaming.py]) and the
    properties its specification states about it.

    Conventions of the embedding.
    - Storage (the SQLAlchemy session) is an explicit value of type [DB]
      that every operation takes and returns.  Tables with a primary key are
      finite maps from the key; append-only tables ([run_steps], [messages])
      are lists in insertion order.  Writes to storage succeed, but for the
      commit of a run that violates the foreign key of its conversation.
    - Python exceptions are values of type [Exn]; code that can raise
      returns a sum, and [try ... except Exception] is [try_catch].
    - Everything outside the repository (the LLM agent, the HTTP client, the
      vector store, the file system, the SQL engine, the clocks) is an oracle
      in a record ([World], [Env]), so every statement quantifies over all
      behaviours of these collaborators.
    - A Python [str] is carried as its UTF-8 encoding; the methods of [str]
      work on its characters and follow the Unicode tables of CPython 3.11. *)

From Stdlib Require Import ZArith QArith Ascii String List.
From stdpp Require Import base option list gmap strings pretty sorting.

Set Warnings "-register-all".
Open Scope string_scope.
Open Scope list_scope.
Open Scope Z_scope.

(* ===================================================================== *)
(** ** Python strings *)
(* ===================================================================== *)

Module PyStr.

(** A Python [str] is a sequence of Unicode code points.  A string of this
    development is the UTF-8 encoding of the [str]: a character is a byte
    that is not of the form [10xxxxxx], followed by its continuation bytes
    [10xxxxxx].  The functions below split a string into its characters and
    work on these, as the methods of [str] work on code points.  The tables
    of white space, of the case mappings and of the properties [Cased] and
    [Case_Ignorable] are those of the Unicode Character Database 14.0, the
    tables of CPython 3.11. *)

Definition ord (c : ascii) : N := N_of_ascii c.

Definition is_continuation (c : ascii) : bool := ((128 <=? ord c) && (ord c <? 192))%N.

Definition starts_continuation (s : string) : bool :=
  match s with
  | String c _ => is_continuation c
  | EmptyString => false
  end.

(** The characters of a string, each as the string of its bytes. *)
Fixpoint chars (s : string) : list string :=
  match s with
  | EmptyString => []
  | String c s' =>
      match chars s' with
      | ch :: rest =>
          if starts_continuation s' then String c ch :: rest
          else String c EmptyString :: ch :: rest
      | [] => [String c EmptyString]
      end
  end.

(** The string of a list of characters. *)
Definition unchars (l : list string) : string := foldr String.append EmptyString l.

(** The payload of a continuation byte. *)
Definition payload (c : ascii) : N := (ord c - 128)%N.

(** [ord(ch)]: the code point of a character, when its bytes are the UTF-8
    encoding of one. *)
Definition codepoint (ch : string) : option N :=
  match ch with
  | String a EmptyString =>
      if (ord a <? 128)%N then Some (ord a) else None
  | String a (String b EmptyString) =>
      if ((194 <=? ord a) && (ord a <? 224))%N && is_continuation b then
        Some ((ord a - 192) * 64 + payload b)%N
      else None
  | String a (String b (String c EmptyString)) =>
      let n := ((ord a - 224) * 4096 + payload b * 64 + payload c)%N in
      if ((224 <=? ord a) && (ord a <? 240))%N && is_continuation b && is_continuation c
         && (2048 <=? n)%N then Some n
      else None
  | String a (String b (String c (String d EmptyString))) =>
      let n := ((ord a - 240) * 262144 + payload b * 4096 + payload c * 64 + payload d)%N in
      if ((240 <=? ord a) && (ord a <? 245))%N && is_continuation b && is_continuation c
         && is_continuation d && (65536 <=? n)%N && (n <=? 1114111)%N then Some n
      else None
  | _ => None
  end.

Definition byte (n : N) : string := String (ascii_of_N n) EmptyString.

(** [chr(n)]: the UTF-8 encoding of a code point. *)
Definition chr (n : N) : string :=
  (if n <? 128 then byte n
   else if n <? 2048 then byte (192 + n / 64) +:+ byte (128 + n mod 64)
   else if n <? 65536 then
     byte (224 + n / 4096) +:+ byte (128 + (n / 64) mod 64) +:+ byte (128 + n mod 64)
   else
     byte (240 + n / 262144) +:+ byte (128 + (n / 4096) mod 64)
       +:+ byte (128 + (n / 64) mod 64) +:+ byte (128 + n mod 64))%N.

(** Membership in a table of ranges, which are in ascending order. *)
Fixpoint in_ranges (n : N) (table : list (N * N)) : bool :=
  match table with
  | [] => false
  | (lo, hi) :: table =>
      if (n <? lo)%N then false else if (n <=? hi)%N then true else in_ranges n table
  end.

(** The image of a code point in a table of case ranges, which are in
    ascending order of their first code point. *)
Fixpoint in_case_ranges (n : N) (table : list (N * N * N * N)) : option N :=
  match table with
  | [] => None
  | (lo, hi, stride, target) :: table =>
      if (n <? lo)%N then None
      else if ((n <=? hi) && ((n - lo) mod stride =? 0))%N then Some (target + (n - lo))%N
      else in_case_ranges n table
  end.

Fixpoint in_special (n : N) (table : list (N * list N)) : option (list N) :=
  match table with
  | [] => None
  | (m, image) :: table => if (n =? m)%N then Some image else in_special n table
  end.

(** The code points of white space: [str.isspace] of one character. *)
Definition whitespace : list (N * N) :=
  [
   (0x9, 0xD); (0x1C, 0x20); (0x85, 0x85); (0xA0, 0xA0); (0x1680, 0x1680); (0x2000, 0x200A);
   (0x2028, 0x2029); (0x202F, 0x202F); (0x205F, 0x205F); (0x3000, 0x3000)
  ]%N.

(** The code points that [str.lower] changes into one code point: every
    [stride]-th code point from [lo] to [hi] goes to the code point as far
    from [target] as it is from [lo]. *)
Definition lower_ranges : list (N * N * N * N) :=
  [
   (0x41, 0x5A, 1, 0x61); (0xC0, 0xD6, 1, 0xE0); (0xD8, 0xDE, 1, 0xF8);
   (0x100, 0x12E, 2, 0x101); (0x132, 0x136, 2, 0x133); (0x139, 0x147, 2, 0x13A);
   (0x14A, 0x176, 2, 0x14B); (0x178, 0x178, 1, 0xFF); (0x179, 0x17D, 2, 0x17A);
   (0x181, 0x181, 1, 0x253); (0x182, 0x184, 2, 0x183); (0x186, 0x186, 1, 0x254);
   (0x187, 0x187, 1, 0x188); (0x189, 0x18A, 1, 0x256); (0x18B, 0x18B, 1, 0x18C);
   (0x18E, 0x18E, 1, 0x1DD); (0x18F, 0x18F, 1, 0x259); (0x190, 0x190, 1, 0x25B);
   (0x191, 0x191, 1, 0x192); (0x193, 0x193, 1, 0x260); (0x194, 0x194, 1, 0x263);
   (0x196, 0x196, 1, 0x269); (0x197, 0x197, 1, 0x268); (0x198, 0x198, 1, 0x199);
   (0x19C, 0x19C, 1, 0x26F); (0x19D, 0x19D, 1, 0x272); (0x19F, 0x19F, 1, 0x275);
   (0x1A0, 0x1A4, 2, 0x1A1); (0x1A6, 0x1A6, 1, 0x280); (0x1A7, 0x1A7, 1, 0x1A8);
   (0x1A9, 0x1A9, 1, 0x283); (0x1AC, 0x1AC, 1, 0x1AD); (0x1AE, 0x1AE, 1, 0x288);
   (0x1AF, 0x1AF, 1, 0x1B0); (0x1B1, 0x1B2, 1, 0x28A); (0x1B3, 0x1B5, 2, 0x1B4);
   (0x1B7, 0x1B7, 1, 0x292); (0x1B8, 0x1B8, 1, 0x1B9); (0x1BC, 0x1BC, 1, 0x1BD);
   (0x1C4, 0x1C4, 1, 0x1C6); (0x1C5, 0x1C5, 1, 0x1C6); (0x1C7, 0x1C7, 1, 0x1C9);
   (0x1C8, 0x1C8, 1, 0x1C9); (0x1CA, 0x1CA, 1, 0x1CC); (0x1CB, 0x1DB, 2, 0x1CC);
   (0x1DE, 0x1EE, 2, 0x1DF); (0x1F1, 0x1F1, 1, 0x1F3); (0x1F2, 0x1F4, 2, 0x1F3);
   (0x1F6, 0x1F6, 1, 0x195); (0x1F7, 0x1F7, 1, 0x1BF); (0x1F8, 0x21E, 2, 0x1F9);
   (0x220, 0x220, 1, 0x19E); (0x222, 0x232, 2, 0x223); (0x23A, 0x23A, 1, 0x2C65);
   (0x23B, 0x23B, 1, 0x23C); (0x23D, 0x23D, 1, 0x19A); (0x23E, 0x23E, 1, 0x2C66);
   (0x241, 0x241, 1, 0x242); (0x243, 0x243, 1, 0x180); (0x244, 0x244, 1, 0x289);
   (0x245, 0x245, 1, 0x28C); (0x246, 0x24E, 2, 0x247); (0x370, 0x372, 2, 0x371);
   (0x376, 0x376, 1, 0x377); (0x37F, 0x37F, 1, 0x3F3); (0x386, 0x386, 1, 0x3AC);
   (0x388, 0x38A, 1, 0x3AD); (0x38C, 0x38C, 1, 0x3CC); (0x38E, 0x38F, 1, 0x3CD);
   (0x391, 0x3A1, 1, 0x3B1); (0x3A3, 0x3AB, 1, 0x3C3); (0x3CF, 0x3CF, 1, 0x3D7);
   (0x3D8, 0x3EE, 2, 0x3D9); (0x3F4, 0x3F4, 1, 0x3B8); (0x3F7, 0x3F7, 1, 0x3F8);
   (0x3F9, 0x3F9, 1, 0x3F2); (0x3FA, 0x3FA, 1, 0x3FB); (0x3FD, 0x3FF, 1, 0x37B);
   (0x400, 0x40F, 1, 0x450); (0x410, 0x42F, 1, 0x430); (0x460, 0x480, 2, 0x461);
   (0x48A, 0x4BE, 2, 0x48B); (0x4C0, 0x4C0, 1, 0x4CF); (0x4C1, 0x4CD, 2, 0x4C2);
   (0x4D0, 0x52E, 2, 0x4D1); (0x531, 0x556, 1, 0x561); (0x10A0, 0x10C5, 1, 0x2D00);
   (0x10C7, 0x10C7, 1, 0x2D27); (0x10CD, 0x10CD, 1, 0x2D2D); (0x13A0, 0x13EF, 1, 0xAB70);
   (0x13F0, 0x13F5, 1, 0x13F8); (0x1C90, 0x1CBA, 1, 0x10D0); (0x1CBD, 0x1CBF, 1, 0x10FD);
   (0x1E00, 0x1E94, 2, 0x1E01); (0x1E9E, 0x1E9E, 1, 0xDF); (0x1EA0, 0x1EFE, 2, 0x1EA1);
   (0x1F08, 0x1F0F, 1, 0x1F00); (0x1F18, 0x1F1D, 1, 0x1F10); (0x1F28, 0x1F2F, 1, 0x1F20);
   (0x1F38, 0x1F3F, 1, 0x1F30); (0x1F48, 0x1F4D, 1, 0x1F40); (0x1F59, 0x1F5F, 2, 0x1F51);
   (0x1F68, 0x1F6F, 1, 0x1F60); (0x1F88, 0x1F8F, 1, 0x1F80); (0x1F98, 0x1F9F, 1, 0x1F90);
   (0x1FA8, 0x1FAF, 1, 0x1FA0); (0x1FB8, 0x1FB9, 1, 0x1FB0); (0x1FBA, 0x1FBB, 1, 0x1F70);
   (0x1FBC, 0x1FBC, 1, 0x1FB3); (0x1FC8, 0x1FCB, 1, 0x1F72); (0x1FCC, 0x1FCC, 1, 0x1FC3);
   (0x1FD8, 0x1FD9, 1, 0x1FD0); (0x1FDA, 0x1FDB, 1, 0x1F76); (0x1FE8, 0x1FE9, 1, 0x1FE0);
   (0x1FEA, 0x1FEB, 1, 0x1F7A); (0x1FEC, 0x1FEC, 1, 0x1FE5); (0x1FF8, 0x1FF9, 1, 0x1F78);
   (0x1FFA, 0x1FFB, 1, 0x1F7C); (0x1FFC, 0x1FFC, 1, 0x1FF3); (0x2126, 0x2126, 1, 0x3C9);
   (0x212A, 0x212A, 1, 0x6B); (0x212B, 0x212B, 1, 0xE5); (0x2132, 0x2132, 1, 0x214E);
   (0x2160, 0x216F, 1, 0x2170); (0x2183, 0x2183, 1, 0x2184); (0x24B6, 0x24CF, 1, 0x24D0);
   (0x2C00, 0x2C2F, 1, 0x2C30); (0x2C60, 0x2C60, 1, 0x2C61); (0x2C62, 0x2C62, 1, 0x26B);
   (0x2C63, 0x2C63, 1, 0x1D7D); (0x2C64, 0x2C64, 1, 0x27D); (0x2C67, 0x2C6B, 2, 0x2C68);
   (0x2C6D, 0x2C6D, 1, 0x251); (0x2C6E, 0x2C6E, 1, 0x271); (0x2C6F, 0x2C6F, 1, 0x250);
   (0x2C70, 0x2C70, 1, 0x252); (0x2C72, 0x2C72, 1, 0x2C73); (0x2C75, 0x2C75, 1, 0x2C76);
   (0x2C7E, 0x2C7F, 1, 0x23F); (0x2C80, 0x2CE2, 2, 0x2C81); (0x2CEB, 0x2CED, 2, 0x2CEC);
   (0x2CF2, 0x2CF2, 1, 0x2CF3); (0xA640, 0xA66C, 2, 0xA641); (0xA680, 0xA69A, 2, 0xA681);
   (0xA722, 0xA72E, 2, 0xA723); (0xA732, 0xA76E, 2, 0xA733); (0xA779, 0xA77B, 2, 0xA77A);
   (0xA77D, 0xA77D, 1, 0x1D79); (0xA77E, 0xA786, 2, 0xA77F); (0xA78B, 0xA78B, 1, 0xA78C);
   (0xA78D, 0xA78D, 1, 0x265); (0xA790, 0xA792, 2, 0xA791); (0xA796, 0xA7A8, 2, 0xA797);
   (0xA7AA, 0xA7AA, 1, 0x266); (0xA7AB, 0xA7AB, 1, 0x25C); (0xA7AC, 0xA7AC, 1, 0x261);
   (0xA7AD, 0xA7AD, 1, 0x26C); (0xA7AE, 0xA7AE, 1, 0x26A); (0xA7B0, 0xA7B0, 1, 0x29E);
   (0xA7B1, 0xA7B1, 1, 0x287); (0xA7B2, 0xA7B2, 1, 0x29D); (0xA7B3, 0xA7B3, 1, 0xAB53);
   (0xA7B4, 0xA7C2, 2, 0xA7B5); (0xA7C4, 0xA7C4, 1, 0xA794); (0xA7C5, 0xA7C5, 1, 0x282);
   (0xA7C6, 0xA7C6, 1, 0x1D8E); (0xA7C7, 0xA7C9, 2, 0xA7C8); (0xA7D0, 0xA7D0, 1, 0xA7D1);
   (0xA7D6, 0xA7D8, 2, 0xA7D7); (0xA7F5, 0xA7F5, 1, 0xA7F6); (0xFF21, 0xFF3A, 1, 0xFF41);
   (0x10400, 0x10427, 1, 0x10428); (0x104B0, 0x104D3, 1, 0x104D8);
   (0x10570, 0x1057A, 1, 0x10597); (0x1057C, 0x1058A, 1, 0x105A3);
   (0x1058C, 0x10592, 1, 0x105B3); (0x10594, 0x10595, 1, 0x105BB);
   (0x10C80, 0x10CB2, 1, 0x10CC0); (0x118A0, 0x118BF, 1, 0x118C0);
   (0x16E40, 0x16E5F, 1, 0x16E60); (0x1E900, 0x1E921, 1, 0x1E922)
  ]%N.

(** The code points that [str.lower] changes into several. *)
Definition lower_special : list (N * list N) :=
  [
   (0x130, [0x69; 0x307])
  ]%N.

(** The code points that [str.upper] changes into one code point. *)
Definition upper_ranges : list (N * N * N * N) :=
  [
   (0x61, 0x7A, 1, 0x41); (0xB5, 0xB5, 1, 0x39C); (0xE0, 0xF6, 1, 0xC0); (0xF8, 0xFE, 1, 0xD8);
   (0xFF, 0xFF, 1, 0x178); (0x101, 0x12F, 2, 0x100); (0x131, 0x131, 1, 0x49);
   (0x133, 0x137, 2, 0x132); (0x13A, 0x148, 2, 0x139); (0x14B, 0x177, 2, 0x14A);
   (0x17A, 0x17E, 2, 0x179); (0x17F, 0x17F, 1, 0x53); (0x180, 0x180, 1, 0x243);
   (0x183, 0x185, 2, 0x182); (0x188, 0x188, 1, 0x187); (0x18C, 0x18C, 1, 0x18B);
   (0x192, 0x192, 1, 0x191); (0x195, 0x195, 1, 0x1F6); (0x199, 0x199, 1, 0x198);
   (0x19A, 0x19A, 1, 0x23D); (0x19E, 0x19E, 1, 0x220); (0x1A1, 0x1A5, 2, 0x1A0);
   (0x1A8, 0x1A8, 1, 0x1A7); (0x1AD, 0x1AD, 1, 0x1AC); (0x1B0, 0x1B0, 1, 0x1AF);
   (0x1B4, 0x1B6, 2, 0x1B3); (0x1B9, 0x1B9, 1, 0x1B8); (0x1BD, 0x1BD, 1, 0x1BC);
   (0x1BF, 0x1BF, 1, 0x1F7); (0x1C5, 0x1C5, 1, 0x1C4); (0x1C6, 0x1C6, 1, 0x1C4);
   (0x1C8, 0x1C8, 1, 0x1C7); (0x1C9, 0x1C9, 1, 0x1C7); (0x1CB, 0x1CB, 1, 0x1CA);
   (0x1CC, 0x1CC, 1, 0x1CA); (0x1CE, 0x1DC, 2, 0x1CD); (0x1DD, 0x1DD, 1, 0x18E);
   (0x1DF, 0x1EF, 2, 0x1DE); (0x1F2, 0x1F2, 1, 0x1F1); (0x1F3, 0x1F3, 1, 0x1F1);
   (0x1F5, 0x1F5, 1, 0x1F4); (0x1F9, 0x21F, 2, 0x1F8); (0x223, 0x233, 2, 0x222);
   (0x23C, 0x23C, 1, 0x23B); (0x23F, 0x240, 1, 0x2C7E); (0x242, 0x242, 1, 0x241);
   (0x247, 0x24F, 2, 0x246); (0x250, 0x250, 1, 0x2C6F); (0x251, 0x251, 1, 0x2C6D);
   (0x252, 0x252, 1, 0x2C70); (0x253, 0x253, 1, 0x181); (0x254, 0x254, 1, 0x186);
   (0x256, 0x257, 1, 0x189); (0x259, 0x259, 1, 0x18F); (0x25B, 0x25B, 1, 0x190);
   (0x25C, 0x25C, 1, 0xA7AB); (0x260, 0x260, 1, 0x193); (0x261, 0x261, 1, 0xA7AC);
   (0x263, 0x263, 1, 0x194); (0x265, 0x265, 1, 0xA78D); (0x266, 0x266, 1, 0xA7AA);
   (0x268, 0x268, 1, 0x197); (0x269, 0x269, 1, 0x196); (0x26A, 0x26A, 1, 0xA7AE);
   (0x26B, 0x26B, 1, 0x2C62); (0x26C, 0x26C, 1, 0xA7AD); (0x26F, 0x26F, 1, 0x19C);
   (0x271, 0x271, 1, 0x2C6E); (0x272, 0x272, 1, 0x19D); (0x275, 0x275, 1, 0x19F);
   (0x27D, 0x27D, 1, 0x2C64); (0x280, 0x280, 1, 0x1A6); (0x282, 0x282, 1, 0xA7C5);
   (0x283, 0x283, 1, 0x1A9); (0x287, 0x287, 1, 0xA7B1); (0x288, 0x288, 1, 0x1AE);
   (0x289, 0x289, 1, 0x244); (0x28A, 0x28B, 1, 0x1B1); (0x28C, 0x28C, 1, 0x245);
   (0x292, 0x292, 1, 0x1B7); (0x29D, 0x29D, 1, 0xA7B2); (0x29E, 0x29E, 1, 0xA7B0);
   (0x345, 0x345, 1, 0x399); (0x371, 0x373, 2, 0x370); (0x377, 0x377, 1, 0x376);
   (0x37B, 0x37D, 1, 0x3FD); (0x3AC, 0x3AC, 1, 0x386); (0x3AD, 0x3AF, 1, 0x388);
   (0x3B1, 0x3C1, 1, 0x391); (0x3C2, 0x3C2, 1, 0x3A3); (0x3C3, 0x3CB, 1, 0x3A3);
   (0x3CC, 0x3CC, 1, 0x38C); (0x3CD, 0x3CE, 1, 0x38E); (0x3D0, 0x3D0, 1, 0x392);
   (0x3D1, 0x3D1, 1, 0x398); (0x3D5, 0x3D5, 1, 0x3A6); (0x3D6, 0x3D6, 1, 0x3A0);
   (0x3D7, 0x3D7, 1, 0x3CF); (0x3D9, 0x3EF, 2, 0x3D8); (0x3F0, 0x3F0, 1, 0x39A);
   (0x3F1, 0x3F1, 1, 0x3A1); (0x3F2, 0x3F2, 1, 0x3F9); (0x3F3, 0x3F3, 1, 0x37F);
   (0x3F5, 0x3F5, 1, 0x395); (0x3F8, 0x3F8, 1, 0x3F7); (0x3FB, 0x3FB, 1, 0x3FA);
   (0x430, 0x44F, 1, 0x410); (0x450, 0x45F, 1, 0x400); (0x461, 0x481, 2, 0x460);
   (0x48B, 0x4BF, 2, 0x48A); (0x4C2, 0x4CE, 2, 0x4C1); (0x4CF, 0x4CF, 1, 0x4C0);
   (0x4D1, 0x52F, 2, 0x4D0); (0x561, 0x586, 1, 0x531); (0x10D0, 0x10FA, 1, 0x1C90);
   (0x10FD, 0x10FF, 1, 0x1CBD); (0x13F8, 0x13FD, 1, 0x13F0); (0x1C80, 0x1C80, 1, 0x412);
   (0x1C81, 0x1C81, 1, 0x414); (0x1C82, 0x1C82, 1, 0x41E); (0x1C83, 0x1C84, 1, 0x421);
   (0x1C85, 0x1C85, 1, 0x422); (0x1C86, 0x1C86, 1, 0x42A); (0x1C87, 0x1C87, 1, 0x462);
   (0x1C88, 0x1C88, 1, 0xA64A); (0x1D79, 0x1D79, 1, 0xA77D); (0x1D7D, 0x1D7D, 1, 0x2C63);
   (0x1D8E, 0x1D8E, 1, 0xA7C6); (0x1E01, 0x1E95, 2, 0x1E00); (0x1E9B, 0x1E9B, 1, 0x1E60);
   (0x1EA1, 0x1EFF, 2, 0x1EA0); (0x1F00, 0x1F07, 1, 0x1F08); (0x1F10, 0x1F15, 1, 0x1F18);
   (0x1F20, 0x1F27, 1, 0x1F28); (0x1F30, 0x1F37, 1, 0x1F38); (0x1F40, 0x1F45, 1, 0x1F48);
   (0x1F51, 0x1F57, 2, 0x1F59); (0x1F60, 0x1F67, 1, 0x1F68); (0x1F70, 0x1F71, 1, 0x1FBA);
   (0x1F72, 0x1F75, 1, 0x1FC8); (0x1F76, 0x1F77, 1, 0x1FDA); (0x1F78, 0x1F79, 1, 0x1FF8);
   (0x1F7A, 0x1F7B, 1, 0x1FEA); (0x1F7C, 0x1F7D, 1, 0x1FFA); (0x1FB0, 0x1FB1, 1, 0x1FB8);
   (0x1FBE, 0x1FBE, 1, 0x399); (0x1FD0, 0x1FD1, 1, 0x1FD8); (0x1FE0, 0x1FE1, 1, 0x1FE8);
   (0x1FE5, 0x1FE5, 1, 0x1FEC); (0x214E, 0x214E, 1, 0x2132); (0x2170, 0x217F, 1, 0x2160);
   (0x2184, 0x2184, 1, 0x2183); (0x24D0, 0x24E9, 1, 0x24B6); (0x2C30, 0x2C5F, 1, 0x2C00);
   (0x2C61, 0x2C61, 1, 0x2C60); (0x2C65, 0x2C65, 1, 0x23A); (0x2C66, 0x2C66, 1, 0x23E);
   (0x2C68, 0x2C6C, 2, 0x2C67); (0x2C73, 0x2C73, 1, 0x2C72); (0x2C76, 0x2C76, 1, 0x2C75);
   (0x2C81, 0x2CE3, 2, 0x2C80); (0x2CEC, 0x2CEE, 2, 0x2CEB); (0x2CF3, 0x2CF3, 1, 0x2CF2);
   (0x2D00, 0x2D25, 1, 0x10A0); (0x2D27, 0x2D27, 1, 0x10C7); (0x2D2D, 0x2D2D, 1, 0x10CD);
   (0xA641, 0xA66D, 2, 0xA640); (0xA681, 0xA69B, 2, 0xA680); (0xA723, 0xA72F, 2, 0xA722);
   (0xA733, 0xA76F, 2, 0xA732); (0xA77A, 0xA77C, 2, 0xA779); (0xA77F, 0xA787, 2, 0xA77E);
   (0xA78C, 0xA78C, 1, 0xA78B); (0xA791, 0xA793, 2, 0xA790); (0xA794, 0xA794, 1, 0xA7C4);
   (0xA797, 0xA7A9, 2, 0xA796); (0xA7B5, 0xA7C3, 2, 0xA7B4); (0xA7C8, 0xA7CA, 2, 0xA7C7);
   (0xA7D1, 0xA7D1, 1, 0xA7D0); (0xA7D7, 0xA7D9, 2, 0xA7D6); (0xA7F6, 0xA7F6, 1, 0xA7F5);
   (0xAB53, 0xAB53, 1, 0xA7B3); (0xAB70, 0xABBF, 1, 0x13A0); (0xFF41, 0xFF5A, 1, 0xFF21);
   (0x10428, 0x1044F, 1, 0x10400); (0x104D8, 0x104FB, 1, 0x104B0);
   (0x10597, 0x105A1, 1, 0x10570); (0x105A3, 0x105B1, 1, 0x1057C);
   (0x105B3, 0x105B9, 1, 0x1058C); (0x105BB, 0x105BC, 1, 0x10594);
   (0x10CC0, 0x10CF2, 1, 0x10C80); (0x118C0, 0x118DF, 1, 0x118A0);
   (0x16E60, 0x16E7F, 1, 0x16E40); (0x1E922, 0x1E943, 1, 0x1E900)
  ]%N.

(** The code points that [str.upper] changes into several. *)
Definition upper_special : list (N * list N) :=
  [
   (0xDF, [0x53; 0x53]); (0x149, [0x2BC; 0x4E]); (0x1F0, [0x4A; 0x30C]);
   (0x390, [0x399; 0x308; 0x301]); (0x3B0, [0x3A5; 0x308; 0x301]); (0x587, [0x535; 0x552]);
   (0x1E96, [0x48; 0x331]); (0x1E97, [0x54; 0x308]); (0x1E98, [0x57; 0x30A]);
   (0x1E99, [0x59; 0x30A]); (0x1E9A, [0x41; 0x2BE]); (0x1F50, [0x3A5; 0x313]);
   (0x1F52, [0x3A5; 0x313; 0x300]); (0x1F54, [0x3A5; 0x313; 0x301]);
   (0x1F56, [0x3A5; 0x313; 0x342]); (0x1F80, [0x1F08; 0x399]); (0x1F81, [0x1F09; 0x399]);
   (0x1F82, [0x1F0A; 0x399]); (0x1F83, [0x1F0B; 0x399]); (0x1F84, [0x1F0C; 0x399]);
   (0x1F85, [0x1F0D; 0x399]); (0x1F86, [0x1F0E; 0x399]); (0x1F87, [0x1F0F; 0x399]);
   (0x1F88, [0x1F08; 0x399]); (0x1F89, [0x1F09; 0x399]); (0x1F8A, [0x1F0A; 0x399]);
   (0x1F8B, [0x1F0B; 0x399]); (0x1F8C, [0x1F0C; 0x399]); (0x1F8D, [0x1F0D; 0x399]);
   (0x1F8E, [0x1F0E; 0x399]); (0x1F8F, [0x1F0F; 0x399]); (0x1F90, [0x1F28; 0x399]);
   (0x1F91, [0x1F29; 0x399]); (0x1F92, [0x1F2A; 0x399]); (0x1F93, [0x1F2B; 0x399]);
   (0x1F94, [0x1F2C; 0x399]); (0x1F95, [0x1F2D; 0x399]); (0x1F96, [0x1F2E; 0x399]);
   (0x1F97, [0x1F2F; 0x399]); (0x1F98, [0x1F28; 0x399]); (0x1F99, [0x1F29; 0x399]);
   (0x1F9A, [0x1F2A; 0x399]); (0x1F9B, [0x1F2B; 0x399]); (0x1F9C, [0x1F2C; 0x399]);
   (0x1F9D, [0x1F2D; 0x399]); (0x1F9E, [0x1F2E; 0x399]); (0x1F9F, [0x1F2F; 0x399]);
   (0x1FA0, [0x1F68; 0x399]); (0x1FA1, [0x1F69; 0x399]); (0x1FA2, [0x1F6A; 0x399]);
   (0x1FA3, [0x1F6B; 0x399]); (0x1FA4, [0x1F6C; 0x399]); (0x1FA5, [0x1F6D; 0x399]);
   (0x1FA6, [0x1F6E; 0x399]); (0x1FA7, [0x1F6F; 0x399]); (0x1FA8, [0x1F68; 0x399]);
   (0x1FA9, [0x1F69; 0x399]); (0x1FAA, [0x1F6A; 0x399]); (0x1FAB, [0x1F6B; 0x399]);
   (0x1FAC, [0x1F6C; 0x399]); (0x1FAD, [0x1F6D; 0x399]); (0x1FAE, [0x1F6E; 0x399]);
   (0x1FAF, [0x1F6F; 0x399]); (0x1FB2, [0x1FBA; 0x399]); (0x1FB3, [0x391; 0x399]);
   (0x1FB4, [0x386; 0x399]); (0x1FB6, [0x391; 0x342]); (0x1FB7, [0x391; 0x342; 0x399]);
   (0x1FBC, [0x391; 0x399]); (0x1FC2, [0x1FCA; 0x399]); (0x1FC3, [0x397; 0x399]);
   (0x1FC4, [0x389; 0x399]); (0x1FC6, [0x397; 0x342]); (0x1FC7, [0x397; 0x342; 0x399]);
   (0x1FCC, [0x397; 0x399]); (0x1FD2, [0x399; 0x308; 0x300]); (0x1FD3, [0x399; 0x308; 0x301]);
   (0x1FD6, [0x399; 0x342]); (0x1FD7, [0x399; 0x308; 0x342]); (0x1FE2, [0x3A5; 0x308; 0x300]);
   (0x1FE3, [0x3A5; 0x308; 0x301]); (0x1FE4, [0x3A1; 0x313]); (0x1FE6, [0x3A5; 0x342]);
   (0x1FE7, [0x3A5; 0x308; 0x342]); (0x1FF2, [0x1FFA; 0x399]); (0x1FF3, [0x3A9; 0x399]);
   (0x1FF4, [0x38F; 0x399]); (0x1FF6, [0x3A9; 0x342]); (0x1FF7, [0x3A9; 0x342; 0x399]);
   (0x1FFC, [0x3A9; 0x399]); (0xFB00, [0x46; 0x46]); (0xFB01, [0x46; 0x49]);
   (0xFB02, [0x46; 0x4C]); (0xFB03, [0x46; 0x46; 0x49]); (0xFB04, [0x46; 0x46; 0x4C]);
   (0xFB05, [0x53; 0x54]); (0xFB06, [0x53; 0x54]); (0xFB13, [0x544; 0x546]);
   (0xFB14, [0x544; 0x535]); (0xFB15, [0x544; 0x53B]); (0xFB16, [0x54E; 0x546]);
   (0xFB17, [0x544; 0x53D])
  ]%N.

(** The code points with the property [Cased]. *)
Definition cased_ranges : list (N * N) :=
  [
   (0x41, 0x5A); (0x61, 0x7A); (0xAA, 0xAA); (0xB5, 0xB5); (0xBA, 0xBA); (0xC0, 0xD6);
   (0xD8, 0xF6); (0xF8, 0x1BA); (0x1BC, 0x1BF); (0x1C4, 0x293); (0x295, 0x2B8); (0x2C0, 0x2C1);
   (0x2E0, 0x2E4); (0x345, 0x345); (0x370, 0x373); (0x376, 0x377); (0x37A, 0x37D);
   (0x37F, 0x37F); (0x386, 0x386); (0x388, 0x38A); (0x38C, 0x38C); (0x38E, 0x3A1);
   (0x3A3, 0x3F5); (0x3F7, 0x481); (0x48A, 0x52F); (0x531, 0x556); (0x560, 0x588);
   (0x10A0, 0x10C5); (0x10C7, 0x10C7); (0x10CD, 0x10CD); (0x10D0, 0x10FA); (0x10FD, 0x10FF);
   (0x13A0, 0x13F5); (0x13F8, 0x13FD); (0x1C80, 0x1C88); (0x1C90, 0x1CBA); (0x1CBD, 0x1CBF);
   (0x1D00, 0x1DBF); (0x1E00, 0x1F15); (0x1F18, 0x1F1D); (0x1F20, 0x1F45); (0x1F48, 0x1F4D);
   (0x1F50, 0x1F57); (0x1F59, 0x1F59); (0x1F5B, 0x1F5B); (0x1F5D, 0x1F5D); (0x1F5F, 0x1F7D);
   (0x1F80, 0x1FB4); (0x1FB6, 0x1FBC); (0x1FBE, 0x1FBE); (0x1FC2, 0x1FC4); (0x1FC6, 0x1FCC);
   (0x1FD0, 0x1FD3); (0x1FD6, 0x1FDB); (0x1FE0, 0x1FEC); (0x1FF2, 0x1FF4); (0x1FF6, 0x1FFC);
   (0x2071, 0x2071); (0x207F, 0x207F); (0x2090, 0x209C); (0x2102, 0x2102); (0x2107, 0x2107);
   (0x210A, 0x2113); (0x2115, 0x2115); (0x2119, 0x211D); (0x2124, 0x2124); (0x2126, 0x2126);
   (0x2128, 0x2128); (0x212A, 0x212D); (0x212F, 0x2134); (0x2139, 0x2139); (0x213C, 0x213F);
   (0x2145, 0x2149); (0x214E, 0x214E); (0x2160, 0x217F); (0x2183, 0x2184); (0x24B6, 0x24E9);
   (0x2C00, 0x2CE4); (0x2CEB, 0x2CEE); (0x2CF2, 0x2CF3); (0x2D00, 0x2D25); (0x2D27, 0x2D27);
   (0x2D2D, 0x2D2D); (0xA640, 0xA66D); (0xA680, 0xA69D); (0xA722, 0xA787); (0xA78B, 0xA78E);
   (0xA790, 0xA7CA); (0xA7D0, 0xA7D1); (0xA7D3, 0xA7D3); (0xA7D5, 0xA7D9); (0xA7F5, 0xA7F6);
   (0xA7F8, 0xA7FA); (0xAB30, 0xAB5A); (0xAB5C, 0xAB68); (0xAB70, 0xABBF); (0xFB00, 0xFB06);
   (0xFB13, 0xFB17); (0xFF21, 0xFF3A); (0xFF41, 0xFF5A); (0x10400, 0x1044F); (0x104B0, 0x104D3);
   (0x104D8, 0x104FB); (0x10570, 0x1057A); (0x1057C, 0x1058A); (0x1058C, 0x10592);
   (0x10594, 0x10595); (0x10597, 0x105A1); (0x105A3, 0x105B1); (0x105B3, 0x105B9);
   (0x105BB, 0x105BC); (0x10780, 0x10780); (0x10783, 0x10785); (0x10787, 0x107B0);
   (0x107B2, 0x107BA); (0x10C80, 0x10CB2); (0x10CC0, 0x10CF2); (0x118A0, 0x118DF);
   (0x16E40, 0x16E7F); (0x1D400, 0x1D454); (0x1D456, 0x1D49C); (0x1D49E, 0x1D49F);
   (0x1D4A2, 0x1D4A2); (0x1D4A5, 0x1D4A6); (0x1D4A9, 0x1D4AC); (0x1D4AE, 0x1D4B9);
   (0x1D4BB, 0x1D4BB); (0x1D4BD, 0x1D4C3); (0x1D4C5, 0x1D505); (0x1D507, 0x1D50A);
   (0x1D50D, 0x1D514); (0x1D516, 0x1D51C); (0x1D51E, 0x1D539); (0x1D53B, 0x1D53E);
   (0x1D540, 0x1D544); (0x1D546, 0x1D546); (0x1D54A, 0x1D550); (0x1D552, 0x1D6A5);
   (0x1D6A8, 0x1D6C0); (0x1D6C2, 0x1D6DA); (0x1D6DC, 0x1D6FA); (0x1D6FC, 0x1D714);
   (0x1D716, 0x1D734); (0x1D736, 0x1D74E); (0x1D750, 0x1D76E); (0x1D770, 0x1D788);
   (0x1D78A, 0x1D7A8); (0x1D7AA, 0x1D7C2); (0x1D7C4, 0x1D7CB); (0x1DF00, 0x1DF09);
   (0x1DF0B, 0x1DF1E); (0x1E900, 0x1E943); (0x1F130, 0x1F149); (0x1F150, 0x1F169);
   (0x1F170, 0x1F189)
  ]%N.

(** The code points with the property [Case_Ignorable]. *)
Definition case_ignorable_ranges : list (N * N) :=
  [
   (0x27, 0x27); (0x2E, 0x2E); (0x3A, 0x3A); (0x5E, 0x5E); (0x60, 0x60); (0xA8, 0xA8);
   (0xAD, 0xAD); (0xAF, 0xAF); (0xB4, 0xB4); (0xB7, 0xB8); (0x2B0, 0x36F); (0x374, 0x375);
   (0x37A, 0x37A); (0x384, 0x385); (0x387, 0x387); (0x483, 0x489); (0x559, 0x559);
   (0x55F, 0x55F); (0x591, 0x5BD); (0x5BF, 0x5BF); (0x5C1, 0x5C2); (0x5C4, 0x5C5);
   (0x5C7, 0x5C7); (0x5F4, 0x5F4); (0x600, 0x605); (0x610, 0x61A); (0x61C, 0x61C);
   (0x640, 0x640); (0x64B, 0x65F); (0x670, 0x670); (0x6D6, 0x6DD); (0x6DF, 0x6E8);
   (0x6EA, 0x6ED); (0x70F, 0x70F); (0x711, 0x711); (0x730, 0x74A); (0x7A6, 0x7B0);
   (0x7EB, 0x7F5); (0x7FA, 0x7FA); (0x7FD, 0x7FD); (0x816, 0x82D); (0x859, 0x85B);
   (0x888, 0x888); (0x890, 0x891); (0x898, 0x89F); (0x8C9, 0x902); (0x93A, 0x93A);
   (0x93C, 0x93C); (0x941, 0x948); (0x94D, 0x94D); (0x951, 0x957); (0x962, 0x963);
   (0x971, 0x971); (0x981, 0x981); (0x9BC, 0x9BC); (0x9C1, 0x9C4); (0x9CD, 0x9CD);
   (0x9E2, 0x9E3); (0x9FE, 0x9FE); (0xA01, 0xA02); (0xA3C, 0xA3C); (0xA41, 0xA42);
   (0xA47, 0xA48); (0xA4B, 0xA4D); (0xA51, 0xA51); (0xA70, 0xA71); (0xA75, 0xA75);
   (0xA81, 0xA82); (0xABC, 0xABC); (0xAC1, 0xAC5); (0xAC7, 0xAC8); (0xACD, 0xACD);
   (0xAE2, 0xAE3); (0xAFA, 0xAFF); (0xB01, 0xB01); (0xB3C, 0xB3C); (0xB3F, 0xB3F);
   (0xB41, 0xB44); (0xB4D, 0xB4D); (0xB55, 0xB56); (0xB62, 0xB63); (0xB82, 0xB82);
   (0xBC0, 0xBC0); (0xBCD, 0xBCD); (0xC00, 0xC00); (0xC04, 0xC04); (0xC3C, 0xC3C);
   (0xC3E, 0xC40); (0xC46, 0xC48); (0xC4A, 0xC4D); (0xC55, 0xC56); (0xC62, 0xC63);
   (0xC81, 0xC81); (0xCBC, 0xCBC); (0xCBF, 0xCBF); (0xCC6, 0xCC6); (0xCCC, 0xCCD);
   (0xCE2, 0xCE3); (0xD00, 0xD01); (0xD3B, 0xD3C); (0xD41, 0xD44); (0xD4D, 0xD4D);
   (0xD62, 0xD63); (0xD81, 0xD81); (0xDCA, 0xDCA); (0xDD2, 0xDD4); (0xDD6, 0xDD6);
   (0xE31, 0xE31); (0xE34, 0xE3A); (0xE46, 0xE4E); (0xEB1, 0xEB1); (0xEB4, 0xEBC);
   (0xEC6, 0xEC6); (0xEC8, 0xECD); (0xF18, 0xF19); (0xF35, 0xF35); (0xF37, 0xF37);
   (0xF39, 0xF39); (0xF71, 0xF7E); (0xF80, 0xF84); (0xF86, 0xF87); (0xF8D, 0xF97);
   (0xF99, 0xFBC); (0xFC6, 0xFC6); (0x102D, 0x1030); (0x1032, 0x1037); (0x1039, 0x103A);
   (0x103D, 0x103E); (0x1058, 0x1059); (0x105E, 0x1060); (0x1071, 0x1074); (0x1082, 0x1082);
   (0x1085, 0x1086); (0x108D, 0x108D); (0x109D, 0x109D); (0x10FC, 0x10FC); (0x135D, 0x135F);
   (0x1712, 0x1714); (0x1732, 0x1733); (0x1752, 0x1753); (0x1772, 0x1773); (0x17B4, 0x17B5);
   (0x17B7, 0x17BD); (0x17C6, 0x17C6); (0x17C9, 0x17D3); (0x17D7, 0x17D7); (0x17DD, 0x17DD);
   (0x180B, 0x180F); (0x1843, 0x1843); (0x1885, 0x1886); (0x18A9, 0x18A9); (0x1920, 0x1922);
   (0x1927, 0x1928); (0x1932, 0x1932); (0x1939, 0x193B); (0x1A17, 0x1A18); (0x1A1B, 0x1A1B);
   (0x1A56, 0x1A56); (0x1A58, 0x1A5E); (0x1A60, 0x1A60); (0x1A62, 0x1A62); (0x1A65, 0x1A6C);
   (0x1A73, 0x1A7C); (0x1A7F, 0x1A7F); (0x1AA7, 0x1AA7); (0x1AB0, 0x1ACE); (0x1B00, 0x1B03);
   (0x1B34, 0x1B34); (0x1B36, 0x1B3A); (0x1B3C, 0x1B3C); (0x1B42, 0x1B42); (0x1B6B, 0x1B73);
   (0x1B80, 0x1B81); (0x1BA2, 0x1BA5); (0x1BA8, 0x1BA9); (0x1BAB, 0x1BAD); (0x1BE6, 0x1BE6);
   (0x1BE8, 0x1BE9); (0x1BED, 0x1BED); (0x1BEF, 0x1BF1); (0x1C2C, 0x1C33); (0x1C36, 0x1C37);
   (0x1C78, 0x1C7D); (0x1CD0, 0x1CD2); (0x1CD4, 0x1CE0); (0x1CE2, 0x1CE8); (0x1CED, 0x1CED);
   (0x1CF4, 0x1CF4); (0x1CF8, 0x1CF9); (0x1D2C, 0x1D6A); (0x1D78, 0x1D78); (0x1D9B, 0x1DFF);
   (0x1FBD, 0x1FBD); (0x1FBF, 0x1FC1); (0x1FCD, 0x1FCF); (0x1FDD, 0x1FDF); (0x1FED, 0x1FEF);
   (0x1FFD, 0x1FFE); (0x200B, 0x200F); (0x2018, 0x2019); (0x2024, 0x2024); (0x2027, 0x2027);
   (0x202A, 0x202E); (0x2060, 0x2064); (0x2066, 0x206F); (0x2071, 0x2071); (0x207F, 0x207F);
   (0x2090, 0x209C); (0x20D0, 0x20F0); (0x2C7C, 0x2C7D); (0x2CEF, 0x2CF1); (0x2D6F, 0x2D6F);
   (0x2D7F, 0x2D7F); (0x2DE0, 0x2DFF); (0x2E2F, 0x2E2F); (0x3005, 0x3005); (0x302A, 0x302D);
   (0x3031, 0x3035); (0x303B, 0x303B); (0x3099, 0x309E); (0x30FC, 0x30FE); (0xA015, 0xA015);
   (0xA4F8, 0xA4FD); (0xA60C, 0xA60C); (0xA66F, 0xA672); (0xA674, 0xA67D); (0xA67F, 0xA67F);
   (0xA69C, 0xA69F); (0xA6F0, 0xA6F1); (0xA700, 0xA721); (0xA770, 0xA770); (0xA788, 0xA78A);
   (0xA7F2, 0xA7F4); (0xA7F8, 0xA7F9); (0xA802, 0xA802); (0xA806, 0xA806); (0xA80B, 0xA80B);
   (0xA825, 0xA826); (0xA82C, 0xA82C); (0xA8C4, 0xA8C5); (0xA8E0, 0xA8F1); (0xA8FF, 0xA8FF);
   (0xA926, 0xA92D); (0xA947, 0xA951); (0xA980, 0xA982); (0xA9B3, 0xA9B3); (0xA9B6, 0xA9B9);
   (0xA9BC, 0xA9BD); (0xA9CF, 0xA9CF); (0xA9E5, 0xA9E6); (0xAA29, 0xAA2E); (0xAA31, 0xAA32);
   (0xAA35, 0xAA36); (0xAA43, 0xAA43); (0xAA4C, 0xAA4C); (0xAA70, 0xAA70); (0xAA7C, 0xAA7C);
   (0xAAB0, 0xAAB0); (0xAAB2, 0xAAB4); (0xAAB7, 0xAAB8); (0xAABE, 0xAABF); (0xAAC1, 0xAAC1);
   (0xAADD, 0xAADD); (0xAAEC, 0xAAED); (0xAAF3, 0xAAF4); (0xAAF6, 0xAAF6); (0xAB5B, 0xAB5F);
   (0xAB69, 0xAB6B); (0xABE5, 0xABE5); (0xABE8, 0xABE8); (0xABED, 0xABED); (0xFB1E, 0xFB1E);
   (0xFBB2, 0xFBC2); (0xFE00, 0xFE0F); (0xFE13, 0xFE13); (0xFE20, 0xFE2F); (0xFE52, 0xFE52);
   (0xFE55, 0xFE55); (0xFEFF, 0xFEFF); (0xFF07, 0xFF07); (0xFF0E, 0xFF0E); (0xFF1A, 0xFF1A);
   (0xFF3E, 0xFF3E); (0xFF40, 0xFF40); (0xFF70, 0xFF70); (0xFF9E, 0xFF9F); (0xFFE3, 0xFFE3);
   (0xFFF9, 0xFFFB); (0x101FD, 0x101FD); (0x102E0, 0x102E0); (0x10376, 0x1037A);
   (0x10780, 0x10785); (0x10787, 0x107B0); (0x107B2, 0x107BA); (0x10A01, 0x10A03);
   (0x10A05, 0x10A06); (0x10A0C, 0x10A0F); (0x10A38, 0x10A3A); (0x10A3F, 0x10A3F);
   (0x10AE5, 0x10AE6); (0x10D24, 0x10D27); (0x10EAB, 0x10EAC); (0x10F46, 0x10F50);
   (0x10F82, 0x10F85); (0x11001, 0x11001); (0x11038, 0x11046); (0x11070, 0x11070);
   (0x11073, 0x11074); (0x1107F, 0x11081); (0x110B3, 0x110B6); (0x110B9, 0x110BA);
   (0x110BD, 0x110BD); (0x110C2, 0x110C2); (0x110CD, 0x110CD); (0x11100, 0x11102);
   (0x11127, 0x1112B); (0x1112D, 0x11134); (0x11173, 0x11173); (0x11180, 0x11181);
   (0x111B6, 0x111BE); (0x111C9, 0x111CC); (0x111CF, 0x111CF); (0x1122F, 0x11231);
   (0x11234, 0x11234); (0x11236, 0x11237); (0x1123E, 0x1123E); (0x112DF, 0x112DF);
   (0x112E3, 0x112EA); (0x11300, 0x11301); (0x1133B, 0x1133C); (0x11340, 0x11340);
   (0x11366, 0x1136C); (0x11370, 0x11374); (0x11438, 0x1143F); (0x11442, 0x11444);
   (0x11446, 0x11446); (0x1145E, 0x1145E); (0x114B3, 0x114B8); (0x114BA, 0x114BA);
   (0x114BF, 0x114C0); (0x114C2, 0x114C3); (0x115B2, 0x115B5); (0x115BC, 0x115BD);
   (0x115BF, 0x115C0); (0x115DC, 0x115DD); (0x11633, 0x1163A); (0x1163D, 0x1163D);
   (0x1163F, 0x11640); (0x116AB, 0x116AB); (0x116AD, 0x116AD); (0x116B0, 0x116B5);
   (0x116B7, 0x116B7); (0x1171D, 0x1171F); (0x11722, 0x11725); (0x11727, 0x1172B);
   (0x1182F, 0x11837); (0x11839, 0x1183A); (0x1193B, 0x1193C); (0x1193E, 0x1193E);
   (0x11943, 0x11943); (0x119D4, 0x119D7); (0x119DA, 0x119DB); (0x119E0, 0x119E0);
   (0x11A01, 0x11A0A); (0x11A33, 0x11A38); (0x11A3B, 0x11A3E); (0x11A47, 0x11A47);
   (0x11A51, 0x11A56); (0x11A59, 0x11A5B); (0x11A8A, 0x11A96); (0x11A98, 0x11A99);
   (0x11C30, 0x11C36); (0x11C38, 0x11C3D); (0x11C3F, 0x11C3F); (0x11C92, 0x11CA7);
   (0x11CAA, 0x11CB0); (0x11CB2, 0x11CB3); (0x11CB5, 0x11CB6); (0x11D31, 0x11D36);
   (0x11D3A, 0x11D3A); (0x11D3C, 0x11D3D); (0x11D3F, 0x11D45); (0x11D47, 0x11D47);
   (0x11D90, 0x11D91); (0x11D95, 0x11D95); (0x11D97, 0x11D97); (0x11EF3, 0x11EF4);
   (0x13430, 0x13438); (0x16AF0, 0x16AF4); (0x16B30, 0x16B36); (0x16B40, 0x16B43);
   (0x16F4F, 0x16F4F); (0x16F8F, 0x16F9F); (0x16FE0, 0x16FE1); (0x16FE3, 0x16FE4);
   (0x1AFF0, 0x1AFF3); (0x1AFF5, 0x1AFFB); (0x1AFFD, 0x1AFFE); (0x1BC9D, 0x1BC9E);
   (0x1BCA0, 0x1BCA3); (0x1CF00, 0x1CF2D); (0x1CF30, 0x1CF46); (0x1D167, 0x1D169);
   (0x1D173, 0x1D182); (0x1D185, 0x1D18B); (0x1D1AA, 0x1D1AD); (0x1D242, 0x1D244);
   (0x1DA00, 0x1DA36); (0x1DA3B, 0x1DA6C); (0x1DA75, 0x1DA75); (0x1DA84, 0x1DA84);
   (0x1DA9B, 0x1DA9F); (0x1DAA1, 0x1DAAF); (0x1E000, 0x1E006); (0x1E008, 0x1E018);
   (0x1E01B, 0x1E021); (0x1E023, 0x1E024); (0x1E026, 0x1E02A); (0x1E130, 0x1E13D);
   (0x1E2AE, 0x1E2AE); (0x1E2EC, 0x1E2EF); (0x1E8D0, 0x1E8D6); (0x1E944, 0x1E94B);
   (0x1F3FB, 0x1F3FF); (0xE0001, 0xE0001); (0xE0020, 0xE007F); (0xE0100, 0xE01EF)
  ]%N.

(** [ch.isspace()] for one character *)
Definition isspace (ch : string) : bool :=
  match codepoint ch with
  | Some n => in_ranges n whitespace
  | None => false
  end.

Definition is_cased (ch : string) : bool :=
  match codepoint ch with
  | Some n => in_ranges n cased_ranges
  | None => false
  end.

Definition is_case_ignorable (ch : string) : bool :=
  match codepoint ch with
  | Some n => in_ranges n case_ignorable_ranges
  | None => false
  end.

(** The full case mapping of one character by the given tables; a character
    that the tables do not list is left as it is. *)
Definition map_case (ranges : list (N * N * N * N)) (special : list (N * list N))
    (ch : string) : string :=
  match codepoint ch with
  | Some n =>
      match in_special n special with
      | Some image => unchars (map chr image)
      | None =>
          match in_case_ranges n ranges with
          | Some m => chr m
          | None => ch
          end
      end
  | None => ch
  end.

Definition lower_char : string → string := map_case lower_ranges lower_special.
Definition upper_char : string → string := map_case upper_ranges upper_special.

(** [s.upper()] *)
Definition upper (s : string) : string := unchars (map upper_char (chars s)).

(** No cased letter follows, case-ignorable characters apart. *)
Fixpoint ends_word (rest : list string) : bool :=
  match rest with
  | [] => true
  | ch :: rest => if is_case_ignorable ch then ends_word rest else negb (is_cased ch)
  end.

(** The lowercase of the characters [l]; [after_cased] tells whether a cased
    letter precedes them, case-ignorable characters apart.  A capital sigma
    becomes a final sigma where it ends a word. *)
Fixpoint lower_chars (after_cased : bool) (l : list string) : list string :=
  match l with
  | [] => []
  | ch :: rest =>
      (if decide (codepoint ch = Some 0x3A3%N) then
         if after_cased && ends_word rest then chr 0x3C2 else chr 0x3C3
       else lower_char ch)
      :: lower_chars (if is_case_ignorable ch then after_cased else is_cased ch) rest
  end.

(** [s.lower()] *)
Definition lower (s : string) : string := unchars (lower_chars false (chars s)).

Fixpoint lstrip_chars (l : list string) : list string :=
  match l with
  | [] => []
  | ch :: rest => if isspace ch then lstrip_chars rest else l
  end.

Fixpoint rstrip_chars (l : list string) : list string :=
  match l with
  | [] => []
  | ch :: rest =>
      match rstrip_chars rest with
      | [] => if isspace ch then [] else [ch]
      | r => ch :: r
      end
  end.

(** [s.lstrip()] and [s.strip()] *)
Definition lstrip (s : string) : string := unchars (lstrip_chars (chars s)).

Definition strip (s : string) : string :=
  unchars (rstrip_chars (lstrip_chars (chars s))).

(** [s.startswith(p)] *)
Definition startswith (s p : string) : bool := String.prefix p s.

(** [sub in s] *)
Fixpoint contains (sub s : string) : bool :=
  String.prefix sub s ||
  match s with
  | EmptyString => false
  | String _ s' => contains sub s'
  end.

(** [sep.join(parts)] *)
Fixpoint join (sep : string) (parts : list string) : string :=
  match parts with
  | [] => ""
  | [p] => p
  | p :: rest => p +:+ sep +:+ join sep rest
  end.

(** [l[-n:]] for a positive [n] *)
Definition last_n {A} (n : nat) (l : list A) : list A :=
  drop (length l - n)%nat l.

(** [any(p(x) for x in l)] *)
Definition any {A} (p : A → bool) (l : list A) : bool := existsb p l.

(** [s.split(sep)] for a non-empty [sep]: the pieces between the occurrences
    of [sep], which are found from the left and do not overlap.  [skip] is the
    number of bytes of the occurrence just found that are still to be passed
    over. *)
Fixpoint split_from (sep s : string) (skip : nat) : list string :=
  match s with
  | EmptyString => [EmptyString]
  | String c s' =>
      match skip with
      | S k => split_from sep s' k
      | O =>
          if String.prefix sep s then
            EmptyString :: split_from sep s' (String.length sep - 1)
          else
            match split_from sep s' 0 with
            | piece :: pieces => String c piece :: pieces
            | [] => [String c EmptyString]
            end
      end
  end.

Definition split (sep s : string) : list string := split_from sep s 0.

(** [len(s)]: the number of characters, one for every byte that is not a
    continuation byte. *)
Fixpoint count_chars (s : string) : nat :=
  match s with
  | EmptyString => 0
  | String c s' => ((if is_continuation c then 0 else 1) + count_chars s')%nat
  end.

Definition len (s : string) : Z := Z.of_nat (count_chars s).

(** *** Vocabulary of the statements about strings *)

(** The string consists of white space only. *)
Definition blank (s : string) : Prop := Forall (λ ch, isspace ch = true) (chars s).

Global Instance blank_dec s : Decision (blank s).
Proof. unfold blank. apply _. Defined.

(** The string is not empty, and neither its first nor its last character
    is white space. *)
Definition trimmed (s : string) : Prop :=
  ∃ first final,
    head (chars s) = Some first ∧ last (chars s) = Some final ∧
    isspace first = false ∧ isspace final = false.

(** The string begins, and ends, with a lowercase letter of the Latin
    alphabet. *)
Definition is_letter (c : ascii) : bool := ((97 <=? ord c) && (ord c <=? 122))%N.

Definition starts_letter (s : string) : bool :=
  match s with
  | String c _ => is_letter c
  | EmptyString => false
  end.

Fixpoint ends_letter (s : string) : bool :=
  match s with
  | EmptyString => false
  | String c EmptyString => is_letter c
  | String _ s' => ends_letter s'
  end.

(** No byte of the string is a lowercase letter of the Latin alphabet. *)
Fixpoint letter_free (s : string) : bool :=
  match s with
  | EmptyString => true
  | String c s' => negb (is_letter c) && letter_free s'
  end.

(** The code points of a table of ranges. *)
Definition code_points (table : list (N * N)) : list N :=
  concat (map (λ r, map N.of_nat (seq (N.to_nat r.1) (N.to_nat r.2 + 1 - N.to_nat r.1)))
              table).

(** What the proofs use of a code point of white space: it is not the
    capital sigma, it has no lowercase of its own, and it is neither cased
    nor case-ignorable. *)
Definition inert (n : N) : bool :=
  negb (n =? 0x3A3)%N
  && bool_decide (in_special n lower_special = None)
  && bool_decide (in_case_ranges n lower_ranges = None)
  && negb (in_ranges n cased_ranges)
  && negb (in_ranges n case_ignorable_ranges).

(** The string without its first [n] bytes. *)
Fixpoint skip_bytes (n : nat) (s : string) : string :=
  match n, s with
  | S k, String _ s' => skip_bytes k s'
  | _, _ => s
  end.

(** A byte that begins a character, or continues one, followed by
    continuation bytes only; and such a string that begins with a byte that
    begins a character. *)
Fixpoint all_continuation (s : string) : bool :=
  match s with
  | EmptyString => true
  | String c s' => is_continuation c && all_continuation s'
  end.

Definition is_block (ch : string) : bool :=
  match ch with
  | String _ t => all_continuation t
  | EmptyString => false
  end.

Definition is_char (ch : string) : bool := is_block ch && negb (starts_continuation ch).

End PyStr.

(* ===================================================================== *)
(** ** Python values and exceptions *)
(* ===================================================================== *)

(** The values that travel in tool arguments, tool results and the JSON
    columns of a step.  [VSession] is the SQLAlchemy session object that the
    execution context carries under the key ["db"]; floats are carried as
    rationals. *)
Inductive Value : Type :=
| VNone
| VBool (b : bool)
| VInt (z : Z)
| VFloat (q : Q)
| VStr (s : string)
| VList (l : list Value)
| VDict (kv : list (string * Value))
| VSession.

(** [{"error": msg}] *)
Definition error_envelope (msg : string) : Value := VDict [("error", VStr msg)].

(** [type(v).__name__] *)
Definition type_name (v : Value) : string :=
  match v with
  | VNone => "NoneType"
  | VBool _ => "bool"
  | VInt _ => "int"
  | VFloat _ => "float"
  | VStr _ => "str"
  | VList _ => "list"
  | VDict _ => "dict"
  | VSession => "Session"
  end.

Inductive Exn : Type :=
| MissingArgs (fn : string) (names : list string)
    (** the [TypeError] of a call that lacks required arguments *)
| UnexpectedArg (fn : string) (name : string)
    (** the [TypeError] of a call with a keyword the function does not take *)
| AttributeError (ty : string) (attr : string)
| HTTPException (status_code : Z) (detail : string)
| ValueError (msg : string)
| Exception (msg : string).

Definition quote (s : string) : string := "'" +:+ s +:+ "'".

(** The argument list of CPython's missing-arguments message. *)
Fixpoint name_list (names : list string) : string :=
  match names with
  | [] => ""
  | [a] => quote a
  | [a; b] => quote a +:+ " and " +:+ quote b
  | a :: rest =>
      quote a +:+ ", " +:+
      match rest with
      | [b; c] => quote b +:+ ", and " +:+ quote c
      | _ => name_list rest
      end
  end.

(** [str(e)] *)
Definition exn_str (e : Exn) : string :=
  match e with
  | MissingArgs fn names =>
      fn +:+ "() missing " +:+ pretty (length names) +:+ " required positional argument"
         +:+ (if decide (length names = 1%nat) then "" else "s") +:+ ": " +:+ name_list names
  | UnexpectedArg fn name =>
      fn +:+ "() got an unexpected keyword argument " +:+ quote name
  | AttributeError ty attr =>
      quote ty +:+ " object has no attribute " +:+ quote attr
  | HTTPException code detail => pretty code +:+ ": " +:+ detail
  | ValueError msg => msg
  | Exception msg => msg
  end.

(** Python truthiness of an optional integer ([if conversation_id:]). *)
Definition truthy_id (o : option Z) : bool :=
  match o with
  | Some z => negb (z =? 0)
  | None => false
  end.

(* ===================================================================== *)
(** ** The data model ([app/models]) *)
(* ===================================================================== *)

(** Rows are looked up by primary key, so the key is the index of the table
    and not a field of the row; [Agent] keeps its [id] because the row itself
    is handed to the runner.  Surrogate keys and server-side timestamps of the
    append-only tables are not modelled: rows are kept in insertion order,
    which is the order of their ids. *)

Inductive RunStatus := PENDING | RUNNING | COMPLETED | FAILED.

Inductive StepType := LLM_CALL | TOOL_CALL | TOOL_RESULT | ERROR | FINAL_ANSWER.

Global Instance RunStatus_eq_dec : EqDecision RunStatus.
Proof. solve_decision. Defined.

Global Instance StepType_eq_dec : EqDecision StepType.
Proof. solve_decision. Defined.

Module Run.
Record t := mk {
  input_text : string;
  output_text : option string;
  status : RunStatus;
  error_message : option string;
  user_id : Z;
  agent_id : Z;
  conversation_id : option Z;
  started_at : option Z;
  completed_at : option Z;
}.
End Run.

Module RunStep.
Record t := mk {
  run_id : Z;
  step_order : Z;
  step_type : StepType;
  input_data : option Value;
  output_data : option Value;
  tool_name : option string;
  error_message : option string;
  duration_ms : option Z;
}.
End RunStep.

Module Tool.
Record t := mk {
  name : string;
  description : string;
  enabled : bool;
}.
End Tool.

Module Agent.
Record t := mk {
  id : Z;
  name : string;
  description : option string;
  system_prompt : string;
  kb_enabled : bool;
  user_id : Z;
  tools : list Tool.t;
}.
End Agent.

Module Conversation.
Record t := mk {
  agent_id : Z;
  user_id : Z;
  title : option string;
}.
End Conversation.

Module Message.
Record t := mk {
  conversation_id : Z;
  role : string;
  content : string;
}.
End Message.

Module Document.
Record t := mk {
  filename : string;
  file_path : string;
  file_size : option Z;
  processed : bool;
  user_id : Z;
  agent_id : option Z;
}.
End Document.

(** What one [db.commit()] made durable. *)
Inductive Commit :=
| CommitRun (run_id : Z) (r : Run.t)
| CommitStep (s : RunStep.t)
| CommitMessage (m : Message.t)
| CommitDelete (run_id : Z).

(** The database.  [commits] is the log of the commits in the order they
    happened; it only records, nothing reads it. *)
Record DB := mkDB {
  runs : gmap Z Run.t;
  agents : gmap Z Agent.t;
  conversations : gmap Z Conversation.t;
  messages : list Message.t;
  run_steps : list RunStep.t;
  documents : gmap Z Document.t;
  commits : list Commit;
}.


(* ===================================================================== *)
(** ** Effects of the tool handlers *)
(* ===================================================================== *)

(** A call that leaves the process. *)
Inductive Call :=
| SqlExecute (query : string)
| VectorSearch (user_id agent_id query top_k : Value)
| HttpGet (url headers : Value)
| HttpPost (url headers body : Value)
| PathExists (path : string)
| ReadFile (path : string)
| WebSearch (query max_results : Value).

(** A computation that may raise, together with the external calls it made
    (in order) before it returned or raised. *)
Definition Eff (A : Type) : Type := (list Call * (Exn + A))%type.

Global Instance Eff_ret : MRet Eff := λ A x, ([], inr x).

Global Instance Eff_bind : MBind Eff := λ A B f m,
  match m with
  | (t, inl e) => (t, inl e)
  | (t, inr a) => let '(t', r) := f a in (t ++ t', r)
  end.

Definition raise {A} (e : Exn) : Eff A := ([], inl e).

(** [try: body except Exception as e: handler e] *)
Definition try_catch {A} (body : Eff A) (handler : Exn → Eff A) : Eff A :=
  match body with
  | (t, inl e) => let '(t', r) := handler e in (t ++ t', r)
  | (t, inr a) => (t, inr a)
  end.

(** One external call and the collaborator's answer to it. *)
Definition perform {A} (c : Call) (answer : Exn + A) : Eff A := ([c], answer).

Definition calls {A} (m : Eff A) : list Call := fst m.
Definition outcome {A} (m : Eff A) : Exn + A := snd m.

(** A computation that may raise, where the calls it makes are not traced. *)
Definition Res (A : Type) : Type := (Exn + A)%type.

Global Instance Res_ret : MRet Res := λ A x, inr x.

Global Instance Res_bind : MBind Res := λ A B f m,
  match m with
  | inl e => inl e
  | inr a => f a
  end.

(** [try: body except Exception as e: handler e] *)
Definition res_try {A} (body : Res A) (handler : Exn → Res A) : Res A :=
  match body with
  | inl e => handler e
  | inr a => inr a
  end.

Record Hit := mkHit { hit_text : Value; hit_score : Q }.

Record Response := mkResponse {
  status_code : Z;
  json : option Value;   (** [None]: [response.json()] raises *)
  text : string;
}.

(** The collaborators of the tool handlers. *)
Record World := mkWorld {
  qdrant_search : Value → Value → Value → Value → Exn + list Hit;
  py_round3 : Q → Q;
  db_execute : string → Exn + list (list (string * Value));
  db_coerce_int : Value → Exn + Z;
    (** how the SQL engine binds a non-integer to an integer column *)
  httpx_get : Value → Value → Exn + Response;
  httpx_post : Value → Value → Value → Exn + Response;
  path_exists : string → bool;
  read_text : string → Exn + string;
  ddg_web_search : Value → Value → Exn + string;
}.

(* ===================================================================== *)
(** ** [app/ai/tool_registry.py] *)
(* ===================================================================== *)

Module ToolRegistry.

Record ToolDefinition := mkToolDefinition {
  def_name : string;
  def_description : string;
}.

(** [TOOL_DEFINITIONS]; the parameter schemas, which only the LLM reads, are
    left out. *)
Definition TOOL_DEFINITIONS : gmap string ToolDefinition :=
  list_to_map [
    ("vector_search", mkToolDefinition "vector_search"
       "Search the knowledge base for relevant information using semantic similarity. Use this when you need to find specific facts or context from uploaded documents.");
    ("sql_query", mkToolDefinition "sql_query"
       "Execute a read-only SQL query on the PostgreSQL database. Only SELECT statements are allowed. Use this to retrieve structured data.");
    ("http_fetch", mkToolDefinition "http_fetch"
       "Make an HTTP request to an external API or URL. Returns the response data. Use this to fetch real-time data or interact with external services.");
    ("file_fetch", mkToolDefinition "file_fetch"
       "Retrieve the full contents of an uploaded document by its ID. Use this to access complete document text.");
    ("web_search", mkToolDefinition "web_search"
       "Search the internet for current information, news, facts, or any topic. Use this when you need up-to-date information that may not be in your knowledge base.")
  ].

(** *** Calling a function with [**kwargs] *)

Definition missing (required : list string) (kw : gmap string Value) : list string :=
  filter (λ k, ¬ is_Some (kw !! k)) required.

(** Binding the keyword arguments to a signature with the given required
    parameters and a final [**kwargs]: only missing arguments are an error. *)
Definition bind_args {A} (fn : string) (required : list string)
    (kw : gmap string Value) (body : Eff A) : Eff A :=
  match missing required kw with
  | [] => body
  | names => raise (MissingArgs fn names)
  end.

(** The value bound to parameter [k], or the parameter's default. *)
Definition arg (kw : gmap string Value) (k : string) (dflt : Value) : Value :=
  default dflt (kw !! k).

(** [v.attr(...)] where [attr] is a method of [str] *)
Definition str_method (attr : string) (v : Value) : Eff string :=
  match v with
  | VStr s => mret s
  | _ => raise (AttributeError (type_name v) attr)
  end.

(** [v.attr(...)] where [attr] is a method of the session *)
Definition session_method (attr : string) (v : Value) : Eff unit :=
  match v with
  | VSession => mret ()
  | _ => raise (AttributeError (type_name v) attr)
  end.

(** A value compared with an integer column. *)
Definition as_int (w : World) (v : Value) : Eff Z :=
  match v with
  | VInt z => mret z
  | _ => ([], db_coerce_int w v)
  end.

(** *** Handlers *)

Definition vector_search_handler (w : World) (st : DB) (kw : gmap string Value) : Eff Value :=
  bind_args "vector_search_handler" ["user_id"; "agent_id"; "query"] kw (
    let user_id := arg kw "user_id" VNone in
    let agent_id := arg kw "agent_id" VNone in
    let query := arg kw "query" VNone in
    let top_k := arg kw "top_k" (VInt 5) in
    try_catch
      (results ← perform (VectorSearch user_id agent_id query top_k)
                         (qdrant_search w user_id agent_id query top_k);
       mret (VDict [
         ("results", VList (map (λ r, VDict [
              ("text", hit_text r);
              ("relevance_score", VFloat (py_round3 w (hit_score r)))]) results));
         ("count", VInt (Z.of_nat (length results)))]))
      (λ e, mret (error_envelope ("Vector search failed: " +:+ exn_str e)))).

Definition dangerous : list string :=
  ["insert"; "update"; "delete"; "drop"; "alter"; "create"; "truncate"].

(** [{"rows": rows, "count": len(rows)}] *)
Definition rows_result (rows : list (list (string * Value))) : Value :=
  VDict [("rows", VList (map VDict rows)); ("count", VInt (Z.of_nat (length rows)))].

Definition sql_query_handler (w : World) (st : DB) (kw : gmap string Value) : Eff Value :=
  bind_args "sql_query_handler" ["db"; "query"] kw (
    let db := arg kw "db" VNone in
    let query := arg kw "query" VNone in
    try_catch
      (q ← str_method "strip" query;
       let query_lower := PyStr.lower (PyStr.strip q) in
       if negb (PyStr.startswith query_lower "select") then
         mret (error_envelope "Only SELECT queries are allowed")
       else if PyStr.any (λ keyword, PyStr.contains keyword query_lower) dangerous then
         mret (error_envelope "Query contains forbidden keywords")
       else
         _ ← session_method "execute" db;
         rows ← perform (SqlExecute q) (db_execute w q);
         mret (rows_result rows))
      (λ e, mret (error_envelope ("SQL query failed: " +:+ exn_str e)))).

Definition http_result (response : Response) : Value :=
  VDict [
    ("status_code", VInt (status_code response));
    ("data", match json response with
             | Some data => data
             | None => VStr (text response)
             end)].

Definition http_fetch_handler (w : World) (st : DB) (kw : gmap string Value) : Eff Value :=
  bind_args "http_fetch_handler" ["url"] kw (
    let url := arg kw "url" VNone in
    let method := arg kw "method" (VStr "GET") in
    let headers := arg kw "headers" VNone in
    let body := arg kw "body" VNone in
    try_catch
      (m ← str_method "upper" method;
       if String.eqb (PyStr.upper m) "GET" then
         response ← perform (HttpGet url headers) (httpx_get w url headers);
         mret (http_result response)
       else if String.eqb (PyStr.upper m) "POST" then
         response ← perform (HttpPost url headers body) (httpx_post w url headers body);
         mret (http_result response)
       else
         mret (error_envelope ("Unsupported method: " +:+ m)))
      (λ e, mret (error_envelope ("HTTP request failed: " +:+ exn_str e)))).

(** [db.query(Document).filter(Document.id == doc_id,
                               Document.user_id == user_id).first()] *)
Definition query_document (st : DB) (doc_id user_id : Z) : option Document.t :=
  match documents st !! doc_id with
  | Some doc => if decide (Document.user_id doc = user_id) then Some doc else None
  | None => None
  end.

Definition opt_int (o : option Z) : Value :=
  match o with
  | Some z => VInt z
  | None => VNone
  end.

Definition file_fetch_handler (w : World) (st : DB) (kw : gmap string Value) : Eff Value :=
  bind_args "file_fetch_handler" ["db"; "user_id"; "doc_id"] kw (
    let db := arg kw "db" VNone in
    let user_id := arg kw "user_id" VNone in
    let doc_id := arg kw "doc_id" VNone in
    try_catch
      (_ ← session_method "query" db;
       d ← as_int w doc_id;
       u ← as_int w user_id;
       match query_document st d u with
       | None => mret (error_envelope "Document not found or access denied")
       | Some doc =>
           present ← perform (PathExists (Document.file_path doc))
                             (inr (path_exists w (Document.file_path doc)));
           if negb present then
             mret (error_envelope "File not found on disk")
           else
             content ← perform (ReadFile (Document.file_path doc))
                               (read_text w (Document.file_path doc));
             mret (VDict [
               ("filename", VStr (Document.filename doc));
               ("content", VStr content);
               ("size_bytes", opt_int (Document.file_size doc));
               ("processed", VBool (Document.processed doc))])
       end)
      (λ e, mret (error_envelope ("File fetch failed: " +:+ exn_str e)))).

Definition web_search_handler (w : World) (st : DB) (kw : gmap string Value) : Eff Value :=
  bind_args "web_search_handler" ["query"] kw (
    let query := arg kw "query" VNone in
    let max_results := arg kw "max_results" (VInt 5) in
    try_catch
      (result ← perform (WebSearch query max_results) (ddg_web_search w query max_results);
       mret (VDict [("results", VStr result)]))
      (λ e, mret (error_envelope ("Web search failed: " +:+ exn_str e)))).

(** [TOOL_HANDLERS] *)
Definition TOOL_HANDLERS : gmap string (World → DB → gmap string Value → Eff Value) :=
  list_to_map [
    ("vector_search", vector_search_handler);
    ("sql_query", sql_query_handler);
    ("http_fetch", http_fetch_handler);
    ("file_fetch", file_fetch_handler);
    ("web_search", web_search_handler)
  ].

Definition get_tool_definition (tool_name : string) : option ToolDefinition :=
  TOOL_DEFINITIONS !! tool_name.

(** [{**arguments, **context}]: on a shared key the later entry wins. *)
Definition merge_kwargs (arguments context : gmap string Value) : gmap string Value :=
  context ∪ arguments.

Definition execute_tool (w : World) (st : DB) (tool_name : string)
    (arguments context : gmap string Value) : Eff Value :=
  match TOOL_HANDLERS !! tool_name with
  | None => mret (error_envelope ("Unknown tool: " +:+ tool_name))
  | Some handler =>
      try_catch
        (let kwargs := merge_kwargs arguments context in
         handler w st kwargs)
        (λ e, mret (error_envelope ("Tool execution failed: " +:+ exn_str e)))
  end.

(** The [required] lists of the parameter schemas in [TOOL_DEFINITIONS]: the
    arguments the model is told it must supply. *)
Definition required_parameters : gmap string (list string) :=
  list_to_map [
    ("vector_search", ["query"]);
    ("sql_query", ["query"]);
    ("http_fetch", ["url"]);
    ("file_fetch", ["doc_id"]);
    ("web_search", ["query"])
  ].

End ToolRegistry.


(* ===================================================================== *)
(** ** Stateful code that may raise *)
(* ===================================================================== *)

(** A computation over a mutable state [S]: the state it leaves behind, and
    the value it returns or the exception it raises.  The state survives an
    exception: what was committed before the raise stays committed. *)
Definition ST (S A : Type) : Type := S → S * (Exn + A).

Global Instance ST_ret {S} : MRet (ST S) := λ A x s, (s, inr x).

Global Instance ST_bind {S} : MBind (ST S) := λ A B f m s,
  match m s with
  | (s', inl e) => (s', inl e)
  | (s', inr a) => f a s'
  end.

Definition st_raise {S A} (e : Exn) : ST S A := λ s, (s, inl e).

(** [try: body except Exception as e: handler e] *)
Definition st_try {S A} (body : ST S A) (handler : Exn → ST S A) : ST S A := λ s,
  match body s with
  | (s', inl e) => handler e s'
  | (s', inr a) => (s', inr a)
  end.

Definition st_get {S} : ST S S := λ s, (s, inr s).

Definition st_modify {S} (f : S → S) : ST S unit := λ s, (f s, inr ()).

(** A collaborator's answer, raised if it is an exception. *)
Definition st_answer {S A} (r : Exn + A) : ST S A := λ s, (s, r).

(** *** Writes *)

Definition with_runs (f : gmap Z Run.t → gmap Z Run.t) (st : DB) : DB :=
  mkDB (f (runs st)) (agents st) (conversations st) (messages st)
       (run_steps st) (documents st) (commits st).

Definition with_messages (f : list Message.t → list Message.t) (st : DB) : DB :=
  mkDB (runs st) (agents st) (conversations st) (f (messages st))
       (run_steps st) (documents st) (commits st).

Definition with_run_steps (f : list RunStep.t → list RunStep.t) (st : DB) : DB :=
  mkDB (runs st) (agents st) (conversations st) (messages st)
       (f (run_steps st)) (documents st) (commits st).

Definition with_commits (f : list Commit → list Commit) (st : DB) : DB :=
  mkDB (runs st) (agents st) (conversations st) (messages st)
       (run_steps st) (documents st) (f (commits st)).

Definition with_conversations (f : gmap Z Conversation.t → gmap Z Conversation.t)
    (st : DB) : DB :=
  mkDB (runs st) (agents st) (f (conversations st)) (messages st)
       (run_steps st) (documents st) (commits st).

(** [db.add(step); db.commit()] *)
Definition insert_step (step : RunStep.t) (st : DB) : DB :=
  with_commits (λ l, l ++ [CommitStep step]) (with_run_steps (λ l, l ++ [step]) st).

(** [db.add(message); db.commit()] *)
Definition insert_message (message : Message.t) (st : DB) : DB :=
  with_commits (λ l, l ++ [CommitMessage message]) (with_messages (λ l, l ++ [message]) st).

(** Assignments to the attributes of the row [run_id]. *)
Definition update_run (run_id : Z) (f : Run.t → Run.t) (st : DB) : DB :=
  with_runs (alter f run_id) st.

(** [db.commit()] of the row [run_id]. *)
Definition commit_row (run_id : Z) (st : DB) : DB :=
  match runs st !! run_id with
  | Some r => with_commits (λ l, l ++ [CommitRun run_id r]) st
  | None => st
  end.

(** The foreign key of [run_steps.run_id]: every step belongs to a run. *)
Definition steps_have_runs (st : DB) : Prop :=
  ∀ s, s ∈ run_steps st → is_Some (runs st !! RunStep.run_id s).

(** [db.query(Run).filter(Run.id == run_id).first()]: the handle of the row,
    or [None]. *)
Definition query_run (run_id : Z) : ST DB (option Z) := λ st,
  (st, inr (if decide (is_Some (runs st !! run_id)) then Some run_id else None)).

(** Assignments to attributes of [run], the first of which is [attr]. *)
Definition assign_run (run : option Z) (attr : string) (f : Run.t → Run.t) : ST DB unit :=
  match run with
  | None => st_raise (AttributeError "NoneType" attr)
  | Some run_id => st_modify (update_run run_id f)
  end.

(** [db.commit()] after assignments to [run] *)
Definition commit_run (run : option Z) : ST DB unit :=
  match run with
  | Some run_id => st_modify (commit_row run_id)
  | None => mret ()
  end.

(* ===================================================================== *)
(** ** [app/services/conversation_service.py] *)
(* ===================================================================== *)

Module ConversationService.

Definition get_conversation (st : DB) (conversation_id user_id : Z) : option Conversation.t :=
  match conversations st !! conversation_id with
  | Some c => if decide (Conversation.user_id c = user_id) then Some c else None
  | None => None
  end.

Definition add_message (conversation_id user_id : Z) (role content : string)
  : ST DB Message.t := λ st,
  match get_conversation st conversation_id user_id with
  | None => (st, inl (HTTPException 404 "Conversation not found"))
  | Some _ =>
      let message := Message.mk conversation_id role content in
      (insert_message message st, inr message)
  end.

(** [conversation.messages] *)
Definition messages_of (st : DB) (conversation_id : Z) : list Message.t :=
  filter (λ m, Message.conversation_id m = conversation_id) (messages st).

(** The history as (role, content) pairs. *)
Definition get_conversation_history (st : DB) (conversation_id user_id : Z)
  : list (string * string) :=
  match get_conversation st conversation_id user_id with
  | None => []
  | Some _ =>
      map (λ msg, (Message.role msg, Message.content msg)) (messages_of st conversation_id)
  end.

(** [update_conversation]: the title is set when one is given. *)
Definition update_conversation (conversation_id user_id : Z) (title : option string)
  : ST DB (option Conversation.t) := λ st,
  match get_conversation st conversation_id user_id with
  | None => (st, inr None)
  | Some conversation =>
      let conversation :=
        match title with
        | Some t => Conversation.mk (Conversation.agent_id conversation)
                                    (Conversation.user_id conversation) (Some t)
        | None => conversation
        end in
      (with_conversations (insert conversation_id conversation) st, inr (Some conversation))
  end.

(** What deleting conversation [conversation_id] does to a run: the column
    [runs.conversation_id] is declared [ondelete="SET NULL"]. *)
Definition unlink (conversation_id : Z) (r : Run.t) : Run.t :=
  if decide (Run.conversation_id r = Some conversation_id) then
    Run.mk (Run.input_text r) (Run.output_text r) (Run.status r) (Run.error_message r)
           (Run.user_id r) (Run.agent_id r) None (Run.started_at r) (Run.completed_at r)
  else r.

(** [delete_conversation]; the messages of the conversation go with it
    (cascade), the runs that were attached to it stay, detached.  The journal
    [commits] follows the tables of the run pipeline and has no entry for a
    commit to [conversations]. *)
Definition delete_conversation (conversation_id user_id : Z) : ST DB bool := λ st,
  match get_conversation st conversation_id user_id with
  | None => (st, inr false)
  | Some _ =>
      (with_runs (fmap (unlink conversation_id))
         (with_messages (filter (λ m, Message.conversation_id m ≠ conversation_id))
            (with_conversations (delete conversation_id) st)),
       inr true)
  end.

End ConversationService.

(* ===================================================================== *)
(** ** [app/ai/agent_builder.py] *)
(* ===================================================================== *)

Module AgentBuilder.

Record FunctionTool := mkFunctionTool {
  tool_name : string;
  tool_description : string;
  tool_fn : World → DB → gmap string Value → Eff Value;
}.

Record ReActAgent := mkReActAgent {
  agent_name : string;
  agent_description : string;
  agent_tools : list FunctionTool;
  agent_system_prompt : string;
}.

(** The constructors of the LLM libraries: each may raise. *)
Record Constructors := mkConstructors {
  OpenAI_init : option Exn;
  FunctionTool_init : string → option Exn;
  ReActAgent_init : option Exn;
}.

Definition construct {S} (failure : option Exn) : ST S unit :=
  match failure with
  | Some e => st_raise e
  | None => mret ()
  end.

(** The [context] dictionary of the closure [tool_fn]: built from the
    variables the closure captured, never from [kwargs]. *)
Definition tool_context (user_id : Z) (agent : Agent.t) : gmap string Value :=
  {[ "user_id" := VInt user_id;
     "agent_id" := VInt (Agent.id agent);
     "db" := VSession ]}.

(** The closure that [create_tool_fn(name)] returns. *)
Definition create_tool_fn (user_id : Z) (agent : Agent.t) (name : string)
  : World → DB → gmap string Value → Eff Value := λ w st kwargs,
  let context := tool_context user_id agent in
  ToolRegistry.execute_tool w st name kwargs context.

Definition newline : string := String (ascii_of_nat 10) "".

(** [sep.join(texts)], which raises on an item that is not a string. *)
Fixpoint texts_of (i : nat) (results : list Hit) : Eff (list string) :=
  match results with
  | [] => mret []
  | r :: rest =>
      match hit_text r with
      | VStr s => l ← texts_of (S i) rest; mret (s :: l)
      | v => raise (Exception ("sequence item " +:+ pretty i +:+ ": expected str instance, "
                                 +:+ type_name v +:+ " found"))
      end
  end.

(** The closure [vector_search_fn(query, top_k=5)] of a knowledge-base
    agent; it takes no other keyword. *)
Definition vector_search_fn (user_id : Z) (agent : Agent.t)
  : World → DB → gmap string Value → Eff Value := λ w st kw,
  match filter (λ k, k ∉ ["query"; "top_k"]) (map fst (map_to_list kw)) with
  | k :: _ => raise (UnexpectedArg "vector_search_fn" k)
  | [] =>
      ToolRegistry.bind_args "vector_search_fn" ["query"] kw (
        let query := ToolRegistry.arg kw "query" VNone in
        let top_k := ToolRegistry.arg kw "top_k" (VInt 5) in
        results ← perform (VectorSearch (VInt user_id) (VInt (Agent.id agent)) query top_k)
                          (qdrant_search w (VInt user_id) (VInt (Agent.id agent)) query top_k);
        context_texts ← texts_of 0 results;
        mret (VStr (PyStr.join (newline +:+ newline +:+ "---" +:+ newline +:+ newline)
                               context_texts)))
  end.

(** The loop over [agent.tools]. *)
Fixpoint build_tools {S} (c : Constructors) (user_id : Z) (agent : Agent.t)
    (tool_models : list Tool.t) : ST S (list FunctionTool) :=
  match tool_models with
  | [] => mret []
  | tool_model :: rest =>
      let tool_name := Tool.name tool_model in
      match ToolRegistry.get_tool_definition tool_name with
      | None => build_tools c user_id agent rest
      | Some tool_def =>
          _ ← construct (FunctionTool_init c (ToolRegistry.def_name tool_def));
          let llama_tool :=
            mkFunctionTool (ToolRegistry.def_name tool_def)
                           (ToolRegistry.def_description tool_def)
                           (create_tool_fn user_id agent tool_name) in
          tools ← build_tools c user_id agent rest;
          mret (llama_tool :: tools)
      end
  end.

(** [x or dflt] on an optional string *)
Definition str_or (x : option string) (dflt : string) : string :=
  match x with
  | Some (String c s) => String c s
  | _ => dflt
  end.

Definition build_agent {S} (c : Constructors) (agent : Agent.t) (user_id : Z)
  : ST S ReActAgent :=
  _ ← construct (OpenAI_init c);
  tools ← build_tools c user_id agent (Agent.tools agent);
  kb ← (if Agent.kb_enabled agent then
          _ ← construct (FunctionTool_init c "knowledge_base_search");
          mret [mkFunctionTool "knowledge_base_search"
                  "Search the knowledge base for relevant information from uploaded documents."
                  (vector_search_fn user_id agent)]
        else mret []);
  _ ← construct (ReActAgent_init c);
  mret (mkReActAgent (Agent.name agent)
                     (str_or (Agent.description agent) "AI Agent")
                     (tools ++ kb)
                     (Agent.system_prompt agent)).

(** *** Vocabulary of the statements about the tools of an agent *)

(** The tool that the loop over [agent.tools] makes for a tool row with the
    name [name], if the registry defines that name. *)
Definition gateway_tool (user_id : Z) (agent : Agent.t) (name : string)
  : option FunctionTool :=
  tool_def ← ToolRegistry.get_tool_definition name;
  Some (mkFunctionTool (ToolRegistry.def_name tool_def)
                       (ToolRegistry.def_description tool_def)
                       (create_tool_fn user_id agent name)).

Definition kb_tool (user_id : Z) (agent : Agent.t) : FunctionTool :=
  mkFunctionTool "knowledge_base_search"
    "Search the knowledge base for relevant information from uploaded documents."
    (vector_search_fn user_id agent).

(** The external calls that a tool of the agent of [user_id] may make: a
    query that passed both checks of the SQL policy, a vector search on the
    user's and the agent's own ids, a look at the file of a document of the
    user, any HTTP request and any web search. *)
Definition permitted (user_id : Z) (agent : Agent.t) (st : DB) (c : Call) : Prop :=
  match c with
  | SqlExecute query =>
      PyStr.startswith (PyStr.lower (PyStr.strip query)) "select" = true ∧
      PyStr.any (λ keyword, PyStr.contains keyword (PyStr.lower query))
                ToolRegistry.dangerous = false
  | VectorSearch u a _ _ => u = VInt user_id ∧ a = VInt (Agent.id agent)
  | PathExists path | ReadFile path =>
      ∃ doc_id doc, documents st !! doc_id = Some doc ∧
                    Document.user_id doc = user_id ∧ Document.file_path doc = path
  | HttpGet _ _ | HttpPost _ _ _ | WebSearch _ _ => True
  end.

End AgentBuilder.


(* ===================================================================== *)
(** ** [app/ai/runner.py] *)
(* ===================================================================== *)

Module Runner.

(** The collaborators of one execution: the library constructors, the
    agent's reasoning loop ([await llama_agent.run(user_msg=...)], answering
    with the text of the response or raising), and the clocks.  The loop is
    code of the agent library; the tool calls it makes go through the closures
    of [AgentBuilder], which read the storage and do not write to it, and
    their effect on the run is in the answer of [llama_run]. *)
Record Env := mkEnv {
  constructors : AgentBuilder.Constructors;
  llama_run : AgentBuilder.ReActAgent → string → Exn + string;
  utcnow_started : Z;     (** [datetime.utcnow()] when the run starts *)
  utcnow_completed : Z;   (** [datetime.utcnow()] when the run ends *)
  elapsed_ms : Z;         (** [int((time.time() - start_time) * 1000)] *)
}.

(** The storage together with the local variable [step_order], which the
    handlers read after an exception. *)
Record Frame := mkFrame {
  db : DB;
  step_order : Z;
}.

Definition on_db {A} (m : ST DB A) : ST Frame A := λ fr,
  let '(st', r) := m (db fr) in (mkFrame st' (step_order fr), r).

(** [step_order += 1] *)
Definition incr_step_order : ST Frame unit :=
  st_modify (λ fr, mkFrame (db fr) (step_order fr + 1)).

Definition log_step (run_id step_order : Z) (step_type : StepType)
    (input_data output_data : option Value) (tool_name error_message : option string)
    (duration_ms : option Z) : ST DB RunStep.t := λ st,
  let step := RunStep.mk run_id step_order step_type input_data output_data
                         tool_name error_message duration_ms in
  (insert_step step st, inr step).

(** [log_step] at the current value of the local [step_order]. *)
Definition log_here (run_id : Z) (step_type : StepType)
    (input_data output_data : option Value) (error_message : option string)
    (duration_ms : option Z) : ST Frame RunStep.t :=
  fr ← st_get;
  on_db (log_step run_id (step_order fr) step_type input_data output_data
                  None error_message duration_ms).

(** The three groups of assignments to [run]. *)
Definition mark_running (now : Z) (r : Run.t) : Run.t :=
  Run.mk (Run.input_text r) (Run.output_text r) RUNNING (Run.error_message r)
         (Run.user_id r) (Run.agent_id r) (Run.conversation_id r)
         (Some now) (Run.completed_at r).

Definition mark_completed (output_text : string) (now : Z) (r : Run.t) : Run.t :=
  Run.mk (Run.input_text r) (Some output_text) COMPLETED (Run.error_message r)
         (Run.user_id r) (Run.agent_id r) (Run.conversation_id r)
         (Run.started_at r) (Some now).

Definition mark_failed (error_message : string) (now : Z) (r : Run.t) : Run.t :=
  Run.mk (Run.input_text r) (Run.output_text r) FAILED (Some error_message)
         (Run.user_id r) (Run.agent_id r) (Run.conversation_id r)
         (Run.started_at r) (Some now).

Definition newline : string := AgentBuilder.newline.

(** The last ten messages as role-labelled lines. *)
Definition history_text (history_messages : list (string * string)) : string :=
  PyStr.join (newline +:+ newline)
    (map (λ msg, PyStr.upper (fst msg) +:+ ": " +:+ snd msg)
         (PyStr.last_n 10 history_messages)).

Definition full_input (history_messages : list (string * string)) (input_text : string)
  : string :=
  match history_messages with
  | [] => input_text
  | _ => "Previous conversation:" +:+ newline +:+ history_text history_messages
           +:+ newline +:+ newline +:+ "Current query:" +:+ newline +:+ input_text
  end.

Definition loaded_note (history_messages : list (string * string)) : Value :=
  VDict [("conversation_history",
          VStr ("Loaded " +:+ pretty (length history_messages) +:+ " previous messages"))].

(** The block that loads the conversation history. *)
Definition load_history (run_id user_id : Z) (conversation_id : option Z)
  : ST Frame (list (string * string)) :=
  if truthy_id conversation_id then
    fr ← st_get;
    let history_messages :=
      ConversationService.get_conversation_history
        (db fr) (default 0 conversation_id) user_id in
    _ ← (match history_messages with
         | [] => mret ()
         | _ =>
             _ ← log_here run_id LLM_CALL (Some (loaded_note history_messages))
                          None None None;
             incr_step_order
         end);
    mret history_messages
  else mret [].

(** The body of the inner [try]. *)
Definition run_agent (E : Env) (run_id : Z) (run : option Z)
    (llama_agent : AgentBuilder.ReActAgent) (history_messages : list (string * string))
    (input_text : string) (user_id : Z) (conversation_id : option Z) : ST Frame unit :=
  output_text ← st_answer (llama_run E llama_agent (full_input history_messages input_text));
  let duration_ms := elapsed_ms E in
  _ ← (if truthy_id conversation_id then
         _ ← on_db (ConversationService.add_message (default 0 conversation_id) user_id
                      "user" input_text);
         _ ← on_db (ConversationService.add_message (default 0 conversation_id) user_id
                      "assistant" output_text);
         mret ()
       else mret ());
  _ ← log_here run_id FINAL_ANSWER None (Some (VDict [("answer", VStr output_text)]))
               None (Some duration_ms);
  _ ← on_db (assign_run run "status" (mark_completed output_text (utcnow_completed E)));
  on_db (commit_run run).

(** The handler of the inner [try]. *)
Definition on_agent_error (E : Env) (run_id : Z) (run : option Z) (agent_error : Exn)
  : ST Frame unit :=
  _ ← log_here run_id ERROR None None (Some (exn_str agent_error)) None;
  _ ← on_db (assign_run run "status"
               (mark_failed (exn_str agent_error) (utcnow_completed E)));
  on_db (commit_run run).

(** The handler of the outer [try]. *)
Definition on_fatal_error (E : Env) (run_id : Z) (e : Exn) : ST Frame unit :=
  run ← on_db (query_run run_id);
  _ ← on_db (assign_run run "status"
               (mark_failed ("Fatal error: " +:+ exn_str e) (utcnow_completed E)));
  _ ← on_db (commit_run run);
  _ ← log_here run_id ERROR None None (Some (exn_str e)) None;
  mret ().

Definition execute_run_body (E : Env) (run_id : Z) (agent : Agent.t) (input_text : string)
    (user_id : Z) (conversation_id : option Z) : ST Frame unit :=
  st_try
    (run ← on_db (query_run run_id);
     _ ← on_db (assign_run run "status" (mark_running (utcnow_started E)));
     _ ← on_db (commit_run run);
     history_messages ← load_history run_id user_id conversation_id;
     _ ← log_here run_id LLM_CALL (Some (VDict [("user_input", VStr input_text)]))
                  None None None;
     _ ← incr_step_order;
     llama_agent ← AgentBuilder.build_agent (constructors E) agent user_id;
     st_try
       (run_agent E run_id run llama_agent history_messages input_text
                  user_id conversation_id)
       (on_agent_error E run_id run))
    (on_fatal_error E run_id).

(** [execute_run], with [step_order = 0] on entry.  The result is the storage
    it leaves and the exception that escapes it, if one does. *)
Definition execute_run (E : Env) (run_id : Z) (agent : Agent.t) (input_text : string)
    (st : DB) (user_id : Z) (conversation_id : option Z) : DB * option Exn :=
  let '(fr, r) := execute_run_body E run_id agent input_text user_id conversation_id
                    (mkFrame st 0) in
  (db fr, match r with inl e => Some e | inr _ => None end).

(** *** Vocabulary of the statements about [execute_run] *)

(** The steps of a run, in the order they were recorded. *)
Definition steps_of (st : DB) (run_id : Z) : list RunStep.t :=
  filter (λ s, RunStep.run_id s = run_id) (run_steps st).

(** What [load_history] loads from a given storage. *)
Definition history_of (st : DB) (user_id : Z) (conversation_id : option Z)
  : list (string * string) :=
  if truthy_id conversation_id then
    ConversationService.get_conversation_history st (default 0 conversation_id) user_id
  else [].

(** What [build_agent] returns or raises; it does not touch the state. *)
Definition built (E : Env) (agent : Agent.t) (user_id : Z)
  : Exn + AgentBuilder.ReActAgent :=
  (AgentBuilder.build_agent (constructors E) agent user_id ()).2.

(** The three ways an execution on an existing run can go: an exception
    reaches the outer handler, an exception reaches the inner handler, or the
    inner [try] runs to its end. *)
Inductive Outcome :=
| SetupError (e : Exn)
| AgentError (e : Exn)
| Answer (output_text : string).

Definition outcome_of (E : Env) (agent : Agent.t) (input_text : string) (st : DB)
    (user_id : Z) (conversation_id : option Z) : Outcome :=
  match built E agent user_id with
  | inl e => SetupError e
  | inr llama_agent =>
      match llama_run E llama_agent
              (full_input (history_of st user_id conversation_id) input_text) with
      | inl e => AgentError e
      | inr output_text =>
          if truthy_id conversation_id then
            match ConversationService.get_conversation
                    st (default 0 conversation_id) user_id with
            | None => AgentError (HTTPException 404 "Conversation not found")
            | Some _ => Answer output_text
            end
          else Answer output_text
      end
  end.

Definition history_steps (run_id : Z) (history_messages : list (string * string))
  : list RunStep.t :=
  match history_messages with
  | [] => []
  | _ => [RunStep.mk run_id 0 LLM_CALL (Some (loaded_note history_messages))
                     None None None None]
  end.

Definition input_step (run_id k : Z) (input_text : string) : RunStep.t :=
  RunStep.mk run_id k LLM_CALL (Some (VDict [("user_input", VStr input_text)]))
             None None None None.

Definition error_step (run_id k : Z) (e : Exn) : RunStep.t :=
  RunStep.mk run_id k ERROR None None None (Some (exn_str e)) None.

Definition final_step (run_id k : Z) (output_text : string) (duration_ms : Z) : RunStep.t :=
  RunStep.mk run_id k FINAL_ANSWER None (Some (VDict [("answer", VStr output_text)]))
             None None (Some duration_ms).

(** The steps recorded before the agent is built. *)
Definition setup_steps (run_id : Z) (history_messages : list (string * string))
    (input_text : string) : list RunStep.t :=
  history_steps run_id history_messages ++
  [input_step run_id (Z.of_nat (length (history_steps run_id history_messages))) input_text].

(** The step that closes the trace. *)
Definition closing_step (E : Env) (run_id k : Z) (o : Outcome) : RunStep.t :=
  match o with
  | SetupError e | AgentError e => error_step run_id k e
  | Answer output_text => final_step run_id k output_text (elapsed_ms E)
  end.

(** The storage when the agent is about to be built. *)
Definition prepared (E : Env) (run_id : Z) (input_text : string) (st : DB)
    (user_id : Z) (conversation_id : option Z) : DB :=
  foldl (λ s x, insert_step x s)
    (commit_row run_id (update_run run_id (mark_running (utcnow_started E)) st))
    (setup_steps run_id (history_of st user_id conversation_id) input_text).

(** The conversation turns of a successful run. *)
Definition turns (conversation_id : option Z) (input_text output_text : string)
  : list Message.t :=
  if truthy_id conversation_id then
    [Message.mk (default 0 conversation_id) "user" input_text;
     Message.mk (default 0 conversation_id) "assistant" output_text]
  else [].

(** The storage an execution on an existing run leaves, as a sequence of
    writes; [execute_run_finished] below proves that it is. *)
Definition finished (E : Env) (run_id : Z) (agent : Agent.t) (input_text : string) (st : DB)
    (user_id : Z) (conversation_id : option Z) : DB :=
  let p := prepared E run_id input_text st user_id conversation_id in
  let k := Z.of_nat (length (setup_steps run_id (history_of st user_id conversation_id)
                                         input_text)) in
  match outcome_of E agent input_text st user_id conversation_id with
  | SetupError e =>
      insert_step (error_step run_id k e)
        (commit_row run_id
           (update_run run_id
              (mark_failed ("Fatal error: " +:+ exn_str e) (utcnow_completed E)) p))
  | AgentError e =>
      commit_row run_id
        (update_run run_id (mark_failed (exn_str e) (utcnow_completed E))
           (insert_step (error_step run_id k e) p))
  | Answer output_text =>
      commit_row run_id
        (update_run run_id (mark_completed output_text (utcnow_completed E))
           (insert_step (final_step run_id k output_text (elapsed_ms E))
              (foldl (λ s m, insert_message m s) p
                     (turns conversation_id input_text output_text))))
  end.

(** The row of the run when the execution ends. *)
Definition close_run (E : Env) (o : Outcome) (r : Run.t) : Run.t :=
  match o with
  | SetupError e => mark_failed ("Fatal error: " +:+ exn_str e) (utcnow_completed E) r
  | AgentError e => mark_failed (exn_str e) (utcnow_completed E) r
  | Answer output_text => mark_completed output_text (utcnow_completed E) r
  end.

(** The step that notes that [n] messages of history were loaded. *)
Definition history_note (run_id : Z) (n : nat) : RunStep.t :=
  RunStep.mk run_id 0 LLM_CALL
    (Some (VDict [("conversation_history",
                   VStr ("Loaded " +:+ pretty n +:+ " previous messages"))]))
    None None None None.

(** A step that notes how much conversation history was loaded. *)
Definition is_history_note (s : RunStep.t) : bool :=
  match RunStep.input_data s with
  | Some (VDict [(k, VStr _)]) => String.eqb k "conversation_history"
  | _ => false
  end.

(** A step that records the raw task input. *)
Definition is_input_step (s : RunStep.t) : bool :=
  match RunStep.input_data s with
  | Some (VDict [(k, VStr _)]) => String.eqb k "user_input"
  | _ => false
  end.

(** The row of a run that the commits have made durable: the row of the
    last commit of the run, unless the run was deleted since. *)
Definition committed_run (st : DB) (run_id : Z) : option Run.t :=
  foldl (λ row c,
           match c with
           | CommitRun i r => if decide (i = run_id) then Some r else row
           | CommitDelete i => if decide (i = run_id) then None else row
           | _ => row
           end)
        None (commits st).

End Runner.

(* ===================================================================== *)
(** ** [app/services/run_service.py] *)
(* ===================================================================== *)

(** [RunCreate] of [app/schemas/run.py] *)
Module RunCreate.
Record t := mk {
  agent_id : Z;
  input_text : string;
  conversation_id : option Z;
}.
End RunCreate.

Module RunService.

(** [db.query(Agent).filter(Agent.id == agent_id,
                            Agent.user_id == user_id).first()] *)
Definition query_agent_of_user (st : DB) (agent_id user_id : Z) : option Agent.t :=
  match agents st !! agent_id with
  | Some agent => if decide (Agent.user_id agent = user_id) then Some agent else None
  | None => None
  end.

(** The foreign key of [runs.conversation_id]: a run that names a
    conversation can be committed only if the conversation exists. *)
Definition conversation_exists (st : DB) (conversation_id : option Z) : bool :=
  match conversation_id with
  | Some c => bool_decide (is_Some (conversations st !! c))
  | None => true
  end.

(** The [IntegrityError] that [db.commit()] raises on a violated foreign
    key.  Its text is the database driver's; [str(e)] here stands for it. *)
Definition integrity_error : Exn := Exception "IntegrityError".

(** [create_run]; [new_id] is the primary key that the storage assigns to the
    new row.  The check of the conversation is skipped for the id 0, which
    [if run_data.conversation_id:] takes for no conversation; the commit then
    meets the foreign key, and the transaction is rolled back. *)
Definition create_run (new_id : Z) (run_data : RunCreate.t) (user_id : Z) : ST DB Z := λ st,
  match query_agent_of_user st (RunCreate.agent_id run_data) user_id with
  | None =>
      (st, inl (ValueError ("Agent " +:+ pretty (RunCreate.agent_id run_data)
                              +:+ " not found")))
  | Some _ =>
      let conversation_missing :=
        if truthy_id (RunCreate.conversation_id run_data) then
          match ConversationService.get_conversation
                  st (default 0 (RunCreate.conversation_id run_data)) user_id with
          | Some _ => false
          | None => true
          end
        else false in
      if conversation_missing then
        (st, inl (ValueError ("Conversation "
                                +:+ pretty (default 0 (RunCreate.conversation_id run_data))
                                +:+ " not found")))
      else
        let run := Run.mk (RunCreate.input_text run_data) None PENDING None user_id
                          (RunCreate.agent_id run_data)
                          (RunCreate.conversation_id run_data) None None in
        if conversation_exists st (RunCreate.conversation_id run_data) then
          (commit_row new_id (with_runs (insert new_id run) st), inr new_id)
        else (st, inl integrity_error)
  end.

(** [get_run] *)
Definition get_run (st : DB) (run_id user_id : Z) : option Run.t :=
  match runs st !! run_id with
  | Some run => if decide (Run.user_id run = user_id) then Some run else None
  | None => None
  end.

(** [delete_run]; the steps of the run go with it (cascade). *)
Definition delete_run (run_id user_id : Z) : ST DB bool := λ st,
  match get_run st run_id user_id with
  | None => (st, inr false)
  | Some _ =>
      (with_commits (λ l, l ++ [CommitDelete run_id])
         (with_run_steps (filter (λ s, RunStep.run_id s ≠ run_id))
            (with_runs (delete run_id) st)),
       inr true)
  end.

(** The assignments of the missing-agent branch: no timestamp is set. *)
Definition mark_agent_missing (r : Run.t) : Run.t :=
  Run.mk (Run.input_text r) (Run.output_text r) FAILED (Some "Agent not found")
         (Run.user_id r) (Run.agent_id r) (Run.conversation_id r)
         (Run.started_at r) (Run.completed_at r).

Definition execute_run_async (E : Runner.Env) (run_id : Z) (st : DB) : DB * option Exn :=
  match runs st !! run_id with
  | None => (st, None)
  | Some run =>
      match agents st !! Run.agent_id run with
      | None =>
          let '(st', r) :=
            (_ ← assign_run (Some run_id) "status" mark_agent_missing;
             commit_run (Some run_id)) st in
          (st', match r with inl e => Some e | inr _ => None end)
      | Some agent =>
          Runner.execute_run E run_id agent (Run.input_text run) st
                             (Run.user_id run) (Run.conversation_id run)
      end
  end.

End RunService.

(* ===================================================================== *)
(** ** [app/api/v1/runs.py] *)
(* ===================================================================== *)

Module RunsApi.

(** [POST /runs].  The answer is the key of the created run and the tasks
    handed to [background_tasks]: the runs that [start_run_execution] is to
    start. *)
Definition create_run (new_id : Z) (run_data : RunCreate.t) (current_user : Z)
  : ST DB (Z * list Z) :=
  st_try
    (run ← RunService.create_run new_id run_data current_user;
     mret (run, [run]))
    (λ e, match e with
          | ValueError _ => st_raise (HTTPException 400 (exn_str e))
          | _ => st_raise (HTTPException 500 (exn_str e))
          end).

(** [GET /runs/{run_id}] *)
Definition get_run (run_id current_user : Z) : ST DB Run.t := λ st,
  match RunService.get_run st run_id current_user with
  | None => (st, inl (HTTPException 404 "Run not found"))
  | Some run => (st, inr run)
  end.

(** [run.steps] in the answer of [GET /runs/{run_id}]: the steps of the run
    ordered by [step_order], as the relationship declares; steps with equal
    [step_order] come in an order that the storage chooses. *)
Definition timeline (st : DB) (run_id : Z) (steps : list RunStep.t) : Prop :=
  steps ≡ₚ Runner.steps_of st run_id ∧
  Sorted (λ a b, RunStep.step_order a ≤ RunStep.step_order b) steps.

(** [DELETE /runs/{run_id}] *)
Definition delete_run (run_id current_user : Z) : ST DB unit :=
  deleted ← RunService.delete_run run_id current_user;
  if negb deleted then st_raise (HTTPException 404 "Run not found") else mret ().

(** The task that [start_run_execution] starts for a run. *)
Definition background_task (E : Runner.Env) (run_id : Z) (st : DB) : DB :=
  (RunService.execute_run_async E run_id st).1.

End RunsApi.

(* ===================================================================== *)
(** ** Sequences of service calls *)
(* ===================================================================== *)

Module Service.

(** A call of one of the service functions that write to the tables of the
    run pipeline. *)
Inductive Call :=
| CreateRun (new_id : Z) (run_data : RunCreate.t) (user_id : Z)
| ExecuteRunAsync (E : Runner.Env) (run_id : Z)
| DeleteRun (run_id user_id : Z)
| AddMessage (conversation_id user_id : Z) (role content : string)
| UpdateConversation (conversation_id user_id : Z) (title : option string)
| DeleteConversation (conversation_id user_id : Z).

(** The storage after the call, whether it returned or raised. *)
Definition after (call : Call) (st : DB) : DB :=
  match call with
  | CreateRun new_id run_data user_id =>
      (RunService.create_run new_id run_data user_id st).1
  | ExecuteRunAsync E run_id => (RunService.execute_run_async E run_id st).1
  | DeleteRun run_id user_id => (RunService.delete_run run_id user_id st).1
  | AddMessage conversation_id user_id role content =>
      (ConversationService.add_message conversation_id user_id role content st).1
  | UpdateConversation conversation_id user_id title =>
      (ConversationService.update_conversation conversation_id user_id title st).1
  | DeleteConversation conversation_id user_id =>
      (ConversationService.delete_conversation conversation_id user_id st).1
  end.

Definition after_all (calls : list Call) (st : DB) : DB :=
  foldl (λ st call, after call st) st calls.

(** Every run that is attached to a conversation (by a non-zero id) is
    attached to a conversation that exists and belongs to the user of the
    run. *)
Definition attached_conversations_exist (st : DB) : Prop :=
  ∀ run_id run c,
    runs st !! run_id = Some run →
    Run.conversation_id run = Some c →
    c ≠ 0 →
    ∃ conversation,
      conversations st !! c = Some conversation ∧
      Conversation.user_id conversation = Run.user_id run.

(** Every run that names a conversation names one that exists and belongs
    to the user of the run. *)
Definition conversation_links_hold (st : DB) : Prop :=
  ∀ run_id run c,
    runs st !! run_id = Some run →
    Run.conversation_id run = Some c →
    ∃ conversation,
      conversations st !! c = Some conversation ∧
      Conversation.user_id conversation = Run.user_id run.

(** The keys of [conversations] are assigned from 1: no conversation has the
    key 0. *)
Definition conversation_keys_positive (st : DB) : Prop := conversations st !! 0 = None.

End Service.

(* ===================================================================== *)
(** ** [app/api/v1/streaming.py] *)
(* ===================================================================== *)

Module Streaming.

(** One server-sent event, by kind and payload; the text framing of the
    events on the wire is not part of the model. *)
Inductive Event :=
| status_event (status : RunStatus) (message : string)
| heartbeat_event (poll_count : Z)
| complete_event (output : option string)
| error_event (error : option string)
| timeout_event (message : string).

(** [run.status.value] *)
Definition status_value (s : RunStatus) : string :=
  match s with
  | PENDING => "pending"
  | RUNNING => "running"
  | COMPLETED => "completed"
  | FAILED => "failed"
  end.

Definition max_polls : Z := 120.

(** The [while poll_count < max_polls] loop.  [refresh n] is what
    [db.refresh(run)] reads on the [n]-th poll, or the exception it raises.
    The result is the events yielded, and the value of [poll_count] when the
    loop is left or the exception that left it.  [fuel] bounds the
    iterations; [max_polls - poll_count] of it is enough. *)
Fixpoint poll_loop (refresh : Z → Exn + Run.t) (fuel : nat) (poll_count : Z)
    (last_status : RunStatus) : list Event * (Exn + Z) :=
  match fuel with
  | O => ([], inr poll_count)
  | S fuel' =>
      if poll_count <? max_polls then
        let poll_count := poll_count + 1 in
        match refresh poll_count with
        | inl e => ([], inl e)
        | inr run =>
            let changed :=
              if decide (Run.status run ≠ last_status) then
                [status_event (Run.status run)
                              ("Status: " +:+ status_value (Run.status run))]
              else [] in
            let last_status := Run.status run in
            if decide (Run.status run = COMPLETED) then
              (changed ++ [complete_event (Run.output_text run)], inr poll_count)
            else if decide (Run.status run = FAILED) then
              (changed ++ [error_event (Run.error_message run)], inr poll_count)
            else
              let heartbeat :=
                if poll_count mod 10 =? 0 then [heartbeat_event poll_count] else [] in
              let '(events, r) := poll_loop refresh fuel' poll_count last_status in
              (changed ++ heartbeat ++ events, r)
        end
      else ([], inr poll_count)
  end.

(** [db.query(Run).filter(Run.id == run_id, Run.user_id == user_id).first()] *)
Definition query_run_of_user (st : DB) (run_id user_id : Z) : option Run.t :=
  match runs st !! run_id with
  | Some run => if decide (Run.user_id run = user_id) then Some run else None
  | None => None
  end.

(** The events the generator yields when it is read to its end. *)
Definition stream_run_execution (refresh : Z → Exn + Run.t) (run_id : Z) (st : DB)
    (user_id : Z) : list Event :=
  match query_run_of_user st run_id user_id with
  | None => [error_event (Some "Run not found")]
  | Some run =>
      let '(events, r) :=
        poll_loop refresh (Z.to_nat max_polls) 0 (Run.status run) in
      status_event (Run.status run) "Starting..." :: events ++
        match r with
        | inl e => [error_event (Some (exn_str e))]
        | inr poll_count =>
            if max_polls <=? poll_count then [timeout_event "Run execution timeout"]
            else []
        end
  end.

(** *** Vocabulary of the statements about the stream *)

Definition is_terminal (s : RunStatus) : bool :=
  match s with
  | COMPLETED | FAILED => true
  | PENDING | RUNNING => false
  end.

(** Every poll after [a] up to [b] reads the run, in a state that is not
    terminal. *)
Definition quiet (refresh : Z → Exn + Run.t) (a b : Z) : Prop :=
  ∀ n, a < n ≤ b → ∃ run, refresh n = inr run ∧ is_terminal (Run.status run) = false.

(** The event that reports a terminal state. *)
Definition terminal_event (run : Run.t) : Event :=
  if decide (Run.status run = COMPLETED) then complete_event (Run.output_text run)
  else error_event (Run.error_message run).

(** The events that do not close the stream. *)
Definition is_progress (e : Event) : bool :=
  match e with
  | status_event _ _ | heartbeat_event _ => true
  | complete_event _ | error_event _ | timeout_event _ => false
  end.

End Streaming.


(* ===================================================================== *)
(** ** [app/ai/tools/web_search.py] *)
(* ===================================================================== *)

Module WebSearchTool.

(** The search client of the [duckduckgo_search] library, whose constructor
    and whose [text] method may raise and whose results are dictionaries from
    strings to strings; and [str(v)] on a value that is not a string. *)
Record Client := mkClient {
  DDGS_init : option Exn;
  ddgs_text : Value → Value → Exn + list (gmap string string);
  str_value : Value → string;
}.

(** [{v}] in an f-string *)
Definition format (c : Client) (v : Value) : string :=
  match v with
  | VStr s => s
  | _ => str_value c v
  end.

Definition newline : string := AgentBuilder.newline.

(** The lines of result number [i]. *)
Definition format_result (i : nat) (result : gmap string string) : string :=
  pretty i +:+ ". " +:+ default "No title" (result !! "title") +:+ newline
  +:+ "   " +:+ default "No description" (result !! "body") +:+ newline
  +:+ "   Source: " +:+ default "No link" (result !! "link") +:+ newline.

Definition web_search (c : Client) (query max_results : Value) : Res string :=
  res_try
    (_ ← (match DDGS_init c with Some e => inl e | None => inr () end : Res unit);
     results ← (ddgs_text c query max_results : Res _);
     match results with
     | [] => mret ("No results found for: " +:+ format c query)
     | _ =>
         let formatted_results :=
           ("Web search results for: " +:+ format c query +:+ newline)
           :: imap (λ i result, format_result (S i) result) results in
         mret (PyStr.join newline formatted_results)
     end)
    (λ e, mret ("Web search failed: " +:+ exn_str e)).

(** The world in which [web_search_handler] calls this [web_search]. *)
Definition installed (c : Client) (w : World) : World :=
  mkWorld (qdrant_search w) (py_round3 w) (db_execute w) (db_coerce_int w)
          (httpx_get w) (httpx_post w) (path_exists w) (read_text w)
          (web_search c).

End WebSearchTool.

(* ===================================================================== *)
(** ** [app/ai/openai_client.py] *)
(* ===================================================================== *)

Module OpenAIClient.

Definition Embedding : Type := list Q.

(** [client.embeddings.create(model=model, input=batch)], read as the list
    [[item.embedding for item in response.data]]. *)
Record Client := mkClient {
  embeddings_create : string → list Value → Exn + list Embedding;
}.

Definition batch_size : nat := 100.

Definition default_model : string := "text-embedding-3-small".

(** [range(0, stop, step)] for a positive [step] *)
Definition range_step (stop step : nat) : list nat :=
  map (λ k, k * step)%nat (seq 0 ((stop + step - 1) `div` step)%nat).

(** [l[i:j]] for [0 <= i <= j] *)
Definition slice {A} (i j : nat) (l : list A) : list A := take (j - i) (drop i l).

(** The loop over the batches; [starts] are the values of [i] still to come. *)
Fixpoint embed_batches (c : Client) (model : string) (texts : list Value)
    (starts : list nat) (all_embeddings : list Embedding) : Res (list Embedding) :=
  match starts with
  | [] => mret all_embeddings
  | i :: starts =>
      let batch := slice i (i + batch_size) texts in
      embeddings ← (embeddings_create c model batch : Res _);
      embed_batches c model texts starts (all_embeddings ++ embeddings)
  end.

Definition get_embeddings (c : Client) (texts : list Value) (model : string)
  : Res (list Embedding) :=
  res_try
    (embed_batches c model texts (range_step (length texts) batch_size) [])
    (λ e, inl (Exception ("OpenAI embeddings failed: " +:+ exn_str e))).

End OpenAIClient.

(* ===================================================================== *)
(** ** [app/ai/vectorstore_qdrant.py] *)
(* ===================================================================== *)

Module Vectorstore.

(** A point that a search returns; its payload may be absent. *)
Record ScoredPoint := mkScoredPoint {
  payload : option (gmap string Value);
  score : Q;
}.

(** A point to store. *)
Record PointStruct := mkPointStruct {
  point_id : Z;
  vector : OpenAIClient.Embedding;
  point_payload : gmap string Value;
}.

(** A [Filter(must=[FieldCondition(key, match=MatchValue(value)), ...])]. *)
Definition Filter : Type := list (string * Value).

(** The Qdrant client. *)
Record Qdrant := mkQdrant {
  client_search : string → OpenAIClient.Embedding → Filter → Value → Exn + list ScoredPoint;
  client_upsert : string → list PointStruct → option Exn;
  client_delete : string → Filter → option Exn;
}.

Definition COLLECTION_NAME : string := "documents".

(** One formatted result of [search]: the dictionary with the keys [text],
    [score], [doc_id] and [chunk_index]. *)
Record Found := mkFound {
  text : Value;
  found_score : Q;
  doc_id : Value;
  chunk_index : Value;
}.

(** The loop that formats the results; [result.payload.get] raises on a
    point without payload. *)
Fixpoint format_results (results : list ScoredPoint) : Res (list Found) :=
  match results with
  | [] => mret []
  | result :: results =>
      p ← (match payload result with
           | Some p => inr p
           | None => inl (AttributeError "NoneType" "get")
           end : Res _);
      let formatted :=
        mkFound (default (VStr "") (p !! "text")) (score result)
                (default VNone (p !! "doc_id")) (default VNone (p !! "chunk_index")) in
      formatted_results ← format_results results;
      mret (formatted :: formatted_results)
  end.

(** The filter of [search]. *)
Definition search_filter (user_id agent_id : Value) : Filter :=
  [("user_id", user_id); ("agent_id", agent_id)].

(** [search]; the [IndexError] of [[0]] on an empty list is carried as an
    [Exception] with its text, the only thing the handler reads. *)
Definition search (oc : OpenAIClient.Client) (qd : Qdrant)
    (user_id agent_id query top_k : Value) : Res (list Found) :=
  res_try
    (embeddings ← OpenAIClient.get_embeddings oc [query] OpenAIClient.default_model;
     query_embedding ← (match embeddings with
                        | e :: _ => inr e
                        | [] => inl (Exception "list index out of range")
                        end : Res _);
     results ← (client_search qd COLLECTION_NAME query_embedding
                              (search_filter user_id agent_id) top_k : Res _);
     format_results results)
    (λ e, inl (Exception ("Qdrant search failed: " +:+ exn_str e))).

(** The points that [add_documents] builds from
    [enumerate(zip(chunk_ids, chunks, embeddings))]. *)
Definition points_of (user_id : Z) (agent_id : option Z) (doc_id : Z)
    (chunk_ids : list Z) (chunks : list string) (embeddings : list OpenAIClient.Embedding)
  : list PointStruct :=
  imap (λ idx item,
          let '(chunk_id, (chunk_text, embedding)) := item in
          mkPointStruct chunk_id embedding
            {[ "user_id" := VInt user_id;
               "agent_id" := ToolRegistry.opt_int agent_id;
               "doc_id" := VInt doc_id;
               "chunk_index" := VInt (Z.of_nat idx);
               "text" := VStr chunk_text ]})
       (zip chunk_ids (zip chunks embeddings)).

Definition add_documents (oc : OpenAIClient.Client) (qd : Qdrant)
    (user_id : Z) (agent_id : option Z) (doc_id : Z)
    (chunks : list string) (chunk_ids : list Z) : Res Z :=
  res_try
    (embeddings ← OpenAIClient.get_embeddings oc (map VStr chunks)
                                              OpenAIClient.default_model;
     let points := points_of user_id agent_id doc_id chunk_ids chunks embeddings in
     _ ← (match client_upsert qd COLLECTION_NAME points with
          | Some e => inl e
          | None => inr ()
          end : Res unit);
     mret (Z.of_nat (length points)))
    (λ e, inl (Exception ("Failed to add documents to Qdrant: " +:+ exn_str e))).

(** The filter of [delete_document]. *)
Definition document_filter (user_id : Z) (agent_id : option Z) (doc_id : Z) : Filter :=
  [("user_id", VInt user_id); ("agent_id", ToolRegistry.opt_int agent_id);
   ("doc_id", VInt doc_id)].

Definition delete_document (qd : Qdrant) (user_id : Z) (agent_id : option Z) (doc_id : Z)
  : Res unit :=
  res_try
    (match client_delete qd COLLECTION_NAME (document_filter user_id agent_id doc_id) with
     | Some e => inl e
     | None => inr ()
     end)
    (λ e, inl (Exception ("Failed to delete document from Qdrant: " +:+ exn_str e))).

(** A stored payload satisfies a filter when it has every key of the filter
    with the value of the filter. *)
Definition satisfies (p : gmap string Value) (f : Filter) : Prop :=
  Forall (λ condition, p !! condition.1 = Some condition.2) f.

(** What [vector_search_handler] and [vector_search_fn] read of a result:
    [r["text"]] and [r["score"]]. *)
Definition as_hit (r : Found) : Hit := mkHit (text r) (found_score r).

(** The text of a value that is a string. *)
Definition text_string (v : Value) : string :=
  match v with
  | VStr s => s
  | _ => EmptyString
  end.

(** The world in which the tools call this [search]. *)
Definition installed (oc : OpenAIClient.Client) (qd : Qdrant) (w : World) : World :=
  mkWorld (λ user_id agent_id query top_k,
             match search oc qd user_id agent_id query top_k with
             | inl e => inl e
             | inr results => inr (map as_hit results)
             end)
          (py_round3 w) (db_execute w) (db_coerce_int w)
          (httpx_get w) (httpx_post w) (path_exists w) (read_text w)
          (ddg_web_search w).

End Vectorstore.

(* ===================================================================== *)
(** ** [app/services/document_service.py] *)
(* ===================================================================== *)

Module DocumentService.

(** *** Chunking *)

(** [if current_chunk: chunks.append(current_chunk.strip())] *)
Definition flush (chunks : list string) (current_chunk : string) : list string :=
  match current_chunk with
  | EmptyString => chunks
  | _ => chunks ++ [PyStr.strip current_chunk]
  end.

(** The body of the loop over the sentences of a long paragraph. *)
Definition add_sentence (max_chars : Z) (state : list string * string) (sentence : string)
  : list string * string :=
  let '(chunks, current_chunk) := state in
  if PyStr.len current_chunk + PyStr.len sentence <=? max_chars then
    (chunks, current_chunk +:+ sentence +:+ ". ")
  else
    (flush chunks current_chunk, sentence +:+ ". ").

(** The body of the loop over the paragraphs. *)
Definition add_paragraph (max_chars : Z) (chunks : list string) (para : string)
  : list string :=
  if PyStr.len para <=? max_chars then
    chunks ++ [PyStr.strip para]
  else
    let sentences := PyStr.split ". " para in
    let '(chunks, current_chunk) :=
      foldl (add_sentence max_chars) (chunks, EmptyString) sentences in
    flush chunks current_chunk.

Definition _chunk_text (text : string) (max_chars : Z) : list string :=
  let paragraphs := PyStr.split (AgentBuilder.newline +:+ AgentBuilder.newline) text in
  let chunks := foldl (add_paragraph max_chars) [] paragraphs in
  filter (λ c, c ≠ EmptyString) chunks.

(** *** Vocabulary of the statements about the chunks *)

(** The chunk is what [strip] left of some text. *)
Definition stripped (c : string) : Prop := ∃ x, c = PyStr.strip x.

(** The chunk under construction is empty or ends a sentence that fits. *)
Definition fits (max_chars : Z) (current_chunk : string) : Prop :=
  current_chunk = EmptyString ∨
  ∃ x, current_chunk = x +:+ ". " ∧ PyStr.len x ≤ max_chars.

(** The list of chunks has a chunk that is not empty. *)
Definition has_chunk (chunks : list string) : Prop :=
  ∃ c, c ∈ chunks ∧ c ≠ EmptyString.

(** *** Processing *)

(** [[document.id * 10000 + i for i in range(n)]] *)
Definition chunk_ids (document_id : Z) (n : nat) : list Z :=
  map (λ i, document_id * 10000 + Z.of_nat i) (seq 0 n).

(** The text extractors, the plain read of a file, and
    [os.path.splitext(path)[1]]. *)
Record Parsers := mkParsers {
  splitext_ext : string → string;
  extract_text_from_pdf : string → Exn + string;
  extract_text_from_docx : string → Exn + string;
  extract_text_from_excel : string → Exn + string;
  extract_text_from_csv : string → Exn + string;
  extract_text_from_image : string → Exn + string;
  read_utf8 : string → Exn + string;
}.

(** A row of [documents] with the two columns that processing writes beside
    [processed]. *)
Record Row := mkRow {
  document : Document.t;
  chunk_count : Z;
  error_message : option string;
}.

Definition set_processed (processed : bool) (d : Document.t) : Document.t :=
  Document.mk (Document.filename d) (Document.file_path d) (Document.file_size d)
              processed (Document.user_id d) (Document.agent_id d).

(** The dispatch on the file extension. *)
Definition extract (P : Parsers) (file_path : string) : Res string :=
  let file_ext := PyStr.lower (splitext_ext P file_path) in
  if String.eqb file_ext ".pdf" then extract_text_from_pdf P file_path
  else if String.eqb file_ext ".docx" then extract_text_from_docx P file_path
  else if bool_decide (file_ext ∈ [".xlsx"; ".xls"]) then extract_text_from_excel P file_path
  else if String.eqb file_ext ".csv" then extract_text_from_csv P file_path
  else if bool_decide (file_ext ∈ [".jpg"; ".jpeg"; ".png"; ".tiff"; ".bmp"; ".gif"]) then
    extract_text_from_image P file_path
  else read_utf8 P file_path.

(** The body of the [try] of [_process_document]: the chunks it indexed. *)
Definition index_document (P : Parsers) (oc : OpenAIClient.Client) (qd : Vectorstore.Qdrant)
    (document_id : Z) (d : Document.t) (user_id : Z) : Res (list string) :=
  content ← extract P (Document.file_path d);
  _ ← (match PyStr.strip content with
       | EmptyString =>
           inl (ValueError ("No text content extracted from " +:+ Document.filename d))
       | _ => inr ()
       end : Res unit);
  let chunks := _chunk_text content 1000 in
  let chunk_ids := chunk_ids document_id (length chunks) in
  _ ← Vectorstore.add_documents oc qd user_id (Document.agent_id d) document_id
                                chunks chunk_ids;
  mret chunks.

Definition _process_document (P : Parsers) (oc : OpenAIClient.Client)
    (qd : Vectorstore.Qdrant) (document_id : Z) (user_id : Z) : ST Row unit :=
  st_try
    (row ← st_get;
     chunks ← st_answer (index_document P oc qd document_id (document row) user_id);
     st_modify (λ row, mkRow (set_processed true (document row))
                             (Z.of_nat (length chunks)) (error_message row)))
    (λ e,
       _ ← st_modify (λ row, mkRow (set_processed false (document row))
                                   (chunk_count row) (Some (exn_str e)));
       st_raise e).

End DocumentService.

(* ===================================================================== *)
(** ** Concrete collaborators and storages *)
(* ===================================================================== *)

Module Sample.

(** A world where every collaborator answers. *)
Definition world : World := {|
  qdrant_search := λ _ _ _ _, inr [mkHit (VStr "chunk") (1 # 2)];
  py_round3 := λ q, q;
  db_execute := λ _, inr [[("n", VInt 1)]];
  db_coerce_int := λ _, inl (Exception "invalid input syntax for type integer");
  httpx_get := λ _ _, inr (mkResponse 200 None "ok");
  httpx_post := λ _ _ _, inr (mkResponse 200 None "ok");
  path_exists := λ _, true;
  read_text := λ _, inr "contents";
  ddg_web_search := λ _ _, inr "results";
|}.

(** A world whose SQL engine rejects every statement and whose network is
    down. *)
Definition broken_world : World := {|
  qdrant_search := λ _ _ _ _, inl (Exception "Qdrant search failed: connection refused");
  py_round3 := λ q, q;
  db_execute := λ _, inl (Exception "relation does not exist");
  db_coerce_int := λ _, inl (Exception "invalid input syntax for type integer");
  httpx_get := λ _ _, inl (Exception "connection refused");
  httpx_post := λ _ _ _, inl (Exception "connection refused");
  path_exists := λ _, false;
  read_text := λ _, inl (Exception "No such file or directory");
  ddg_web_search := λ _ _, inl (Exception "timeout");
|}.

Definition sql_kwargs (query : string) : gmap string Value :=
  {[ "db" := VSession; "query" := VStr query ]}.

Definition fetch_kwargs (user_id doc_id : Z) : gmap string Value :=
  {[ "db" := VSession; "user_id" := VInt user_id; "doc_id" := VInt doc_id ]}.

Definition constructors_ok : AgentBuilder.Constructors :=
  AgentBuilder.mkConstructors None (λ _, None) None.

(** The agent answers ["4"]. *)
Definition env : Runner.Env :=
  Runner.mkEnv constructors_ok (λ _ _, inr "4") 100 200 37.

(** The LLM transport fails. *)
Definition env_llm_down : Runner.Env :=
  Runner.mkEnv constructors_ok (λ _ _, inl (Exception "LLM transport error")) 100 200 37.

Definition agent : Agent.t :=
  Agent.mk 1 "helper" None "You are helpful." false 7 [Tool.mk "sql_query" "SQL" true].

(** The tool that [build_agent] makes for the agent's [sql_query]. *)
Definition sql_tool : AgentBuilder.FunctionTool :=
  AgentBuilder.mkFunctionTool "sql_query"
    "Execute a read-only SQL query on the PostgreSQL database. Only SELECT statements are allowed. Use this to retrieve structured data."
    (AgentBuilder.create_tool_fn 7 agent "sql_query").

Definition pending_run (conversation_id : option Z) : Run.t :=
  Run.mk "What is 2+2?" None PENDING None 7 1 conversation_id None None.

Definition document : Document.t :=
  Document.mk "notes.txt" "/data/notes.txt" (Some 12) true 8 None.

(** One pending run of user 7 by agent 1, no conversation. *)
Definition storage : DB :=
  mkDB {[ 1 := pending_run None ]} {[ 1 := agent ]} ∅ [] [] {[ 3 := document ]} [].

(** The run is attached to conversation 5 of user 7, which has one message. *)
Definition storage_with_history : DB :=
  mkDB {[ 1 := pending_run (Some 5) ]} {[ 1 := agent ]}
       {[ 5 := Conversation.mk 1 7 None ]} [Message.mk 5 "user" "hi"] [] ∅ [].

(** The run is attached to conversation 5 of user 7, which has no message. *)
Definition storage_empty_conversation : DB :=
  mkDB {[ 1 := pending_run (Some 5) ]} {[ 1 := agent ]}
       {[ 5 := Conversation.mk 1 7 None ]} [] [] ∅ [].

(** The run is attached to conversation 5, which does not exist. *)
Definition storage_conversation_gone : DB :=
  mkDB {[ 1 := pending_run (Some 5) ]} {[ 1 := agent ]} ∅ [] [] ∅ [].

(** The run refers to agent 1, which does not exist. *)
Definition storage_agent_gone : DB :=
  mkDB {[ 1 := pending_run None ]} ∅ ∅ [] [] ∅ [].

(** What [db.refresh(run)] reads: RUNNING before poll [k], COMPLETED from
    poll [k] on. *)
Definition completes_at (k : Z) (n : Z) : Exn + Run.t :=
  if n <? k then inr (Runner.mark_running 100 (pending_run None))
  else inr (Runner.mark_completed "4" 200 (Runner.mark_running 100 (pending_run None))).

End Sample.

Module Fixture.

(** An agent of user 7 with the knowledge base, a tool row that is disabled,
    a tool row whose name the registry does not define, and one more tool. *)
Definition librarian : Agent.t :=
  Agent.mk 2 "librarian" (Some "") "Answer from the documents." true 7
    [Tool.mk "file_fetch" "Files" false;
     Tool.mk "calculator" "Sums" true;
     Tool.mk "vector_search" "Search" true].

(** The agent that [build_agent] makes of [Sample.agent] for user 7. *)
Definition helper : AgentBuilder.ReActAgent :=
  AgentBuilder.mkReActAgent "helper" "AI Agent" [Sample.sql_tool] "You are helpful.".

(** A search client whose request fails. *)
Definition ddgs_down : WebSearchTool.Client :=
  WebSearchTool.mkClient None (λ _ _, inl (Exception "rate limited")) (λ _, "?").

(** An embedding model that fails, and one that answers every text with the
    same vector. *)
Definition openai_down : OpenAIClient.Client :=
  OpenAIClient.mkClient (λ _ _, inl (Exception "invalid api key")).

Definition openai_up : OpenAIClient.Client :=
  OpenAIClient.mkClient (λ _ batch, inr (map (λ _, [1 # 1]) batch)).

(** A vector store with one point, which has no text. *)
Definition qdrant_up : Vectorstore.Qdrant :=
  Vectorstore.mkQdrant
    (λ _ _ _ _, inr [Vectorstore.mkScoredPoint (Some {[ "doc_id" := VInt 3 ]}) (1 # 2)])
    (λ _ _, None) (λ _ _, None).

(** Ten messages of history, and one older message. *)
Definition recent : list (string * string) :=
  [("user", "1"); ("assistant", "2"); ("user", "3"); ("assistant", "4"); ("user", "5");
   ("assistant", "6"); ("user", "7"); ("assistant", "8"); ("user", "9"); ("assistant", "10")].

Definition older : list (string * string) := [("user", "0")].

(** The request for a run of agent 1 without a conversation. *)
Definition run_data : RunCreate.t := RunCreate.mk 1 "What is 2+2?" None.

(** What [db.refresh(run)] reads while the run never leaves RUNNING. *)
Definition always_running (n : Z) : Exn + Run.t :=
  inr (Runner.mark_running 100 (Sample.pending_run None)).

(** The trace of the run of [Sample.storage] after its execution. *)
Definition trace : list RunStep.t :=
  [Runner.input_step 1 0 "What is 2+2?"; Runner.final_step 1 1 "4" 37].

(** The storage with a conversation after one more message, and the run
    that [create_run] adds to [Sample.storage] for [run_data]. *)
Definition chatted : DB :=
  Service.after_all [Service.AddMessage 5 7 "user" "more"] Sample.storage_with_history.

Definition created : DB := (RunService.create_run 2 run_data 7 Sample.storage).1.

(** The run of [Sample.completes_at] once it is completed. *)
Definition completed_run : Run.t :=
  Runner.mark_completed "4" 200 (Runner.mark_running 100 (Sample.pending_run None)).

End Fixture.

(* ===================================================================== *)
(** * Properties *)
(* ===================================================================== *)

(** ** The effect monads *)

Lemma Eff_ret_bind {A B} (x : A) (f : A → Eff B) : (mret x ≫= f) = f x.
Proof. unfold mbind, Eff_bind, mret, Eff_ret. by destruct (f x). Qed.

Lemma try_catch_returns {A} (body : Eff A) (g : Exn → A) :
  ∃ v, outcome (try_catch body (λ e, mret (g e))) = inr v.
Proof. destruct body as [t [e|a]]; cbn; eauto. Qed.

(** ** Python strings: trimming and containment *)

Section PythonStrings.
Import PyStr.

Lemma append_cons c a b : String c a +:+ b = String c (a +:+ b).
Proof. reflexivity. Qed.

Lemma append_nil_r a : a +:+ "" = a.
Proof. induction a as [|c a IH]; [done|]. by rewrite append_cons, IH. Qed.

Lemma append_assoc a b c : (a +:+ b) +:+ c = a +:+ b +:+ c.
Proof. induction a as [|x a IH]; [done|]. by rewrite !append_cons, IH. Qed.

Lemma append_empty a b : a +:+ b = "" → a = "" ∧ b = "".
Proof. destruct a; [done|]. by rewrite append_cons. Qed.

(** *** Characters *)

Lemma unchars_cons ch l : unchars (ch :: l) = ch +:+ unchars l.
Proof. reflexivity. Qed.

Lemma unchars_app l1 l2 : unchars (l1 ++ l2) = unchars l1 +:+ unchars l2.
Proof.
  induction l1 as [|ch l1 IH]; [done|].
  change ((ch :: l1) ++ l2) with (ch :: (l1 ++ l2)). by rewrite !unchars_cons, IH, append_assoc.
Qed.

Lemma chars_cons c s :
  chars (String c s)
  = match chars s with
    | ch :: rest =>
        if starts_continuation s then String c ch :: rest
        else String c "" :: ch :: rest
    | [] => [String c ""]
    end.
Proof. reflexivity. Qed.

Lemma chars_nil s : chars s = [] → s = "".
Proof.
  destruct s as [|c s]; [done|]. rewrite chars_cons.
  destruct (chars s); [done|]. by destruct (starts_continuation s).
Qed.

(** A string is the string of its characters. *)
Lemma unchars_chars s : unchars (chars s) = s.
Proof.
  induction s as [|c s IH]; [done|]. rewrite chars_cons.
  destruct (chars s) as [|ch rest] eqn:Hs.
  - apply chars_nil in Hs. by subst.
  - rewrite unchars_cons in IH. destruct (starts_continuation s).
    + by rewrite unchars_cons, append_cons, IH.
    + by rewrite !unchars_cons, append_cons, IH.
Qed.

Lemma chars_head s ch rest :
  chars s = ch :: rest → starts_continuation ch = starts_continuation s.
Proof.
  destruct s as [|c s]; [done|]. rewrite chars_cons.
  destruct (chars s); [|destruct (starts_continuation s)]; by intros [= <- <-].
Qed.

Lemma starts_continuation_append a b :
  a ≠ "" → starts_continuation (a +:+ b) = starts_continuation a.
Proof. by destruct a. Qed.

(** Characters are not merged across a byte that begins one. *)
Lemma chars_app a b :
  starts_continuation b = false → chars (a +:+ b) = chars a ++ chars b.
Proof.
  intros Hb. induction a as [|c a IH]; [done|].
  rewrite append_cons, !chars_cons, IH.
  destruct (chars a) as [|ch rest] eqn:Ha.
  - apply chars_nil in Ha. subst a. change ("" +:+ b) with b. rewrite Hb.
    by destruct (chars b).
  - rewrite starts_continuation_append by (by intros ->).
    by destruct (starts_continuation a).
Qed.

Lemma chars_blocks s : Forall (λ ch, is_block ch = true) (chars s).
Proof.
  induction s as [|c s IH]; [constructor|]. rewrite chars_cons.
  destruct (chars s) as [|ch rest] eqn:Hs; [by repeat constructor|].
  apply Forall_cons in IH as [Hch Hrest].
  destruct (starts_continuation s) eqn:Hc.
  - constructor; [|done]. cbn. apply chars_head in Hs. rewrite Hc in Hs.
    destruct ch as [|d t]; [done|]. cbn in *. by rewrite Hs.
  - by repeat constructor.
Qed.

Lemma chars_tail s : Forall (λ ch, is_char ch = true) (tail (chars s)).
Proof.
  induction s as [|c s IH]; [constructor|]. rewrite chars_cons.
  pose proof (chars_blocks s) as Hb.
  destruct (chars s) as [|ch rest] eqn:Hs; [constructor|].
  destruct (starts_continuation s) eqn:Hc; [exact IH|].
  cbn [tail] in *. constructor; [|exact IH].
  apply Forall_cons in Hb as [Hch _]. apply chars_head in Hs.
  unfold is_char. by rewrite Hch, Hs, Hc.
Qed.

Lemma chars_block ch : is_block ch = true → chars ch = [ch].
Proof.
  destruct ch as [|c t]; [done|]. cbn [is_block]. revert c.
  induction t as [|d t IH]; intros c H; [done|].
  cbn [all_continuation] in H. apply andb_true_iff in H as [Hd Ht].
  rewrite chars_cons, (IH d Ht). cbn [starts_continuation]. by rewrite Hd.
Qed.

Lemma is_char_block ch : is_char ch = true → is_block ch = true.
Proof. unfold is_char. by intros [? ?]%andb_true_iff. Qed.

Lemma is_char_start ch : is_char ch = true → starts_continuation ch = false.
Proof. unfold is_char. intros [? ?]%andb_true_iff. by apply negb_true_iff. Qed.

Lemma is_block_nonempty ch : is_block ch = true → ch ≠ "".
Proof. by destruct ch. Qed.

Lemma unchars_start l :
  Forall (λ ch, is_char ch = true) l → starts_continuation (unchars l) = false.
Proof.
  destruct 1 as [|ch l Hch _]; [done|]. rewrite unchars_cons.
  rewrite starts_continuation_append
    by (by apply is_block_nonempty, is_char_block).
  by apply is_char_start.
Qed.

(** The characters of a string of characters are these characters. *)
Lemma chars_unchars l :
  Forall (λ ch, is_block ch = true) l →
  Forall (λ ch, is_char ch = true) (tail l) →
  chars (unchars l) = l.
Proof.
  induction l as [|ch l IH]; intros Hb Ht; [done|].
  apply Forall_cons in Hb as [Hch Hb]. cbn [tail] in Ht.
  rewrite unchars_cons, chars_app by (by apply unchars_start).
  rewrite chars_block by done. rewrite IH; [done | done |].
  destruct Ht; [constructor | done].
Qed.

Lemma unchars_empty l :
  Forall (λ ch, is_block ch = true) l → unchars l = "" → l = [].
Proof.
  destruct 1 as [|ch l Hch _]; [done|]. rewrite unchars_cons.
  intros [? _]%append_empty. by apply is_block_nonempty in Hch.
Qed.

(** *** Code points *)

Lemma codepoint_char ch n : codepoint ch = Some n → is_char ch = true.
Proof.
  unfold codepoint, is_char, is_block, is_continuation.
  destruct ch as [|a [|b [|c [|d [|e t]]]]]; try done;
    cbn [all_continuation starts_continuation is_continuation andb negb];
    unfold is_continuation;
    repeat match goal with
           | |- context [(?x <? ?y)%N] => destruct (N.ltb_spec x y)
           | |- context [(?x <=? ?y)%N] => destruct (N.leb_spec x y)
           end; cbn; try done; lia.
Qed.

Lemma isspace_char ch : isspace ch = true → is_char ch = true.
Proof.
  unfold isspace. destruct (codepoint ch) as [n|] eqn:Hn; [|done].
  intros _. by eapply codepoint_char.
Qed.

(** *** Trimming *)

Lemma lstrip_chars_split l :
  ∃ pre, l = pre ++ lstrip_chars l ∧ Forall (λ ch, isspace ch = true) pre.
Proof.
  induction l as [|ch l (pre & Hl & Hpre)]; [by exists []|].
  cbn [lstrip_chars]. destruct (isspace ch) eqn:Hch.
  - exists (ch :: pre). split; [by rewrite Hl at 1 | by constructor].
  - by exists [].
Qed.

Lemma rstrip_chars_split l :
  ∃ post, l = rstrip_chars l ++ post ∧ Forall (λ ch, isspace ch = true) post.
Proof.
  induction l as [|ch l (post & Hl & Hpost)]; [by exists []|].
  cbn [rstrip_chars]. destruct (rstrip_chars l) as [|d r] eqn:Hr.
  - cbn [app] in Hl. subst post. destruct (isspace ch) eqn:Hch.
    + exists (ch :: l). by split; [|constructor].
    + by exists l.
  - exists post. split; [by rewrite Hl at 1 | done].
Qed.

Lemma lstrip_chars_head l ch rest :
  lstrip_chars l = ch :: rest → isspace ch = false.
Proof.
  induction l as [|c l IH]; [done|]. cbn [lstrip_chars].
  destruct (isspace c) eqn:Hc; [exact IH | by intros [= <- <-]].
Qed.

Lemma rstrip_chars_last l final :
  last (rstrip_chars l) = Some final → isspace final = false.
Proof.
  induction l as [|c l IH]; [done|]. cbn [rstrip_chars].
  destruct (rstrip_chars l) as [|d r] eqn:Hr.
  - destruct (isspace c) eqn:Hc; [done | by intros [= <-]].
  - exact IH.
Qed.

Lemma rstrip_chars_head l ch rest :
  rstrip_chars l = ch :: rest → head l = Some ch.
Proof.
  destruct l as [|c l]; [done|]. cbn [rstrip_chars].
  destruct (rstrip_chars l); [destruct (isspace c)|]; by intros [= <- <-].
Qed.

Lemma rstrip_chars_nil l :
  rstrip_chars l = [] ↔ Forall (λ ch, isspace ch = true) l.
Proof.
  induction l as [|c l IH]; [done|]. cbn [rstrip_chars].
  destruct (rstrip_chars l) as [|d r].
  - destruct (isspace c) eqn:Hc.
    + split; [|done]. intros _. constructor; [done | by apply IH].
    + split; [done|]. intros [Hc' _]%Forall_cons. congruence.
  - split; [done|]. intros [_ H]%Forall_cons. by apply IH in H.
Qed.

Lemma lstrip_chars_nil l :
  lstrip_chars l = [] ↔ Forall (λ ch, isspace ch = true) l.
Proof.
  induction l as [|c l IH]; [done|]. cbn [lstrip_chars].
  destruct (isspace c) eqn:Hc.
  - rewrite IH. split; [by constructor | by intros [_ ?]%Forall_cons].
  - split; [done|]. intros [Hc' _]%Forall_cons. congruence.
Qed.

Lemma lstrip_chars_app l c r :
  isspace c = false → lstrip_chars (l ++ c :: r) = lstrip_chars l ++ c :: r.
Proof.
  intros Hc. induction l as [|a l IH]; cbn [app lstrip_chars]; [by rewrite Hc|].
  by destruct (isspace a).
Qed.

Lemma rstrip_chars_snoc_solid l c :
  isspace c = false → rstrip_chars (l ++ [c]) = l ++ [c].
Proof.
  intros Hc. induction l as [|a l IH]; cbn [app rstrip_chars]; [by rewrite Hc|].
  rewrite IH. by destruct l.
Qed.

Lemma rstrip_chars_snoc_space l w :
  isspace w = true → rstrip_chars (l ++ [w]) = rstrip_chars l.
Proof.
  intros Hw. induction l as [|a l IH]; cbn [app rstrip_chars]; [by rewrite Hw|].
  by rewrite IH.
Qed.

(** The parts of a well-formed list of characters are well-formed. *)
Lemma well_formed_suffix k l :
  Forall (λ ch, is_block ch = true) (k ++ l) →
  Forall (λ ch, is_char ch = true) (tail (k ++ l)) →
  Forall (λ ch, is_block ch = true) l ∧ Forall (λ ch, is_char ch = true) (tail l).
Proof.
  intros [_ Hb]%Forall_app Ht. split; [done|].
  destruct k as [|a k]; [done|]. cbn [app tail] in Ht.
  apply Forall_app in Ht as [_ Ht]. destruct Ht; [constructor | done].
Qed.

Lemma well_formed_prefix l k :
  Forall (λ ch, is_block ch = true) (l ++ k) →
  Forall (λ ch, is_char ch = true) (tail (l ++ k)) →
  Forall (λ ch, is_block ch = true) l ∧ Forall (λ ch, is_char ch = true) (tail l).
Proof.
  intros [Hb _]%Forall_app Ht. split; [done|].
  destruct l as [|a l]; [constructor|]. cbn [app tail] in *.
  by apply Forall_app in Ht as [Ht _].
Qed.

Lemma lstrip_chars_well_formed s :
  Forall (λ ch, is_block ch = true) (lstrip_chars (chars s)) ∧
  Forall (λ ch, is_char ch = true) (tail (lstrip_chars (chars s))).
Proof.
  destruct (lstrip_chars_split (chars s)) as (pre & Hl & _).
  apply (well_formed_suffix pre); rewrite <- Hl; [apply chars_blocks | apply chars_tail].
Qed.

Lemma strip_chars_well_formed s :
  Forall (λ ch, is_block ch = true) (rstrip_chars (lstrip_chars (chars s))) ∧
  Forall (λ ch, is_char ch = true) (tail (rstrip_chars (lstrip_chars (chars s)))).
Proof.
  destruct (lstrip_chars_well_formed s) as [Hb Ht].
  destruct (rstrip_chars_split (lstrip_chars (chars s))) as (post & Hl & _).
  apply (well_formed_prefix _ post); by rewrite <- Hl.
Qed.

(** The characters of a trimmed string are the characters of the string
    without the white space at its ends. *)
Lemma chars_lstrip s : chars (lstrip s) = lstrip_chars (chars s).
Proof. destruct (lstrip_chars_well_formed s). by apply chars_unchars. Qed.

Lemma chars_strip s : chars (strip s) = rstrip_chars (lstrip_chars (chars s)).
Proof. destruct (strip_chars_well_formed s). by apply chars_unchars. Qed.

Lemma strip_empty s : strip s = "" ↔ blank s.
Proof.
  unfold blank. split.
  - intros H. apply unchars_empty in H; [|apply strip_chars_well_formed].
    apply rstrip_chars_nil in H.
    destruct (lstrip_chars_split (chars s)) as (pre & Hl & Hpre).
    rewrite Hl. by apply Forall_app.
  - intros H. unfold strip.
    replace (lstrip_chars (chars s)) with (@nil string); [done|].
    symmetry. by apply lstrip_chars_nil.
Qed.

Lemma lstrip_empty s : lstrip s = "" ↔ blank s.
Proof.
  unfold blank. split.
  - intros H. apply unchars_empty in H; [|apply lstrip_chars_well_formed].
    by apply lstrip_chars_nil.
  - intros H. unfold lstrip. apply lstrip_chars_nil in H. by rewrite H.
Qed.

(** What [strip] leaves is empty or trimmed. *)
Lemma strip_trimmed s : strip s = "" ∨ trimmed (strip s).
Proof.
  unfold trimmed. rewrite chars_strip.
  destruct (rstrip_chars (lstrip_chars (chars s))) as [|ch rest] eqn:Hr.
  - left. unfold strip. by rewrite Hr.
  - right. destruct (last (ch :: rest)) as [final|] eqn:Hlast;
      [|by apply last_None in Hlast].
    exists ch, final. split; [done|]. split; [done|]. split.
    + apply rstrip_chars_head in Hr.
      destruct (lstrip_chars (chars s)) as [|c l] eqn:Hl; [done|].
      injection Hr as ->. by eapply lstrip_chars_head.
    + rewrite <- Hr in Hlast. by eapply rstrip_chars_last.
Qed.

(** *** Counting characters *)

Lemma count_chars_app a b : count_chars (a +:+ b) = (count_chars a + count_chars b)%nat.
Proof.
  induction a as [|c a IH]; [done|]. rewrite append_cons. cbn [count_chars].
  rewrite IH. lia.
Qed.

Lemma len_append a b : len (a +:+ b) = len a + len b.
Proof. unfold len. rewrite count_chars_app. lia. Qed.

Lemma len_lstrip s : len (lstrip s) ≤ len s.
Proof.
  destruct (lstrip_chars_split (chars s)) as (pre & Hl & _).
  rewrite <- (unchars_chars s) at 2. rewrite Hl, unchars_app, len_append.
  unfold lstrip, len. lia.
Qed.

Lemma len_strip s : len (strip s) ≤ len s.
Proof.
  pose proof (len_lstrip s) as Hl.
  destruct (rstrip_chars_split (lstrip_chars (chars s))) as (post & Hr & _).
  unfold lstrip in Hl. rewrite Hr, unchars_app, len_append in Hl.
  unfold strip, len in *. lia.
Qed.

(** A chunk that is cut at the end of a sentence: the space after the full
    stop goes, the full stop stays. *)
Lemma strip_dot_space x : strip (x +:+ ". ") = lstrip x +:+ ".".
Proof.
  unfold strip, lstrip. rewrite chars_app by done.
  change (chars ". ") with (["."; " "]).
  rewrite lstrip_chars_app by done.
  change (lstrip_chars (chars x) ++ ["."; " "])
    with (lstrip_chars (chars x) ++ [] ++ ["."] ++ [" "]).
  rewrite app_nil_l, app_assoc, rstrip_chars_snoc_space by done.
  rewrite rstrip_chars_snoc_solid by done.
  by rewrite unchars_app.
Qed.

(** *** White space *)

Lemma in_ranges_code_points n table :
  in_ranges n table = true → n ∈ code_points table.
Proof.
  unfold code_points. induction table as [|[lo hi] table IH]; [done|].
  cbn [in_ranges map concat]. intros H. apply elem_of_app.
  destruct (N.ltb_spec n lo); [done|]. destruct (N.leb_spec n hi).
  - left. apply list_elem_of_fmap. exists (N.to_nat n). split; [lia|].
    apply elem_of_seq. cbn [fst snd]. lia.
  - right. by apply IH.
Qed.

Lemma whitespace_inert n : in_ranges n whitespace = true → inert n = true.
Proof.
  intros H. apply in_ranges_code_points in H.
  assert (forallb inert (code_points whitespace) = true) as Hall
    by (vm_compute; reflexivity).
  rewrite forallb_forall in Hall. apply Hall. by apply list_elem_of_In.
Qed.

(** A character of white space is left alone by [lower], and is neither
    cased nor case-ignorable. *)
Lemma isspace_inert ch :
  isspace ch = true →
  codepoint ch ≠ Some 0x3A3%N ∧ lower_char ch = ch ∧
  is_cased ch = false ∧ is_case_ignorable ch = false.
Proof.
  unfold isspace, lower_char, map_case, is_cased, is_case_ignorable.
  destruct (codepoint ch) as [n|]; [|done]. intros H.
  apply whitespace_inert in H. unfold inert in H.
  repeat (apply andb_true_iff in H as [H ?]).
  apply negb_true_iff, N.eqb_neq in H.
  repeat match goal with
         | H : bool_decide _ = true |- _ => apply bool_decide_eq_true in H; rewrite H
         | H : negb _ = true |- _ => apply negb_true_iff in H; rewrite H
         end.
  split; [congruence | done].
Qed.

Lemma letter_free_app a b : letter_free (a +:+ b) = letter_free a && letter_free b.
Proof.
  induction a as [|c a IH]; [done|]. rewrite append_cons. cbn [letter_free].
  by rewrite IH, andb_assoc.
Qed.

Lemma whitespace_no_letter n :
  in_ranges n whitespace = true → (97 <=? n)%N && (n <=? 122)%N = false.
Proof.
  intros H. apply in_ranges_code_points in H.
  assert (forallb (λ n, negb ((97 <=? n)%N && (n <=? 122)%N)) (code_points whitespace)
          = true) as Hall by (vm_compute; reflexivity).
  rewrite forallb_forall in Hall. apply negb_true_iff, Hall. by apply list_elem_of_In.
Qed.

Lemma continuation_no_letter c : is_continuation c = true → is_letter c = false.
Proof.
  unfold is_continuation, is_letter. intros [H1 H2]%andb_true_iff.
  apply N.leb_le in H1. apply andb_false_iff. right. apply N.leb_gt. lia.
Qed.

Lemma lead_no_letter c : (128 <=? ord c)%N = true → is_letter c = false.
Proof.
  unfold is_letter. intros H%N.leb_le. apply andb_false_iff. right. apply N.leb_gt. lia.
Qed.

(** A character is one byte, with that code point, or has no byte below
    128. *)
Lemma codepoint_bytes ch n :
  codepoint ch = Some n →
  (∃ a, ch = String a "" ∧ n = ord a) ∨ letter_free ch = true.
Proof.
  unfold codepoint.
  destruct ch as [|a [|b [|c [|d [|e t]]]]]; try done.
  - destruct (ord a <? 128)%N; [|done]. intros [= <-]. left. by exists a.
  - destruct ((194 <=? ord a)%N) eqn:Ha; [|done]. cbn [andb].
    destruct ((ord a <? 224)%N); [|done]. cbn [andb].
    destruct (is_continuation b) eqn:Hb; [|done]. intros _. right.
    cbn [letter_free]. rewrite (continuation_no_letter b Hb), lead_no_letter; [done|].
    apply N.leb_le in Ha. apply N.leb_le. lia.
  - destruct ((224 <=? ord a)%N) eqn:Ha; [|done]. cbn [andb].
    destruct ((ord a <? 240)%N); [|done]. cbn [andb].
    destruct (is_continuation b) eqn:Hb; [|done].
    destruct (is_continuation c) eqn:Hc; [|done]. intros _. right.
    cbn [letter_free].
    rewrite (continuation_no_letter b Hb), (continuation_no_letter c Hc), lead_no_letter;
      [done|].
    apply N.leb_le in Ha. apply N.leb_le. lia.
  - destruct ((240 <=? ord a)%N) eqn:Ha; [|done]. cbn [andb].
    destruct ((ord a <? 245)%N); [|done]. cbn [andb].
    destruct (is_continuation b) eqn:Hb; [|done].
    destruct (is_continuation c) eqn:Hc; [|done].
    destruct (is_continuation d) eqn:Hd; [|done]. intros _. right.
    cbn [letter_free].
    rewrite (continuation_no_letter b Hb), (continuation_no_letter c Hc),
      (continuation_no_letter d Hd), lead_no_letter; [done|].
    apply N.leb_le in Ha. apply N.leb_le. lia.
Qed.

Lemma isspace_letter_free ch : isspace ch = true → letter_free ch = true.
Proof.
  unfold isspace. destruct (codepoint ch) as [n|] eqn:Hn; [|done]. intros Hws.
  apply whitespace_no_letter in Hws.
  destruct (codepoint_bytes ch n Hn) as [(a & -> & ->) | H]; [|done].
  cbn [letter_free]. unfold is_letter. by rewrite Hws.
Qed.

Lemma spaces_letter_free l :
  Forall (λ ch, isspace ch = true) l → letter_free (unchars l) = true.
Proof.
  induction 1 as [|ch l Hch _ IH]; [done|].
  by rewrite unchars_cons, letter_free_app, IH, isspace_letter_free.
Qed.

(** *** Containment *)

Lemma prefix_cons_cons a k b t :
  String.prefix (String a k) (String b t)
  = if decide (a = b) then String.prefix k t else false.
Proof. cbn. destruct (ascii_dec a b); by case_decide. Qed.

Lemma prefix_empty_l t : String.prefix "" t = true.
Proof. by destruct t. Qed.

Lemma prefix_letter_free kw : ∀ s,
  ends_letter kw = true → letter_free s = true → String.prefix kw s = false.
Proof.
  induction kw as [|k kw IH]; intros s Hkw Hs; [done|].
  destruct s as [|b s]; [done|]. rewrite prefix_cons_cons.
  cbn [letter_free] in Hs. apply andb_true_iff in Hs as [Hb Hs].
  case_decide as Hkb; [|done]. subst b. destruct kw as [|k' kw'].
  - cbn in Hkw. by rewrite Hkw in Hb.
  - by apply IH.
Qed.

Lemma prefix_app_letter_free kw b : ∀ s,
  ends_letter kw = true → letter_free b = true →
  String.prefix kw (s +:+ b) = String.prefix kw s.
Proof.
  induction kw as [|k kw IH]; intros s Hkw Hb; [done|].
  destruct s as [|y s].
  - change ("" +:+ b) with b. by rewrite prefix_letter_free.
  - rewrite append_cons, !prefix_cons_cons. case_decide; [|done].
    destruct kw as [|k' kw']; [by rewrite !prefix_empty_l | by apply IH].
Qed.

Lemma contains_letter_free kw s :
  ends_letter kw = true → letter_free s = true → contains kw s = false.
Proof.
  intros Hkw. induction s as [|c s IH]; intros Hs.
  - by destruct kw.
  - cbn [contains]. rewrite prefix_letter_free by done.
    cbn [letter_free] in Hs. apply andb_true_iff in Hs as [_ Hs]. by apply IH.
Qed.

(** A word that begins and ends with a letter occurs in a text exactly if
    it occurs in the text between two stretches without letters. *)
Lemma contains_app_l kw a s :
  starts_letter kw = true → letter_free a = true →
  contains kw (a +:+ s) = contains kw s.
Proof.
  intros Hkw. induction a as [|c a IH]; intros Ha; [done|].
  cbn [letter_free] in Ha. apply andb_true_iff in Ha as [Hc Ha].
  rewrite append_cons. cbn [contains]. rewrite IH by done.
  destruct kw as [|k kw]; [done|]. rewrite prefix_cons_cons.
  case_decide as Hkc; [|done]. subst c. cbn in Hkw. by rewrite Hkw in Hc.
Qed.

Lemma contains_app_r kw s b :
  ends_letter kw = true → letter_free b = true →
  contains kw (s +:+ b) = contains kw s.
Proof.
  intros Hkw Hb. induction s as [|c s IH].
  - change ("" +:+ b) with b. rewrite contains_letter_free by done. by destruct kw.
  - rewrite append_cons. cbn [contains]. rewrite IH. f_equal.
    rewrite <- append_cons. by apply prefix_app_letter_free.
Qed.

(** *** Lowercase and white space *)

Lemma lower_chars_spaces_l pre : ∀ after_cased l,
  Forall (λ ch, isspace ch = true) pre →
  lower_chars after_cased (pre ++ l)
  = pre ++ lower_chars (match pre with [] => after_cased | _ => false end) l.
Proof.
  induction pre as [|w pre IH]; intros after_cased l Hpre; [done|].
  apply Forall_cons in Hpre as [Hw Hpre].
  destruct (isspace_inert w Hw) as (Hsigma & Hlow & Hcased & Hci).
  cbn [app lower_chars]. rewrite decide_False by done.
  rewrite Hlow, Hci, Hcased, IH by done. by destruct pre.
Qed.

Lemma ends_word_spaces post : ∀ l,
  Forall (λ ch, isspace ch = true) post → ends_word (l ++ post) = ends_word l.
Proof.
  intros l Hpost. induction l as [|c l IH].
  - destruct Hpost as [|w post Hw _]; [done|].
    destruct (isspace_inert w Hw) as (_ & _ & Hcased & Hci).
    cbn [app ends_word]. by rewrite Hci, Hcased.
  - cbn [app ends_word]. by rewrite IH.
Qed.

Lemma lower_chars_spaces_r post : ∀ l after_cased,
  Forall (λ ch, isspace ch = true) post →
  lower_chars after_cased (l ++ post) = lower_chars after_cased l ++ post.
Proof.
  intros l after_cased Hpost. revert after_cased.
  induction l as [|c l IH]; intros after_cased.
  - cbn [app lower_chars].
    rewrite <- (app_nil_r post) at 1. rewrite lower_chars_spaces_l by done.
    cbn [lower_chars]. by rewrite app_nil_r.
  - cbn [app lower_chars]. by rewrite ends_word_spaces, IH.
Qed.

(** The lowercase of a text is the lowercase of the trimmed text, between
    the white space that was trimmed. *)
Lemma lower_strip q :
  ∃ a b, letter_free a = true ∧ letter_free b = true ∧
         lower q = a +:+ lower (strip q) +:+ b.
Proof.
  destruct (lstrip_chars_split (chars q)) as (pre & Hl & Hpre).
  destruct (rstrip_chars_split (lstrip_chars (chars q))) as (post & Hr & Hpost).
  exists (unchars pre), (unchars post).
  split; [by apply spaces_letter_free|]. split; [by apply spaces_letter_free|].
  unfold lower. rewrite chars_strip, Hl at 1. rewrite Hr at 1.
  rewrite lower_chars_spaces_l, lower_chars_spaces_r by done.
  rewrite !unchars_app. by destruct pre.
Qed.

(** Trimming white space neither adds nor removes an occurrence of a word
    that begins and ends with a letter. *)
Lemma contains_lower_strip kw q :
  starts_letter kw = true → ends_letter kw = true →
  contains kw (lower (strip q)) = contains kw (lower q).
Proof.
  intros Hs He. destruct (lower_strip q) as (a & b & Ha & Hb & ->).
  by rewrite contains_app_l, contains_app_r.
Qed.

Lemma dangerous_letters keyword :
  keyword ∈ ToolRegistry.dangerous →
  starts_letter keyword = true ∧ ends_letter keyword = true.
Proof.
  intros H. unfold ToolRegistry.dangerous in H.
  repeat (apply elem_of_cons in H as [-> | H]; [by split|]).
  by apply elem_of_nil in H.
Qed.

(** *** Blank strings and splitting *)

Lemma blank_start b : blank b → starts_continuation b = false.
Proof.
  unfold blank. destruct (chars b) as [|w rest] eqn:Hb.
  - apply chars_nil in Hb. by subst.
  - intros [Hw _]%Forall_cons. apply chars_head in Hb. rewrite <- Hb.
    by apply is_char_start, isspace_char.
Qed.

Lemma blank_app a b : blank a → blank b → blank (a +:+ b).
Proof.
  intros Ha Hb. unfold blank. rewrite chars_app by (by apply blank_start).
  by apply Forall_app.
Qed.

Lemma join_cons sep p q rest :
  join sep (p :: q :: rest) = p +:+ sep +:+ join sep (q :: rest).
Proof. reflexivity. Qed.

Lemma join_cons_char sep c piece pieces :
  join sep (String c piece :: pieces) = String c (join sep (piece :: pieces)).
Proof. by destruct pieces. Qed.

Lemma blank_join sep pieces :
  blank sep → Forall blank pieces → blank (join sep pieces).
Proof.
  intros Hsep. induction 1 as [|p l Hp Hl IH]; [constructor|].
  destruct l as [|q l]; [done|]. rewrite join_cons.
  by repeat apply blank_app.
Qed.

Lemma split_from_cons sep s skip : ∃ piece pieces, split_from sep s skip = piece :: pieces.
Proof.
  revert skip. induction s as [|c s IH]; intros skip; [by eexists _, _|].
  cbn [split_from]. destruct skip as [|k]; [|apply IH].
  destruct (String.prefix sep (String c s)); [by eexists _, _|].
  destruct (IH 0%nat) as (piece & pieces & ->). by eexists _, _.
Qed.

Lemma prefix_append p : ∀ s, String.prefix p s = true → ∃ rest, s = p +:+ rest.
Proof.
  induction p as [|a p IH]; intros s H; [by exists s|].
  destruct s as [|b s]; [done|]. rewrite prefix_cons_cons in H.
  case_decide as Hab; [|done]. subst b. destruct (IH s H) as [rest ->]. by exists rest.
Qed.

Lemma skip_bytes_append p rest : skip_bytes (String.length p) (p +:+ rest) = rest.
Proof. induction p as [|a p IH]; [by destruct rest | exact IH]. Qed.

(** Joining the pieces of a split gives the string back. *)
Lemma join_split_from sep :
  sep ≠ "" → ∀ s skip, join sep (split_from sep s skip) = skip_bytes skip s.
Proof.
  intros Hsep. induction s as [|c s IH]; intros skip; [by destruct skip|].
  cbn [split_from]. destruct skip as [|k]; [|by rewrite IH].
  cbn [skip_bytes]. destruct (String.prefix sep (String c s)) eqn:Hp.
  - destruct sep as [|a sep']; [done|].
    apply prefix_append in Hp as [rest Heq]. rewrite append_cons in Heq.
    injection Heq as -> ->.
    destruct (split_from_cons (String a sep') (sep' +:+ rest)
                (String.length (String a sep') - 1)) as (piece & pieces & Hs).
    rewrite Hs, join_cons, <- Hs, IH. cbn [String.length].
    rewrite Nat.sub_succ, Nat.sub_0_r, skip_bytes_append. reflexivity.
  - specialize (IH 0%nat). cbn [skip_bytes] in IH.
    destruct (split_from_cons sep s 0) as (piece & pieces & Hs).
    rewrite Hs in IH |- *. rewrite join_cons_char, IH. by destruct s.
Qed.

Lemma join_split sep s : sep ≠ "" → join sep (split sep s) = s.
Proof. intros Hsep. unfold split. rewrite join_split_from by done. by destruct s. Qed.

(** A text that is not blank has, between blank separators, a piece that
    is not blank. *)
Lemma split_not_blank sep s :
  sep ≠ "" → blank sep → ¬ blank s → ∃ piece, piece ∈ split sep s ∧ ¬ blank piece.
Proof.
  intros Hne Hsep Hs.
  destruct (decide (Forall blank (split sep s))) as [Hall | Hex].
  - destruct Hs. rewrite <- (join_split sep s Hne). by apply blank_join.
  - apply not_Forall_Exists in Hex; [|apply _].
    apply Exists_exists in Hex as (piece & Hin & Hp). by exists piece.
Qed.

End PythonStrings.

(** ** The tool gateway *)

Section ToolGateway.
Import ToolRegistry.

Lemma bind_args_present {A} fn required (kw : gmap string Value) (body : Eff A) :
  Forall (λ k, is_Some (kw !! k)) required →
  bind_args fn required kw body = body.
Proof.
  intros H. unfold bind_args, missing.
  replace (filter _ required) with (@nil string); [done|].
  symmetry. induction H as [|k l Hk _ IH]; [done|].
  rewrite filter_cons_False by (intros Hn; by apply Hn). exact IH.
Qed.

(** Binding the arguments is the only way a handler can raise. *)
Lemma bind_args_outcome {A} fn required (kw : gmap string Value) (body : Eff A) :
  bind_args fn required kw body = body ∨
  ∃ names, bind_args fn required kw body = ([], inl (MissingArgs fn names)).
Proof.
  unfold bind_args. destruct (missing required kw); [by left | right; eauto].
Qed.

(** Examples of the security policy of [sql_query]. *)
Example sql_select_runs :
  execute_tool Sample.world Sample.storage "sql_query"
    {[ "query" := VStr "SELECT * FROM x" ]}
    (AgentBuilder.tool_context 7 Sample.agent)
  = ([SqlExecute "SELECT * FROM x"], inr (rows_result [[("n", VInt 1)]])).
Proof. reflexivity. Qed.

Example sql_drop_rejected :
  execute_tool Sample.world Sample.storage "sql_query"
    {[ "query" := VStr "DROP TABLE x" ]}
    (AgentBuilder.tool_context 7 Sample.agent)
  = ([], inr (error_envelope "Only SELECT queries are allowed")).
Proof. reflexivity. Qed.

Example sql_update_rejected :
  execute_tool Sample.world Sample.storage "sql_query"
    {[ "query" := VStr "UPDATE x SET a = 1" ]}
    (AgentBuilder.tool_context 7 Sample.agent)
  = ([], inr (error_envelope "Only SELECT queries are allowed")).
Proof. reflexivity. Qed.

(** The substring match also rejects a harmless column name. *)
Example sql_identifier_rejected :
  execute_tool Sample.world Sample.storage "sql_query"
    {[ "query" := VStr "select created_at from x" ]}
    (AgentBuilder.tool_context 7 Sample.agent)
  = ([], inr (error_envelope "Query contains forbidden keywords")).
Proof. reflexivity. Qed.

(** A no-break space before the statement is trimmed like any white space,
    and the letters of the keywords are matched after Unicode lowercasing. *)
Example sql_no_break_space :
  execute_tool Sample.world Sample.storage "sql_query"
    {[ "query" := VStr (PyStr.chr 0xA0 +:+ "select 1") ]}
    (AgentBuilder.tool_context 7 Sample.agent)
  = ([SqlExecute (PyStr.chr 0xA0 +:+ "select 1")], inr (rows_result [[("n", VInt 1)]])).
Proof. vm_compute. reflexivity. Qed.

Lemma any_ext {A} (p p' : A → bool) l :
  (∀ x, x ∈ l → p x = p' x) → PyStr.any p l = PyStr.any p' l.
Proof.
  unfold PyStr.any. induction l as [|a l IH]; intros H; [done|].
  cbn. rewrite (H a) by left. rewrite IH; [done|]. intros x Hx. apply H. by right.
Qed.

(** The check of the handler, on the trimmed text, is the check on the whole
    lowercased query. *)
Lemma forbidden_word_check q :
  PyStr.any (λ keyword, PyStr.contains keyword (PyStr.lower (PyStr.strip q))) dangerous
  = PyStr.any (λ keyword, PyStr.contains keyword (PyStr.lower q)) dangerous.
Proof.
  apply any_ext. intros keyword Hk. apply dangerous_letters in Hk as [Hs He].
  by apply contains_lower_strip.
Qed.

(** C3 (amended).  Whatever the query string, [sql_query] returns an error
    envelope and makes no call to storage unless the query, trimmed and
    lowercased, begins with [select]; it also returns an error envelope and
    makes no call if the lowercased query contains one of the seven forbidden
    words anywhere; otherwise it executes the query (exactly one call, with
    the query as given), and returns the row mappings with their count if
    the execution succeeds, and the envelope [SQL query failed: ...] if it
    raises. *)
Theorem C3_sql_query_policy (w : World) (st : DB) (kw : gmap string Value) (q : string) :
  kw !! "db" = Some VSession →
  kw !! "query" = Some (VStr q) →
  let begins_with_select := PyStr.startswith (PyStr.lower (PyStr.strip q)) "select" in
  let has_forbidden_word :=
    PyStr.any (λ keyword, PyStr.contains keyword (PyStr.lower q)) dangerous in
  let r := sql_query_handler w st kw in
  (begins_with_select = false →
     r = ([], inr (error_envelope "Only SELECT queries are allowed"))) ∧
  (has_forbidden_word = true →
     calls r = [] ∧ ∃ msg, outcome r = inr (error_envelope msg)) ∧
  (begins_with_select = true → has_forbidden_word = true →
     r = ([], inr (error_envelope "Query contains forbidden keywords"))) ∧
  (begins_with_select = true → has_forbidden_word = false →
     calls r = [SqlExecute q] ∧
     outcome r = inr match db_execute w q with
                     | inr rows => rows_result rows
                     | inl e => error_envelope ("SQL query failed: " +:+ exn_str e)
                     end).
Proof.
  intros Hdb Hq begins_with_select has_forbidden_word r.
  subst r has_forbidden_word. rewrite <- forbidden_word_check.
  unfold sql_query_handler.
  rewrite bind_args_present
    by (repeat constructor; [rewrite Hdb | rewrite Hq]; eauto).
  unfold arg. rewrite Hdb, Hq. cbn [default id str_method session_method].
  rewrite Eff_ret_bind. fold begins_with_select.
  destruct begins_with_select; cbn [negb].
  - split; [done|]. split; [|split].
    + intros ->. split; [done|]. by eexists.
    + by intros _ ->.
    + intros _ ->. rewrite Eff_ret_bind. by destruct (db_execute w q).
  - split; [done|]. split; [|split; done].
    intros _. split; [done|]. by eexists.
Qed.

Lemma C3_sql_query_policy_witness :
  calls (sql_query_handler Sample.world Sample.storage (Sample.sql_kwargs " Select 1 "))
    = [SqlExecute " Select 1 "] ∧
  outcome (sql_query_handler Sample.world Sample.storage (Sample.sql_kwargs " Select 1 "))
    = inr (rows_result [[("n", VInt 1)]]).
Proof.
  refine (proj2 (proj2 (proj2 (C3_sql_query_policy Sample.world Sample.storage
                                 (Sample.sql_kwargs " Select 1 ") " Select 1 " _ _))) _ _).
  - reflexivity.
  - reflexivity.
  - reflexivity.
  - reflexivity.
Defined.

(** C3 as stated fails: a query that passes both checks is executed, but
    when the engine raises (here: an unknown table) no rows come back. *)
Lemma C3_counterexample :
  PyStr.startswith (PyStr.lower (PyStr.strip "select * from missing")) "select" = true ∧
  PyStr.any (λ keyword, PyStr.contains keyword (PyStr.lower "select * from missing"))
            dangerous = false ∧
  sql_query_handler Sample.broken_world Sample.storage
    (Sample.sql_kwargs "select * from missing")
  = ([SqlExecute "select * from missing"],
     inr (error_envelope "SQL query failed: relation does not exist")) ∧
  ¬ ∃ rows,
      outcome (sql_query_handler Sample.broken_world Sample.storage
                 (Sample.sql_kwargs "select * from missing"))
      = inr (rows_result rows).
Proof.
  split; [reflexivity|]. split; [reflexivity|]. split; [reflexivity|].
  intros [rows H]. vm_compute in H. destruct rows; discriminate H.
Qed.

(** *** The gateway never raises *)

Lemma handler_in_registry tool_name handler :
  TOOL_HANDLERS !! tool_name = Some handler →
  handler = vector_search_handler ∨ handler = sql_query_handler ∨
  handler = http_fetch_handler ∨ handler = file_fetch_handler ∨
  handler = web_search_handler.
Proof.
  intros H. apply elem_of_list_to_map_2 in H.
  repeat (apply elem_of_cons in H as [Heq|H]; [injection Heq as _ <-; tauto|]).
  by apply elem_of_nil in H.
Qed.

(** Every registered handler catches what its body raises: it returns a
    value, unless the call itself lacked a required argument. *)
Lemma handler_catches tool_name handler w st kw :
  TOOL_HANDLERS !! tool_name = Some handler →
  (∃ v, outcome (handler w st kw) = inr v) ∨
  (∃ fn names, handler w st kw = ([], inl (MissingArgs fn names))).
Proof.
  intros H.
  destruct (handler_in_registry _ _ H) as [-> | [-> | [-> | [-> | ->]]]];
    [unfold vector_search_handler | unfold sql_query_handler
     | unfold http_fetch_handler | unfold file_fetch_handler
     | unfold web_search_handler];
    (match goal with
     | |- context [bind_args ?fn ?req ?kw ?body] =>
         destruct (bind_args_outcome fn req kw body) as [-> | [names ->]]
     end; [left; apply try_catch_returns | right; eauto]).
Qed.

(** A transport failure of [http_fetch] comes back as an error envelope. *)
Lemma http_fetch_transport_failure w st (kw : gmap string Value) url m e :
  kw !! "url" = Some url →
  ToolRegistry.arg kw "method" (VStr "GET") = VStr m →
  (PyStr.upper m = "GET" ∧
     httpx_get w url (ToolRegistry.arg kw "headers" VNone) = inl e) ∨
  (PyStr.upper m = "POST" ∧
     httpx_post w url (ToolRegistry.arg kw "headers" VNone)
                (ToolRegistry.arg kw "body" VNone) = inl e) →
  outcome (http_fetch_handler w st kw)
  = inr (error_envelope ("HTTP request failed: " +:+ exn_str e)).
Proof.
  intros Hurl Hm Hfail. unfold http_fetch_handler.
  rewrite bind_args_present by (repeat constructor; rewrite Hurl; eauto).
  rewrite Hm. replace (arg kw "url" VNone) with url by (unfold arg; by rewrite Hurl).
  cbn [str_method]. rewrite Eff_ret_bind.
  destruct Hfail as [[Hup Hraise] | [Hup Hraise]];
    rewrite Hup; simpl (String.eqb _ _); cbv iota; rewrite Hraise; reflexivity.
Qed.

(** C4.  [execute_tool] returns a value for every tool name, argument map
    and context map: an unregistered name gives the envelope
    [Unknown tool: name], an exception that leaves a handler gives the
    envelope [Tool execution failed: ...], a registered handler lets no
    exception out except for a call that lacks a required argument, and a
    transport failure inside [http_fetch] comes back through the gateway as
    the envelope [HTTP request failed: ...]. *)
Theorem C4_execute_tool_never_raises (w : World) (st : DB) (tool_name : string)
    (arguments context : gmap string Value) :
  (∃ v, outcome (execute_tool w st tool_name arguments context) = inr v) ∧
  (TOOL_HANDLERS !! tool_name = None →
   execute_tool w st tool_name arguments context
   = ([], inr (error_envelope ("Unknown tool: " +:+ tool_name)))) ∧
  (∀ handler t e,
     TOOL_HANDLERS !! tool_name = Some handler →
     handler w st (merge_kwargs arguments context) = (t, inl e) →
     (∃ fn names, e = MissingArgs fn names) ∧
     execute_tool w st tool_name arguments context
     = (t, inr (error_envelope ("Tool execution failed: " +:+ exn_str e)))) ∧
  (∀ url m e,
     tool_name = "http_fetch" →
     merge_kwargs arguments context !! "url" = Some url →
     ToolRegistry.arg (merge_kwargs arguments context) "method" (VStr "GET") = VStr m →
     (PyStr.upper m = "GET" ∧
        httpx_get w url (ToolRegistry.arg (merge_kwargs arguments context) "headers" VNone)
        = inl e) ∨
     (PyStr.upper m = "POST" ∧
        httpx_post w url (ToolRegistry.arg (merge_kwargs arguments context) "headers" VNone)
                   (ToolRegistry.arg (merge_kwargs arguments context) "body" VNone)
        = inl e) →
     outcome (execute_tool w st tool_name arguments context)
     = inr (error_envelope ("HTTP request failed: " +:+ exn_str e))).
Proof.
  unfold execute_tool. split; [|split; [|split]].
  - destruct (TOOL_HANDLERS !! tool_name); [apply try_catch_returns | cbn; eauto].
  - by intros ->.
  - intros handler t e Hh Hraise. split.
    + destruct (handler_catches _ _ w st (merge_kwargs arguments context) Hh)
        as [[v Hv] | (fn & names & Hn)].
      * rewrite Hraise in Hv. discriminate Hv.
      * rewrite Hraise in Hn. injection Hn as _ ->. eauto.
    + destruct (TOOL_HANDLERS !! tool_name) as [h|] eqn:Hl; [|discriminate Hh].
      injection Hh as ->. cbv zeta. rewrite Hraise. cbn. by rewrite app_nil_r.
  - intros url m e -> Hurl Hm Hfail.
    pose proof (http_fetch_transport_failure w st _ url m e Hurl Hm Hfail) as Hh.
    change (TOOL_HANDLERS !! "http_fetch") with (Some http_fetch_handler).
    cbv zeta. destruct (http_fetch_handler w st _) as [t [e'|v]] eqn:Heq.
    + discriminate Hh.
    + cbn in Hh. rewrite Heq. exact Hh.
Qed.

Lemma C4_execute_tool_never_raises_witness :
  execute_tool Sample.broken_world Sample.storage "no_such_tool" ∅ ∅
  = ([], inr (error_envelope "Unknown tool: no_such_tool")).
Proof.
  apply (proj1 (proj2 (C4_execute_tool_never_raises
                         Sample.broken_world Sample.storage "no_such_tool" ∅ ∅))).
  reflexivity.
Defined.

(** An unreachable URL: the envelope, not an exception. *)
Example http_fetch_unreachable :
  execute_tool Sample.broken_world Sample.storage "http_fetch"
    {[ "url" := VStr "http://unreachable.invalid/" ]}
    (AgentBuilder.tool_context 7 Sample.agent)
  = ([HttpGet (VStr "http://unreachable.invalid/") VNone],
     inr (error_envelope "HTTP request failed: connection refused")).
Proof. reflexivity. Qed.

(** A call without its required argument is caught at the gateway. *)
Example sql_query_without_query :
  execute_tool Sample.world Sample.storage "sql_query" ∅
    (AgentBuilder.tool_context 7 Sample.agent)
  = ([], inr (error_envelope
       "Tool execution failed: sql_query_handler() missing 1 required positional argument: 'query'")).
Proof. reflexivity. Qed.

(** *** Owner isolation of [file_fetch] *)

Lemma file_fetch_not_found w st (kw : gmap string Value) user_id doc_id :
  kw !! "db" = Some VSession →
  kw !! "user_id" = Some (VInt user_id) →
  kw !! "doc_id" = Some (VInt doc_id) →
  query_document st doc_id user_id = None →
  file_fetch_handler w st kw
  = ([], inr (error_envelope "Document not found or access denied")).
Proof.
  intros Hdb Hu Hd Hq. unfold file_fetch_handler.
  rewrite bind_args_present
    by (repeat constructor; [rewrite Hdb | rewrite Hu | rewrite Hd]; eauto).
  unfold arg. rewrite Hdb, Hu, Hd. cbn [default id session_method as_int].
  rewrite !Eff_ret_bind, Hq. reflexivity.
Qed.

(** C8.  For every caller and every document id, [file_fetch] answers a
    storage that has no such document and a storage where the document
    belongs to another user with the same envelope,
    [Document not found or access denied], without touching the file system;
    the two answers are equal, whatever else the two storages and worlds
    contain. *)
Theorem C8_file_fetch_hides_foreign_documents (w w' : World) (st st' : DB)
    (kw : gmap string Value) (user_id doc_id : Z) (doc : Document.t) :
  kw !! "db" = Some VSession →
  kw !! "user_id" = Some (VInt user_id) →
  kw !! "doc_id" = Some (VInt doc_id) →
  documents st !! doc_id = None →
  documents st' !! doc_id = Some doc →
  Document.user_id doc ≠ user_id →
  file_fetch_handler w st kw
    = ([], inr (error_envelope "Document not found or access denied")) ∧
  file_fetch_handler w' st' kw = file_fetch_handler w st kw.
Proof.
  intros Hdb Hu Hd Hnone Hsome Hother.
  assert (query_document st doc_id user_id = None) as H1
    by (unfold query_document; by rewrite Hnone).
  assert (query_document st' doc_id user_id = None) as H2
    by (unfold query_document; rewrite Hsome; by rewrite decide_False).
  by rewrite !(file_fetch_not_found _ _ kw user_id doc_id).
Qed.

Lemma C8_file_fetch_hides_foreign_documents_witness :
  file_fetch_handler Sample.world Sample.storage_agent_gone (Sample.fetch_kwargs 7 3)
    = ([], inr (error_envelope "Document not found or access denied")) ∧
  file_fetch_handler Sample.broken_world Sample.storage (Sample.fetch_kwargs 7 3)
    = file_fetch_handler Sample.world Sample.storage_agent_gone (Sample.fetch_kwargs 7 3).
Proof.
  apply (C8_file_fetch_hides_foreign_documents
           Sample.world Sample.broken_world Sample.storage_agent_gone Sample.storage
           (Sample.fetch_kwargs 7 3) 7 3 Sample.document).
  - reflexivity.
  - reflexivity.
  - reflexivity.
  - reflexivity.
  - reflexivity.
  - vm_compute. discriminate.
Defined.

(** More generally, the answer of [file_fetch] to a caller depends on the
    documents of that caller only, whatever the document id is bound to. *)
Lemma file_fetch_sees_own_documents_only w st st' (kw : gmap string Value) user_id :
  kw !! "user_id" = Some (VInt user_id) →
  (∀ doc_id, query_document st doc_id user_id = query_document st' doc_id user_id) →
  file_fetch_handler w st kw = file_fetch_handler w st' kw.
Proof.
  intros Hu Hsame. unfold file_fetch_handler, bind_args.
  destruct (missing _ kw); [|done].
  replace (arg kw "user_id" VNone) with (VInt user_id) by (unfold arg; by rewrite Hu).
  destruct (session_method "query" (arg kw "db" VNone)) as [t [e|[]]]; [done|].
  destruct (as_int w (arg kw "doc_id" VNone)) as [t' [e|d]]; [done|].
  cbn [as_int]. unfold mbind, Eff_bind, mret, Eff_ret. by rewrite Hsame.
Qed.

(** The owner of the document does get it. *)
Example file_fetch_owner :
  outcome (file_fetch_handler Sample.world Sample.storage (Sample.fetch_kwargs 8 3))
  = inr (VDict [("filename", VStr "notes.txt"); ("content", VStr "contents");
                ("size_bytes", VInt 12); ("processed", VBool true)]).
Proof. reflexivity. Qed.

(** *** The trusted context wins over the arguments of the model *)

Lemma merge_kwargs_context (arguments context : gmap string Value) k v :
  context !! k = Some v → merge_kwargs arguments context !! k = Some v.
Proof. intros H. unfold merge_kwargs. by apply lookup_union_Some_l. Qed.

Lemma merge_kwargs_agree (arguments arguments' context : gmap string Value) :
  (∀ k, context !! k = None → arguments !! k = arguments' !! k) →
  merge_kwargs arguments context = merge_kwargs arguments' context.
Proof.
  intros H. unfold merge_kwargs. apply map_eq. intros k.
  rewrite !lookup_union. destruct (context !! k) as [v|] eqn:Hk.
  - by rewrite !union_Some_l.
  - rewrite !(left_id_L None _). by apply H.
Qed.

Lemma build_tools_closures c user_id agent tool_models :
  ∀ S (s s' : S) tools,
    AgentBuilder.build_tools c user_id agent tool_models s = (s', inr tools) →
    ∀ t, t ∈ tools →
         ∃ name, AgentBuilder.tool_fn t = AgentBuilder.create_tool_fn user_id agent name.
Proof.
  induction tool_models as [|tm l IH]; intros S s s' tools Hb t Ht.
  - injection Hb as _ <-. by apply elem_of_nil in Ht.
  - cbn [AgentBuilder.build_tools] in Hb.
    destruct (get_tool_definition (Tool.name tm)) as [d|]; [|by eapply IH].
    unfold mbind, ST_bind, AgentBuilder.construct in Hb.
    destruct (AgentBuilder.FunctionTool_init c (def_name d)); [discriminate Hb|].
    cbn in Hb.
    destruct (AgentBuilder.build_tools c user_id agent l s) as [s1 [e|rest]] eqn:Hl;
      [discriminate Hb|].
    injection Hb as _ <-.
    apply elem_of_cons in Ht as [-> | Ht]; [by eexists | by eapply IH].
Qed.

(** C9.  Every tool of an agent built by [build_agent] is either the
    knowledge-base search closure or dispatches through the gateway with the
    context of the closure; in that case, whatever arguments the model
    supplies, the handler is called with the closure's [user_id], [agent_id]
    and [db] (and in general every key of the context keeps the context's
    value after the merge), and two argument maps that differ only on keys of
    the context give the same tool invocation. *)
Theorem C9_context_overrides_arguments {S} (c : AgentBuilder.Constructors)
    (agent : Agent.t) (user_id : Z) (s s' : S) (llama_agent : AgentBuilder.ReActAgent)
    (t : AgentBuilder.FunctionTool) :
  AgentBuilder.build_agent c agent user_id s = (s', inr llama_agent) →
  t ∈ AgentBuilder.agent_tools llama_agent →
  AgentBuilder.tool_fn t = AgentBuilder.vector_search_fn user_id agent ∨
  ∃ name,
    let context := AgentBuilder.tool_context user_id agent in
    (∀ w st kwargs,
       AgentBuilder.tool_fn t w st kwargs = execute_tool w st name kwargs context) ∧
    (∀ kwargs k v,
       context !! k = Some v → merge_kwargs kwargs context !! k = Some v) ∧
    (∀ kwargs,
       merge_kwargs kwargs context !! "user_id" = Some (VInt user_id) ∧
       merge_kwargs kwargs context !! "agent_id" = Some (VInt (Agent.id agent)) ∧
       merge_kwargs kwargs context !! "db" = Some VSession) ∧
    (∀ w st kwargs kwargs',
       (∀ k, context !! k = None → kwargs !! k = kwargs' !! k) →
       AgentBuilder.tool_fn t w st kwargs = AgentBuilder.tool_fn t w st kwargs').
Proof.
  intros Hb Ht.
  unfold AgentBuilder.build_agent, mbind, ST_bind, AgentBuilder.construct in Hb.
  destruct (AgentBuilder.OpenAI_init c); [discriminate Hb|]. cbn in Hb.
  destruct (AgentBuilder.build_tools c user_id agent (Agent.tools agent) s)
    as [s1 [e|tools]] eqn:Htools; [discriminate Hb|].
  assert (∃ kb, AgentBuilder.agent_tools llama_agent = tools ++ kb ∧
                ∀ x, x ∈ kb → AgentBuilder.tool_fn x
                               = AgentBuilder.vector_search_fn user_id agent)
    as (kb & Hall & Hkb).
  { destruct (Agent.kb_enabled agent); cbn in Hb.
    - destruct (AgentBuilder.FunctionTool_init c "knowledge_base_search");
        [discriminate Hb|]. cbn in Hb.
      destruct (AgentBuilder.ReActAgent_init c); [discriminate Hb|].
      injection Hb as _ <-. eexists. split; [reflexivity|].
      intros x Hx. apply list_elem_of_singleton in Hx. by subst x.
    - destruct (AgentBuilder.ReActAgent_init c); [discriminate Hb|].
      injection Hb as _ <-. exists []. split; [reflexivity|].
      intros x Hx. by apply elem_of_nil in Hx. }
  rewrite Hall in Ht. apply elem_of_app in Ht as [Ht | Ht]; [right | left; by apply Hkb].
  destruct (build_tools_closures _ _ _ _ _ _ _ _ Htools t Ht) as [name Hname].
  exists name. cbv zeta. rewrite Hname. unfold AgentBuilder.create_tool_fn.
  split; [done|]. split; [intros kwargs k v; apply merge_kwargs_context|]. split.
  - intros kwargs. repeat split; by apply merge_kwargs_context.
  - intros w st kwargs kwargs' Hagree. unfold execute_tool.
    by rewrite (merge_kwargs_agree kwargs kwargs').
Qed.

Lemma C9_context_overrides_arguments_witness :
  AgentBuilder.tool_fn Sample.sql_tool = AgentBuilder.vector_search_fn 7 Sample.agent ∨
  ∃ name,
    let context := AgentBuilder.tool_context 7 Sample.agent in
    (∀ w st kwargs,
       AgentBuilder.tool_fn Sample.sql_tool w st kwargs
       = execute_tool w st name kwargs context) ∧
    (∀ kwargs k v,
       context !! k = Some v → merge_kwargs kwargs context !! k = Some v) ∧
    (∀ kwargs,
       merge_kwargs kwargs context !! "user_id" = Some (VInt 7) ∧
       merge_kwargs kwargs context !! "agent_id" = Some (VInt (Agent.id Sample.agent)) ∧
       merge_kwargs kwargs context !! "db" = Some VSession) ∧
    (∀ w st kwargs kwargs',
       (∀ k, context !! k = None → kwargs !! k = kwargs' !! k) →
       AgentBuilder.tool_fn Sample.sql_tool w st kwargs
       = AgentBuilder.tool_fn Sample.sql_tool w st kwargs').
Proof.
  apply (C9_context_overrides_arguments Sample.constructors_ok Sample.agent 7 () ()
           (AgentBuilder.mkReActAgent "helper" "AI Agent" [Sample.sql_tool]
                                      "You are helpful.")).
  - reflexivity.
  - apply list_elem_of_singleton. reflexivity.
Defined.

(** The model cannot pass another user's id to [file_fetch]: the document of
    user 8 stays hidden from the agent of user 7. *)
Example forged_user_id_is_overridden :
  AgentBuilder.create_tool_fn 7 Sample.agent "file_fetch" Sample.world Sample.storage
    {[ "doc_id" := VInt 3; "user_id" := VInt 8 ]}
  = ([], inr (error_envelope "Document not found or access denied")).
Proof. reflexivity. Qed.

End ToolGateway.

(** ** The run orchestrator *)

Section Orchestrator.
Import Runner.

(** *** Symbolic execution of [execute_run] *)

Lemma build_tools_pure c user_id agent tool_models :
  ∀ S (s : S),
    AgentBuilder.build_tools c user_id agent tool_models s
    = (s, (AgentBuilder.build_tools c user_id agent tool_models ()).2).
Proof.
  induction tool_models as [|t l IH]; intros S s; [done|].
  cbn [AgentBuilder.build_tools].
  destruct (ToolRegistry.get_tool_definition (Tool.name t)) as [d|]; [|apply IH].
  unfold mbind, ST_bind, AgentBuilder.construct.
  destruct (AgentBuilder.FunctionTool_init c (ToolRegistry.def_name d)); [done|].
  cbn. rewrite IH, (IH _ ()). cbn.
  by destruct (AgentBuilder.build_tools c user_id agent l ()).2.
Qed.

Lemma build_agent_pure {S} E agent user_id (s : S) :
  AgentBuilder.build_agent (constructors E) agent user_id s = (s, built E agent user_id).
Proof.
  unfold built, AgentBuilder.build_agent, mbind, ST_bind, AgentBuilder.construct.
  destruct (AgentBuilder.OpenAI_init _); [done|]. cbn.
  rewrite build_tools_pure, (build_tools_pure _ _ _ _ _ ()). cbn.
  destruct (AgentBuilder.build_tools _ user_id agent _ ()).2 as [e|tools]; [done|].
  destruct (Agent.kb_enabled agent); cbn.
  - destruct (AgentBuilder.FunctionTool_init _ _); [done|]. cbn.
    by destruct (AgentBuilder.ReActAgent_init _).
  - by destruct (AgentBuilder.ReActAgent_init _).
Qed.

Lemma log_here_eq run_id ty i o e d fr :
  log_here run_id ty i o e d fr
  = (mkFrame (insert_step (RunStep.mk run_id (step_order fr) ty i o None e d) (db fr))
             (step_order fr),
     inr (RunStep.mk run_id (step_order fr) ty i o None e d)).
Proof. reflexivity. Qed.

Lemma load_history_eq run_id user_id conversation_id st :
  load_history run_id user_id conversation_id (mkFrame st 0)
  = (mkFrame (foldl (λ s x, insert_step x s) st
                    (history_steps run_id (history_of st user_id conversation_id)))
             (Z.of_nat (length (history_steps run_id
                                  (history_of st user_id conversation_id)))),
     inr (history_of st user_id conversation_id)).
Proof.
  unfold load_history, history_of.
  destruct (truthy_id conversation_id); [|done].
  unfold mbind, ST_bind, st_get. cbn [db].
  by destruct (ConversationService.get_conversation_history _ _ _).
Qed.

(** Reads of one table do not see the writes to another. *)
Lemma runs_commit_row run_id st : runs (commit_row run_id st) = runs st.
Proof. unfold commit_row. by destruct (runs st !! run_id). Qed.

Lemma conversations_commit_row run_id st :
  conversations (commit_row run_id st) = conversations st.
Proof. unfold commit_row. by destruct (runs st !! run_id). Qed.

Lemma messages_commit_row run_id st : messages (commit_row run_id st) = messages st.
Proof. unfold commit_row. by destruct (runs st !! run_id). Qed.

Lemma run_steps_commit_row run_id st : run_steps (commit_row run_id st) = run_steps st.
Proof. unfold commit_row. by destruct (runs st !! run_id). Qed.

Lemma commits_commit_row run_id st r :
  runs st !! run_id = Some r →
  commits (commit_row run_id st) = commits st ++ [CommitRun run_id r].
Proof. unfold commit_row. by intros ->. Qed.

Lemma conversations_log st l :
  conversations (foldl (λ s x, insert_step x s) st l) = conversations st.
Proof. revert st. induction l as [|x l IH]; intros st; [done|]. cbn. by rewrite IH. Qed.

Lemma messages_log st l : messages (foldl (λ s x, insert_step x s) st l) = messages st.
Proof. revert st. induction l as [|x l IH]; intros st; [done|]. cbn. by rewrite IH. Qed.

Lemma runs_log st l : runs (foldl (λ s x, insert_step x s) st l) = runs st.
Proof. revert st. induction l as [|x l IH]; intros st; [done|]. cbn. by rewrite IH. Qed.

Lemma run_steps_log st l :
  run_steps (foldl (λ s x, insert_step x s) st l) = run_steps st ++ l.
Proof.
  revert st. induction l as [|x l IH]; intros st; cbn.
  - by rewrite app_nil_r.
  - rewrite IH. cbn. by rewrite <- app_assoc.
Qed.

Lemma runs_tell st l : runs (foldl (λ s m, insert_message m s) st l) = runs st.
Proof. revert st. induction l as [|x l IH]; intros st; [done|]. cbn. by rewrite IH. Qed.

Lemma run_steps_tell st l :
  run_steps (foldl (λ s m, insert_message m s) st l) = run_steps st.
Proof. revert st. induction l as [|x l IH]; intros st; [done|]. cbn. by rewrite IH. Qed.

Lemma messages_tell st l :
  messages (foldl (λ s m, insert_message m s) st l) = messages st ++ l.
Proof.
  revert st. induction l as [|x l IH]; intros st; cbn.
  - by rewrite app_nil_r.
  - rewrite IH. cbn. by rewrite <- app_assoc.
Qed.

Lemma commits_tell st l :
  commits (foldl (λ s m, insert_message m s) st l) = commits st ++ map CommitMessage l.
Proof.
  revert st. induction l as [|x l IH]; intros st; cbn.
  - by rewrite app_nil_r.
  - rewrite IH. cbn. by rewrite <- app_assoc.
Qed.

Lemma history_of_started E run_id st user_id conversation_id :
  history_of (commit_row run_id (update_run run_id (mark_running (utcnow_started E)) st))
             user_id conversation_id
  = history_of st user_id conversation_id.
Proof.
  unfold history_of, ConversationService.get_conversation_history,
    ConversationService.get_conversation, ConversationService.messages_of.
  by rewrite conversations_commit_row, messages_commit_row.
Qed.

Lemma get_conversation_prepared E run_id input st user_id conversation_id c u :
  ConversationService.get_conversation
    (prepared E run_id input st user_id conversation_id) c u
  = ConversationService.get_conversation st c u.
Proof.
  unfold ConversationService.get_conversation, prepared.
  by rewrite conversations_log, conversations_commit_row.
Qed.

Lemma runs_prepared E run_id input st user_id conversation_id :
  runs (prepared E run_id input st user_id conversation_id)
  = alter (mark_running (utcnow_started E)) run_id (runs st).
Proof. unfold prepared. by rewrite runs_log, runs_commit_row. Qed.

Lemma run_steps_prepared E run_id input st user_id conversation_id :
  run_steps (prepared E run_id input st user_id conversation_id)
  = run_steps st ++ setup_steps run_id (history_of st user_id conversation_id) input.
Proof. unfold prepared. by rewrite run_steps_log, run_steps_commit_row. Qed.

Lemma messages_prepared E run_id input st user_id conversation_id :
  messages (prepared E run_id input st user_id conversation_id) = messages st.
Proof. unfold prepared. by rewrite messages_log, messages_commit_row. Qed.

Lemma st_bind_eq {S A B} (m : ST S A) (f : A → ST S B) s :
  (m ≫= f) s = match m s with
               | (s', inl e) => (s', inl e)
               | (s', inr a) => f a s'
               end.
Proof. reflexivity. Qed.

Lemma assign_and_commit {B} run_id attr f (g : ST Frame B) fr :
  (_ ← on_db (assign_run (Some run_id) attr f); g) fr
  = g (mkFrame (update_run run_id f (db fr)) (step_order fr)).
Proof. reflexivity. Qed.

Lemma commit_run_eq run_id fr :
  on_db (commit_run (Some run_id)) fr
  = (mkFrame (commit_row run_id (db fr)) (step_order fr), inr ()).
Proof. reflexivity. Qed.

Lemma add_message_eq c u role content st k :
  on_db (ConversationService.add_message c u role content) (mkFrame st k)
  = match ConversationService.get_conversation st c u with
    | Some _ => (mkFrame (insert_message (Message.mk c role content) st) k,
                 inr (Message.mk c role content))
    | None => (mkFrame st k, inl (HTTPException 404 "Conversation not found"))
    end.
Proof.
  unfold on_db, ConversationService.add_message. cbn [db step_order].
  by destruct (ConversationService.get_conversation st c u).
Qed.

Lemma get_conversation_insert_message m st c u :
  ConversationService.get_conversation (insert_message m st) c u
  = ConversationService.get_conversation st c u.
Proof. reflexivity. Qed.

Lemma on_agent_error_eq E run_id e st k :
  on_agent_error E run_id (Some run_id) e (mkFrame st k)
  = (mkFrame (commit_row run_id
                (update_run run_id (mark_failed (exn_str e) (utcnow_completed E))
                   (insert_step (error_step run_id k e) st))) k,
     inr ()).
Proof. reflexivity. Qed.

Lemma on_fatal_error_eq E run_id e st k :
  is_Some (runs st !! run_id) →
  on_fatal_error E run_id e (mkFrame st k)
  = (mkFrame (insert_step (error_step run_id k e)
                (commit_row run_id
                   (update_run run_id
                      (mark_failed ("Fatal error: " +:+ exn_str e) (utcnow_completed E))
                      st))) k,
     inr ()).
Proof.
  intros Hr. unfold on_fatal_error.
  rewrite st_bind_eq. unfold on_db at 1, query_run. cbn [db step_order].
  destruct (decide (is_Some (runs st !! run_id))) as [_|Hn]; [|done]. reflexivity.
Qed.

(** The inner [try] with its handler, from the storage [p]. *)
Lemma run_agent_eq E run_id a h input user_id conversation_id p k :
  st_try (run_agent E run_id (Some run_id) a h input user_id conversation_id)
         (on_agent_error E run_id (Some run_id)) (mkFrame p k)
  = (mkFrame
       match llama_run E a (full_input h input) with
       | inl e =>
           commit_row run_id
             (update_run run_id (mark_failed (exn_str e) (utcnow_completed E))
                (insert_step (error_step run_id k e) p))
       | inr output_text =>
           if truthy_id conversation_id &&
              bool_decide (ConversationService.get_conversation
                             p (default 0 conversation_id) user_id = None)
           then
             commit_row run_id
               (update_run run_id
                  (mark_failed (exn_str (HTTPException 404 "Conversation not found"))
                               (utcnow_completed E))
                  (insert_step
                     (error_step run_id k (HTTPException 404 "Conversation not found"))
                     p))
           else
             commit_row run_id
               (update_run run_id (mark_completed output_text (utcnow_completed E))
                  (insert_step (final_step run_id k output_text (elapsed_ms E))
                     (foldl (λ s m, insert_message m s) p
                        (turns conversation_id input output_text))))
       end k,
     inr ()).
Proof.
  unfold st_try, run_agent. rewrite st_bind_eq. unfold st_answer.
  destruct (llama_run E a (full_input h input)) as [e|out].
  - by rewrite on_agent_error_eq.
  - rewrite st_bind_eq. unfold turns.
    destruct (truthy_id conversation_id); cbn [andb].
    + rewrite st_bind_eq, add_message_eq.
      destruct (ConversationService.get_conversation p _ user_id) as [cv|] eqn:Hc.
      * rewrite bool_decide_eq_false_2 by done.
        rewrite st_bind_eq, add_message_eq, get_conversation_insert_message, Hc.
        reflexivity.
      * rewrite bool_decide_eq_true_2 by done. by rewrite on_agent_error_eq.
    + reflexivity.
Qed.

(** On an existing run, [execute_run] returns normally and leaves the
    storage [finished]. *)
Lemma execute_run_finished E run_id agent input st user_id conversation_id :
  is_Some (runs st !! run_id) →
  execute_run E run_id agent input st user_id conversation_id
  = (finished E run_id agent input st user_id conversation_id, None).
Proof.
  intros Hr.
  unfold execute_run, execute_run_body, finished, outcome_of.
  pose proof (get_conversation_prepared E run_id input st user_id conversation_id
                (default 0 conversation_id) user_id) as Hc.
  assert (is_Some (runs (prepared E run_id input st user_id conversation_id) !! run_id))
    as Hp.
  { destruct Hr as [r Hr]. rewrite runs_prepared, lookup_alter_eq, Hr. by eexists. }
  unfold prepared, setup_steps in *.
  unfold st_try at 1. rewrite st_bind_eq.
  unfold on_db at 1, query_run. cbn [db step_order].
  destruct (decide (is_Some (runs st !! run_id))) as [_|Hn]; [|done].
  rewrite assign_and_commit, st_bind_eq, commit_run_eq. cbn [db step_order].
  rewrite st_bind_eq, load_history_eq, !history_of_started.
  set (h := history_of st user_id conversation_id) in *.
  rewrite st_bind_eq, log_here_eq. cbn [db step_order].
  rewrite st_bind_eq. unfold incr_step_order at 1, st_modify at 1. cbn [db step_order].
  rewrite st_bind_eq, build_agent_pure.
  rewrite foldl_app in *. cbn [foldl] in *.
  set (p := insert_step _ _) in *.
  set (k := Z.of_nat (length (history_steps run_id h)) + 1).
  replace (Z.of_nat (length (history_steps run_id h ++
             [input_step run_id (Z.of_nat (length (history_steps run_id h))) input])))
    with k by (rewrite length_app; cbn; lia).
  destruct (built E agent user_id) as [e|a].
  - by rewrite on_fatal_error_eq.
  - rewrite run_agent_eq. cbn [db]. rewrite Hc.
    destruct (llama_run E a (full_input h input)) as [e|out]; [done|].
    destruct (truthy_id conversation_id); cbn [andb]; [|done].
    by destruct (ConversationService.get_conversation st _ user_id).
Qed.

(** On a run that does not exist, both handlers fail on [None] and the
    [AttributeError] escapes; nothing is written. *)
Lemma execute_run_missing E run_id agent input st user_id conversation_id :
  runs st !! run_id = None →
  execute_run E run_id agent input st user_id conversation_id
  = (st, Some (AttributeError "NoneType" "status")).
Proof.
  intros Hr.
  unfold execute_run, execute_run_body, on_fatal_error, st_try, mbind, ST_bind, on_db,
    query_run.
  cbn [db step_order].
  destruct (decide (is_Some (runs st !! run_id))) as [Hs|_];
    [rewrite Hr in Hs; by destruct Hs|].
  cbn [assign_run st_raise db step_order].
  destruct (decide (is_Some (runs st !! run_id))) as [Hs|_];
    [rewrite Hr in Hs; by destruct Hs|].
  reflexivity.
Qed.


(** *** What an execution leaves in each table *)

(** Reading a table through the last two writes of [finished]. *)
Ltac through_writes :=
  do 2 (rewrite ?runs_commit_row, ?run_steps_commit_row, ?messages_commit_row;
        cbn [runs run_steps messages insert_step update_run
             with_runs with_commits with_run_steps]).

Lemma runs_finished E run_id agent input st user_id conversation_id r :
  runs st !! run_id = Some r →
  runs (finished E run_id agent input st user_id conversation_id) !! run_id
  = Some (close_run E (outcome_of E agent input st user_id conversation_id)
                    (mark_running (utcnow_started E) r)).
Proof.
  intros Hr. unfold finished.
  destruct (outcome_of E agent input st user_id conversation_id); cbn [close_run];
    through_writes; rewrite ?runs_tell, runs_prepared, !lookup_alter_eq, Hr; reflexivity.
Qed.

Lemma run_steps_finished E run_id agent input st user_id conversation_id :
  run_steps (finished E run_id agent input st user_id conversation_id)
  = run_steps st
    ++ setup_steps run_id (history_of st user_id conversation_id) input
    ++ [closing_step E run_id
          (Z.of_nat (length (setup_steps run_id
                               (history_of st user_id conversation_id) input)))
          (outcome_of E agent input st user_id conversation_id)].
Proof.
  unfold finished.
  destruct (outcome_of E agent input st user_id conversation_id); cbn [closing_step];
    through_writes; rewrite ?run_steps_tell, run_steps_prepared; by rewrite <- app_assoc.
Qed.

Lemma messages_finished E run_id agent input st user_id conversation_id :
  messages (finished E run_id agent input st user_id conversation_id)
  = messages st
    ++ match outcome_of E agent input st user_id conversation_id with
       | Answer output_text => turns conversation_id input output_text
       | _ => []
       end.
Proof.
  unfold finished.
  destruct (outcome_of E agent input st user_id conversation_id);
    through_writes; rewrite ?messages_tell, messages_prepared; by rewrite ?app_nil_r.
Qed.

(** The last commit of the run by an execution is the commit of the row it
    leaves. *)
Lemma committed_run_finished E run_id agent input st user_id conversation_id r :
  runs st !! run_id = Some r →
  committed_run (finished E run_id agent input st user_id conversation_id) run_id
  = Some (close_run E (outcome_of E agent input st user_id conversation_id)
                    (mark_running (utcnow_started E) r)).
Proof.
  intros Hr. unfold committed_run, finished.
  destruct (outcome_of E agent input st user_id conversation_id); cbn [close_run].
  - cbn [insert_step commits with_commits with_run_steps].
    erewrite commits_commit_row; last first.
    { cbn [runs update_run with_runs].
      by rewrite runs_prepared, !lookup_alter_eq, Hr. }
    rewrite !foldl_app. cbn [foldl]. by rewrite decide_True.
  - erewrite commits_commit_row; last first.
    { cbn [runs update_run with_runs insert_step with_commits with_run_steps].
      by rewrite runs_prepared, !lookup_alter_eq, Hr. }
    rewrite foldl_app. cbn [foldl]. by rewrite decide_True.
  - erewrite commits_commit_row; last first.
    { cbn [runs update_run with_runs insert_step with_commits with_run_steps].
      by rewrite runs_tell, runs_prepared, !lookup_alter_eq, Hr. }
    rewrite foldl_app. cbn [foldl]. by rewrite decide_True.
Qed.

Lemma steps_of_app st run_id new :
  Forall (λ s, RunStep.run_id s = run_id) new →
  filter (λ s, RunStep.run_id s = run_id) (run_steps st ++ new) = steps_of st run_id ++ new.
Proof.
  intros H. rewrite filter_app. f_equal.
  induction H as [|x l Hx _ IH]; [done|].
  by rewrite filter_cons_True, IH.
Qed.

Lemma setup_steps_run_id run_id h input :
  Forall (λ s, RunStep.run_id s = run_id) (setup_steps run_id h input).
Proof.
  unfold setup_steps, history_steps. destruct h; repeat constructor.
Qed.

Lemma closing_step_run_id E run_id k o : RunStep.run_id (closing_step E run_id k o) = run_id.
Proof. by destruct o. Qed.

(** The steps of the run after an execution: those it had, the setup steps
    and the closing step. *)
Lemma steps_of_finished E run_id agent input st user_id conversation_id :
  steps_of (finished E run_id agent input st user_id conversation_id) run_id
  = steps_of st run_id
    ++ setup_steps run_id (history_of st user_id conversation_id) input
    ++ [closing_step E run_id
          (Z.of_nat (length (setup_steps run_id
                               (history_of st user_id conversation_id) input)))
          (outcome_of E agent input st user_id conversation_id)].
Proof.
  unfold steps_of at 1. rewrite run_steps_finished. apply steps_of_app.
  apply Forall_app. split; [apply setup_steps_run_id|].
  repeat constructor. apply closing_step_run_id.
Qed.

(** The orders of the recorded steps count up from 0. *)
Lemma new_step_orders E run_id h input o :
  map RunStep.step_order
      (setup_steps run_id h input
       ++ [closing_step E run_id (Z.of_nat (length (setup_steps run_id h input))) o])
  = map Z.of_nat (seq 0 (length (setup_steps run_id h input) + 1)).
Proof.
  unfold setup_steps, history_steps. destruct h; destruct o; reflexivity.
Qed.

Lemma lookup_count_up n i a :
  map Z.of_nat (seq 0 n) !! i = Some a → a = Z.of_nat i ∧ (i < n)%nat.
Proof.
  change (map Z.of_nat (seq 0 n)) with (Z.of_nat <$> seq 0 n).
  rewrite list_lookup_fmap. intros H.
  destruct (seq 0 n !! i) as [x|] eqn:Hx; [|discriminate H].
  apply lookup_seq in Hx as [-> ?]. injection H as <-. split; [done | lia].
Qed.

Lemma NoDup_count_up n : NoDup (map Z.of_nat (seq 0 n)).
Proof.
  change (map Z.of_nat (seq 0 n)) with (Z.of_nat <$> seq 0 n).
  apply NoDup_fmap_2; [apply _ | apply NoDup_seq].
Qed.

Lemma count_up_length (l : list Z) n :
  l = map Z.of_nat (seq 0 n) → l = map Z.of_nat (seq 0 (length l)).
Proof. intros ->. by rewrite length_map, length_seq. Qed.

(** The trace of a run that had no step counts up from 0. *)
Lemma fresh_run_step_orders E run_id agent input st user_id conversation_id :
  steps_of st run_id = [] →
  ∃ n, map RunStep.step_order
           (steps_of (execute_run E run_id agent input st user_id conversation_id).1
                     run_id)
       = map Z.of_nat (seq 0 n).
Proof.
  intros Hfresh. destruct (runs st !! run_id) as [r|] eqn:Hr.
  - rewrite execute_run_finished by (by eexists). cbn [fst].
    rewrite steps_of_finished, Hfresh, app_nil_l, new_step_orders. by eexists.
  - rewrite execute_run_missing by done. cbn [fst]. rewrite Hfresh. by exists 0%nat.
Qed.

(** *** The claims about [execute_run] *)

(** C1.  Executed on an existing run (in PENDING or any other state), for
    every behaviour of the agent constructors and of the loop and with a
    storage whose writes succeed,
    [execute_run] returns without an exception and leaves the run COMPLETED or
    FAILED, never RUNNING or PENDING, and this row is the row that its last
    commit of the run made durable; it is COMPLETED exactly when the agent
    was built, the loop answered and the turns could be appended; and
    whenever it is FAILED (the setup raised, the loop raised, or anything
    else raised inside) its [error_message] is set and an ERROR step of the
    run is recorded. *)
Theorem C1_execute_run_ends_terminal (E : Env) (run_id : Z) (agent : Agent.t)
    (input_text : string) (st : DB) (user_id : Z) (conversation_id : option Z) (r : Run.t) :
  runs st !! run_id = Some r →
  Run.status r = PENDING →
  ∃ st' r',
    execute_run E run_id agent input_text st user_id conversation_id = (st', None) ∧
    runs st' !! run_id = Some r' ∧
    committed_run st' run_id = Some r' ∧
    (Run.status r' = COMPLETED ∨ Run.status r' = FAILED) ∧
    (Run.status r' = COMPLETED ↔
       ∃ output_text,
         outcome_of E agent input_text st user_id conversation_id = Answer output_text) ∧
    (Run.status r' = FAILED →
       is_Some (Run.error_message r') ∧
       ∃ s, s ∈ steps_of st' run_id ∧ RunStep.step_type s = ERROR).
Proof.
  intros Hr _.
  exists (finished E run_id agent input_text st user_id conversation_id).
  eexists. split; [by apply execute_run_finished|].
  split; [by apply runs_finished|].
  split; [by apply committed_run_finished|].
  pose proof (steps_of_finished E run_id agent input_text st user_id conversation_id)
    as Hsteps.
  destruct (outcome_of E agent input_text st user_id conversation_id) as [e|e|out];
    cbn [close_run mark_failed mark_completed Run.status Run.error_message].
  - split; [by right|]. split; [split; [done | by intros [? ?]]|]. intros _.
    split; [by eexists|]. eexists. split.
    + rewrite Hsteps, !elem_of_app. right. right. apply list_elem_of_singleton.
      reflexivity.
    + reflexivity.
  - split; [by right|]. split; [split; [done | by intros [? ?]]|]. intros _.
    split; [by eexists|]. eexists. split.
    + rewrite Hsteps, !elem_of_app. right. right. apply list_elem_of_singleton.
      reflexivity.
    + reflexivity.
  - split; [by left|]. split; [split; [by eexists | done]|]. done.
Qed.

Lemma C1_execute_run_ends_terminal_witness :
  ∃ st' r',
    execute_run Sample.env_llm_down 1 Sample.agent "What is 2+2?" Sample.storage 7 None
      = (st', None) ∧
    runs st' !! 1 = Some r' ∧
    committed_run st' 1 = Some r' ∧
    (Run.status r' = COMPLETED ∨ Run.status r' = FAILED) ∧
    (Run.status r' = COMPLETED ↔
       ∃ output_text,
         outcome_of Sample.env_llm_down Sample.agent "What is 2+2?" Sample.storage 7 None
         = Answer output_text) ∧
    (Run.status r' = FAILED →
       is_Some (Run.error_message r') ∧
       ∃ s, s ∈ steps_of st' 1 ∧ RunStep.step_type s = ERROR).
Proof.
  apply (C1_execute_run_ends_terminal Sample.env_llm_down 1 Sample.agent "What is 2+2?"
           Sample.storage 7 None (Sample.pending_run None)).
  - reflexivity.
  - reflexivity.
Defined.

(** The end-to-end example of the specification: no tools, no history. *)
Example run_two_plus_two :
  (execute_run Sample.env 1 Sample.agent "What is 2+2?" Sample.storage 7 None).2 = None ∧
  run_steps (execute_run Sample.env 1 Sample.agent "What is 2+2?" Sample.storage 7 None).1
    = [input_step 1 0 "What is 2+2?"; final_step 1 1 "4" 37] ∧
  runs (execute_run Sample.env 1 Sample.agent "What is 2+2?" Sample.storage 7 None).1 !! 1
    = Some (Run.mk "What is 2+2?" (Some "4") COMPLETED None 7 1 None (Some 100) (Some 200)).
Proof. repeat split; reflexivity. Qed.

(** C2.  For a run that has no step yet, the step orders of the steps of the
    run after [execute_run], in the order of recording, are 0, 1, 2, ...
    without a gap; hence they increase strictly and no two are equal. *)
Theorem C2_step_orders_count_up (E : Env) (run_id : Z) (agent : Agent.t)
    (input_text : string) (st : DB) (user_id : Z) (conversation_id : option Z) :
  steps_of st run_id = [] →
  let st' := (execute_run E run_id agent input_text st user_id conversation_id).1 in
  let orders := map RunStep.step_order (steps_of st' run_id) in
  orders = map Z.of_nat (seq 0 (length orders)) ∧
  (∀ i j a b, orders !! i = Some a → orders !! j = Some b → (i < j)%nat → a < b) ∧
  NoDup orders.
Proof.
  intros Hfresh st' orders.
  destruct (fresh_run_step_orders E run_id agent input_text st user_id conversation_id
              Hfresh) as [n Hn].
  fold st' in Hn. fold orders in Hn. rewrite Hn. split; [|split].
  - by rewrite length_map, length_seq.
  - intros i j a b Hi Hj Hij.
    apply lookup_count_up in Hi as [-> _]. apply lookup_count_up in Hj as [-> _]. lia.
  - apply NoDup_count_up.
Qed.

Lemma C2_step_orders_count_up_witness :
  map RunStep.step_order
      (steps_of (execute_run Sample.env 1 Sample.agent "What is 2+2?"
                   Sample.storage_with_history 7 (Some 5)).1 1)
  = [0; 1; 2].
Proof.
  exact (proj1 (C2_step_orders_count_up Sample.env 1 Sample.agent "What is 2+2?"
                  Sample.storage_with_history 7 (Some 5) eq_refl)).
Defined.

(** C5 as stated fails: conversation 5 exists and belongs to the caller, but
    it has no message yet, and the execution records the input step and the
    final answer only, no step about the history. *)
Lemma C5_counterexample :
  is_Some (ConversationService.get_conversation Sample.storage_empty_conversation 5 7) ∧
  steps_of (execute_run Sample.env 1 Sample.agent "What is 2+2?"
              Sample.storage_empty_conversation 7 (Some 5)).1 1
    = [input_step 1 0 "What is 2+2?"; final_step 1 1 "4" 37] ∧
  length (filter (λ s, is_history_note s = true)
            (steps_of (execute_run Sample.env 1 Sample.agent "What is 2+2?"
                         Sample.storage_empty_conversation 7 (Some 5)).1 1))
    ≠ 1%nat.
Proof.
  split; [by eexists|]. split; [reflexivity|]. vm_compute. discriminate.
Qed.

(** C5 (amended).  Executed on an existing run with a non-zero
    conversation id that refers to a conversation of the caller,
    [execute_run] records, after the steps the run already had: if the
    conversation has [n > 0] messages, exactly one step that notes the history
    (step order 0, [Loaded n previous messages]), immediately followed by the
    step with the raw task input (step order 1) and by one closing step; if
    the conversation has no message, the step with the raw task input (step
    order 0) and one closing step, and no step about the history. *)
Theorem C5_one_history_note_iff_messages (E : Env) (run_id : Z) (agent : Agent.t)
    (input_text : string) (st : DB) (user_id : Z) (c : Z) :
  is_Some (runs st !! run_id) →
  c ≠ 0 →
  is_Some (ConversationService.get_conversation st c user_id) →
  let st' := (execute_run E run_id agent input_text st user_id (Some c)).1 in
  let n := length (ConversationService.messages_of st c) in
  ∃ recorded closing,
    steps_of st' run_id = steps_of st run_id ++ recorded ∧
    recorded = match n with
               | O => [input_step run_id 0 input_text; closing]
               | S _ => [history_note run_id n; input_step run_id 1 input_text; closing]
               end ∧
    length (filter (λ s, is_history_note s = true) recorded) = Nat.min 1 n ∧
    is_history_note (history_note run_id n) = true ∧
    is_input_step (input_step run_id 1 input_text) = true.
Proof.
  intros Hr Hc [cv Hcv] st' n. subst st' n.
  rewrite execute_run_finished by done. cbn [fst].
  rewrite steps_of_finished.
  assert (truthy_id (Some c) = true) as Ht
    by (cbn; by rewrite (proj2 (Z.eqb_neq c 0))).
  unfold history_of. rewrite Ht. cbn [default id].
  unfold ConversationService.get_conversation_history. rewrite Hcv.
  assert (∀ k o, is_history_note (closing_step E run_id k o) = false) as Hclosing
    by (intros k o; by destruct o).
  destruct (ConversationService.messages_of st c) as [|m l] eqn:Hl.
  - eexists. eexists. split; [reflexivity|]. split; [reflexivity|].
    split; [|done]. cbn [map setup_steps history_steps app length].
    rewrite filter_cons_False by (cbn; discriminate).
    rewrite filter_cons_False by (rewrite Hclosing; discriminate). done.
  - eexists. eexists. split; [reflexivity|]. split.
    + unfold setup_steps, history_steps, loaded_note, history_note.
      cbn [map app length]. rewrite length_map. reflexivity.
    + split; [|done]. cbn [map setup_steps history_steps app length].
      rewrite filter_cons_True by done.
      rewrite filter_cons_False by (cbn; discriminate).
      rewrite filter_cons_False by (rewrite Hclosing; discriminate). done.
Qed.

Lemma C5_one_history_note_iff_messages_witness :
  ∃ recorded closing,
    steps_of (execute_run Sample.env 1 Sample.agent "What is 2+2?"
                Sample.storage_with_history 7 (Some 5)).1 1
      = steps_of Sample.storage_with_history 1 ++ recorded ∧
    recorded = [history_note 1 1; input_step 1 1 "What is 2+2?"; closing] ∧
    length (filter (λ s, is_history_note s = true) recorded) = 1%nat ∧
    is_history_note (history_note 1 1) = true ∧
    is_input_step (input_step 1 1 "What is 2+2?") = true.
Proof.
  apply (C5_one_history_note_iff_messages Sample.env 1 Sample.agent "What is 2+2?"
           Sample.storage_with_history 7 5).
  - by eexists.
  - lia.
  - by eexists.
Defined.

(** C6 as stated fails: the agent is built and the loop answers, but the
    attached conversation does not exist (any more), appending the turns
    raises, and the run ends FAILED with an ERROR step and no final answer. *)
Lemma C6_counterexample :
  match built Sample.env Sample.agent 7 with
  | inr llama_agent =>
      llama_run Sample.env llama_agent
        (full_input (history_of Sample.storage_conversation_gone 7 (Some 5)) "What is 2+2?")
  | inl e => inl e
  end = inr "4" ∧
  Run.status <$>
    runs (execute_run Sample.env 1 Sample.agent "What is 2+2?"
            Sample.storage_conversation_gone 7 (Some 5)).1 !! 1 = Some FAILED ∧
  run_steps (execute_run Sample.env 1 Sample.agent "What is 2+2?"
               Sample.storage_conversation_gone 7 (Some 5)).1
    = [input_step 1 0 "What is 2+2?";
       error_step 1 1 (HTTPException 404 "Conversation not found")] ∧
  messages (execute_run Sample.env 1 Sample.agent "What is 2+2?"
              Sample.storage_conversation_gone 7 (Some 5)).1 = [].
Proof. repeat split; reflexivity. Qed.

(** In general: when the loop answers but the attached conversation is not
    there for the user, the execution goes the way of the inner handler. *)
Lemma answer_without_conversation E agent input_text st user_id conversation_id
    llama_agent output_text :
  built E agent user_id = inr llama_agent →
  llama_run E llama_agent (full_input (history_of st user_id conversation_id) input_text)
    = inr output_text →
  truthy_id conversation_id = true →
  ConversationService.get_conversation st (default 0 conversation_id) user_id = None →
  outcome_of E agent input_text st user_id conversation_id
  = AgentError (HTTPException 404 "Conversation not found").
Proof. intros Hb Hl Ht Hc. unfold outcome_of. by rewrite Hb, Hl, Ht, Hc. Qed.

(** C6 (amended).  When the agent is built, the loop answers, and the
    conversation id is zero or absent or refers to a conversation of the
    caller, [execute_run] on an existing run returns normally and its last
    commits are, in this order: the user turn and the assistant turn (only
    for a non-zero conversation id), the FINAL_ANSWER step with the answer
    and the elapsed duration, and the run with status COMPLETED, the answer
    as [output_text] and [completed_at] stamped.  The messages table grows by
    exactly these turns and the steps table ends with that step. *)
Theorem C6_success_path_in_order (E : Env) (run_id : Z) (agent : Agent.t)
    (input_text : string) (st : DB) (user_id : Z) (conversation_id : option Z)
    (r : Run.t) (llama_agent : AgentBuilder.ReActAgent) (output_text : string) :
  runs st !! run_id = Some r →
  built E agent user_id = inr llama_agent →
  llama_run E llama_agent (full_input (history_of st user_id conversation_id) input_text)
    = inr output_text →
  (truthy_id conversation_id = true →
   is_Some (ConversationService.get_conversation st (default 0 conversation_id) user_id)) →
  ∃ st' r' k earlier,
    execute_run E run_id agent input_text st user_id conversation_id = (st', None) ∧
    commits st'
      = earlier
        ++ map CommitMessage (turns conversation_id input_text output_text)
        ++ [CommitStep (final_step run_id k output_text (elapsed_ms E));
            CommitRun run_id r'] ∧
    messages st' = messages st ++ turns conversation_id input_text output_text ∧
    (∃ before,
       run_steps st' = before ++ [final_step run_id k output_text (elapsed_ms E)]) ∧
    runs st' !! run_id = Some r' ∧
    Run.status r' = COMPLETED ∧
    Run.output_text r' = Some output_text ∧
    Run.completed_at r' = Some (utcnow_completed E).
Proof.
  intros Hr Hb Hl Hc.
  assert (outcome_of E agent input_text st user_id conversation_id = Answer output_text)
    as Ho.
  { unfold outcome_of. rewrite Hb, Hl.
    destruct (truthy_id conversation_id); [|done].
    by destruct (Hc eq_refl) as [cv ->]. }
  pose proof (runs_finished E run_id agent input_text st user_id conversation_id r Hr)
    as Hruns.
  pose proof (run_steps_finished E run_id agent input_text st user_id conversation_id)
    as Hsteps.
  pose proof (messages_finished E run_id agent input_text st user_id conversation_id)
    as Hmsgs.
  rewrite Ho in Hruns, Hsteps, Hmsgs. cbn [close_run closing_step] in Hruns, Hsteps.
  clear Hb Hl Hc.
  exists (finished E run_id agent input_text st user_id conversation_id).
  exists (mark_completed output_text (utcnow_completed E)
                         (mark_running (utcnow_started E) r)).
  exists (Z.of_nat (length (setup_steps run_id (history_of st user_id conversation_id)
                                        input_text))).
  exists (commits (prepared E run_id input_text st user_id conversation_id)).
  split; [apply execute_run_finished; by eexists|].
  split; [|split; [exact Hmsgs|split; [|split; [exact Hruns|done]]]].
  - unfold finished. rewrite Ho.
    erewrite commits_commit_row; last first.
    { cbn [runs update_run insert_step with_runs with_commits with_run_steps].
      by rewrite lookup_alter_eq, runs_tell, runs_prepared, lookup_alter_eq, Hr. }
    cbn [commits update_run insert_step with_runs with_commits with_run_steps].
    rewrite commits_tell. cbn [close_run]. by rewrite <- !app_assoc.
  - eexists. rewrite Hsteps. by rewrite app_assoc.
Qed.

Lemma C6_success_path_in_order_witness :
  ∃ st' r' k earlier,
    execute_run Sample.env 1 Sample.agent "What is 2+2?" Sample.storage_with_history
                7 (Some 5) = (st', None) ∧
    commits st'
      = earlier
        ++ map CommitMessage (turns (Some 5) "What is 2+2?" "4")
        ++ [CommitStep (final_step 1 k "4" (elapsed_ms Sample.env)); CommitRun 1 r'] ∧
    messages st' = messages Sample.storage_with_history ++ turns (Some 5) "What is 2+2?" "4" ∧
    (∃ before, run_steps st' = before ++ [final_step 1 k "4" (elapsed_ms Sample.env)]) ∧
    runs st' !! 1 = Some r' ∧
    Run.status r' = COMPLETED ∧
    Run.output_text r' = Some "4" ∧
    Run.completed_at r' = Some (utcnow_completed Sample.env).
Proof.
  eapply (C6_success_path_in_order Sample.env 1 Sample.agent "What is 2+2?"
            Sample.storage_with_history 7 (Some 5)).
  - reflexivity.
  - reflexivity.
  - reflexivity.
  - intros _. by eexists.
Defined.

(** *** The dispatcher *)

(** With its agent present, the dispatcher hands the run to [execute_run]. *)
Lemma execute_run_async_dispatches E run_id st run agent :
  runs st !! run_id = Some run →
  agents st !! Run.agent_id run = Some agent →
  RunService.execute_run_async E run_id st
  = execute_run E run_id agent (Run.input_text run) st
                (Run.user_id run) (Run.conversation_id run).
Proof. intros Hr Ha. unfold RunService.execute_run_async. by rewrite Hr, Ha. Qed.

Lemma execute_run_async_agent_missing E run_id st run :
  runs st !! run_id = Some run →
  agents st !! Run.agent_id run = None →
  RunService.execute_run_async E run_id st
  = (commit_row run_id (update_run run_id RunService.mark_agent_missing st), None).
Proof. intros Hr Ha. unfold RunService.execute_run_async. by rewrite Hr, Ha. Qed.

(** C10.  [execute_run_async] on an id without a run returns the storage as
    it was, with no commit; on a run whose agent row is missing it sets the
    status to FAILED and the error message to [Agent not found], commits the
    row, and changes nothing else: no step is recorded, [started_at] and
    [completed_at] keep their values (unset for a fresh run), and the other
    rows and tables are as before. *)
Theorem C10_execute_run_async_guards (E : Env) (run_id : Z) (st : DB) :
  (runs st !! run_id = None → RunService.execute_run_async E run_id st = (st, None)) ∧
  (∀ run,
     runs st !! run_id = Some run →
     agents st !! Run.agent_id run = None →
     ∃ st' run',
       RunService.execute_run_async E run_id st = (st', None) ∧
       runs st' !! run_id = Some run' ∧
       Run.status run' = FAILED ∧
       Run.error_message run' = Some "Agent not found" ∧
       Run.started_at run' = Run.started_at run ∧
       Run.completed_at run' = Run.completed_at run ∧
       Run.output_text run' = Run.output_text run ∧
       Run.input_text run' = Run.input_text run ∧
       run_steps st' = run_steps st ∧
       messages st' = messages st ∧
       (∀ other, other ≠ run_id → runs st' !! other = runs st !! other) ∧
       agents st' = agents st ∧
       conversations st' = conversations st ∧
       documents st' = documents st ∧
       commits st' = commits st ++ [CommitRun run_id run']).
Proof.
  unfold RunService.execute_run_async. split.
  - by intros ->.
  - intros run Hrun Hagent. rewrite Hrun, Hagent.
    exists (commit_row run_id (update_run run_id RunService.mark_agent_missing st)).
    exists (RunService.mark_agent_missing run).
    assert (runs (update_run run_id RunService.mark_agent_missing st) !! run_id
            = Some (RunService.mark_agent_missing run)) as Hnew
      by (cbn; by rewrite lookup_alter_eq, Hrun).
    split; [reflexivity|].
    split; [by rewrite runs_commit_row|].
    do 6 (split; [reflexivity|]).
    split; [by rewrite run_steps_commit_row|].
    split; [by rewrite messages_commit_row|].
    split; [intros other Hne; rewrite runs_commit_row; cbn; by rewrite lookup_alter_ne|].
    unfold commit_row. rewrite Hnew. done.
Qed.

Lemma C10_execute_run_async_guards_witness :
  ∃ st' run',
    RunService.execute_run_async Sample.env 1 Sample.storage_agent_gone = (st', None) ∧
    runs st' !! 1 = Some run' ∧
    Run.status run' = FAILED ∧
    Run.error_message run' = Some "Agent not found" ∧
    Run.started_at run' = Run.started_at (Sample.pending_run None) ∧
    Run.completed_at run' = Run.completed_at (Sample.pending_run None) ∧
    Run.output_text run' = Run.output_text (Sample.pending_run None) ∧
    Run.input_text run' = Run.input_text (Sample.pending_run None) ∧
    run_steps st' = run_steps Sample.storage_agent_gone ∧
    messages st' = messages Sample.storage_agent_gone ∧
    (∀ other, other ≠ 1 → runs st' !! other = runs Sample.storage_agent_gone !! other) ∧
    agents st' = agents Sample.storage_agent_gone ∧
    conversations st' = conversations Sample.storage_agent_gone ∧
    documents st' = documents Sample.storage_agent_gone ∧
    commits st' = commits Sample.storage_agent_gone ++ [CommitRun 1 run'].
Proof.
  apply (proj2 (C10_execute_run_async_guards Sample.env 1 Sample.storage_agent_gone)
               (Sample.pending_run None)).
  - reflexivity.
  - reflexivity.
Defined.


(** *** From creation to execution *)

(** A run whose key is not in the table has no steps. *)
Lemma no_run_no_steps st run_id :
  steps_have_runs st → runs st !! run_id = None → steps_of st run_id = [].
Proof.
  intros Hfk Hnone. unfold steps_of.
  destruct (filter _ (run_steps st)) as [|s l] eqn:Hf; [done|].
  assert (s ∈ filter (λ s, RunStep.run_id s = run_id) (run_steps st)) as Hs
    by (rewrite Hf; left).
  apply list_elem_of_filter in Hs as [Hid Hs]. apply Hfk in Hs as [r Hr].
  rewrite Hid, Hnone in Hr. discriminate Hr.
Qed.

(** [create_run] adds one PENDING row under the new key and nothing else. *)
Lemma create_run_created new_id run_data user_id st st' run_id :
  RunService.create_run new_id run_data user_id st = (st', inr run_id) →
  run_id = new_id ∧
  runs st' = <[new_id := Run.mk (RunCreate.input_text run_data) None PENDING None user_id
                                (RunCreate.agent_id run_data)
                                (RunCreate.conversation_id run_data) None None]> (runs st) ∧
  agents st' = agents st ∧
  run_steps st' = run_steps st.
Proof.
  unfold RunService.create_run.
  destruct (RunService.query_agent_of_user st _ user_id); [|discriminate].
  match goal with |- context [if ?b then _ else _] => destruct b end; [discriminate|].
  destruct (RunService.conversation_exists st _); [|discriminate].
  intros [= <- <-]. rewrite runs_commit_row, run_steps_commit_row.
  split; [done|]. split; [done|]. split; [|done].
  unfold commit_row. by destruct (runs _ !! new_id).
Qed.

Lemma create_run_keeps_foreign_key new_id run_data user_id st :
  steps_have_runs st → steps_have_runs (RunService.create_run new_id run_data user_id st).1.
Proof.
  intros Hfk.
  destruct (RunService.create_run new_id run_data user_id st) as [st' [e|run_id]] eqn:Hc.
  - unfold RunService.create_run in Hc.
    destruct (RunService.query_agent_of_user st _ user_id); [|by injection Hc as <- _].
    match type of Hc with context [if ?b then _ else _] => destruct b end;
      [by injection Hc as <- _|].
    destruct (RunService.conversation_exists st _);
      [discriminate Hc | by injection Hc as <- _].
  - apply create_run_created in Hc as (_ & Hruns & _ & Hsteps). cbn [fst].
    intros s Hs. rewrite Hsteps in Hs. rewrite Hruns.
    apply lookup_insert_is_Some'. right. by apply Hfk.
Qed.

Lemma delete_run_keeps_foreign_key run_id user_id st :
  steps_have_runs st → steps_have_runs (RunService.delete_run run_id user_id st).1.
Proof.
  intros Hfk. unfold RunService.delete_run.
  destruct (RunService.get_run st run_id user_id); [|done].
  intros s Hs. cbn in Hs |- *. apply list_elem_of_filter in Hs as [Hne Hs].
  rewrite lookup_delete_ne by done. by apply Hfk.
Qed.

Lemma is_Some_runs_finished E run_id agent input st user_id conversation_id j :
  is_Some (runs st !! j) →
  is_Some (runs (finished E run_id agent input st user_id conversation_id) !! j).
Proof.
  intros Hj. unfold finished.
  destruct (outcome_of E agent input st user_id conversation_id);
    through_writes; rewrite ?runs_tell, runs_prepared; by rewrite !lookup_alter_is_Some.
Qed.

Lemma execute_run_keeps_foreign_key E run_id agent input st user_id conversation_id :
  steps_have_runs st →
  steps_have_runs (execute_run E run_id agent input st user_id conversation_id).1.
Proof.
  intros Hfk. destruct (runs st !! run_id) as [r|] eqn:Hr.
  - rewrite execute_run_finished by (by eexists). cbn [fst].
    intros s Hs. rewrite run_steps_finished in Hs.
    apply elem_of_app in Hs as [Hs | Hs].
    + apply is_Some_runs_finished. by apply Hfk.
    + assert (RunStep.run_id s = run_id) as ->.
      { apply elem_of_app in Hs as [Hs | Hs].
        - pose proof (setup_steps_run_id run_id
                        (history_of st user_id conversation_id) input) as Hall.
          rewrite Forall_forall in Hall. by apply Hall.
        - apply list_elem_of_singleton in Hs as ->. apply closing_step_run_id. }
      apply is_Some_runs_finished. by eexists.
  - by rewrite execute_run_missing.
Qed.

(** X28. A run as [create_run] leaves it, handed to the dispatcher, still
    exists afterwards, and the step orders of its trace are 0, 1, 2, ...,
    whether or not its agent still exists. *)
Lemma created_run_trace_counts_up E new_id run_data user_id st st1 run_id :
  steps_have_runs st →
  runs st !! new_id = None →
  RunService.create_run new_id run_data user_id st = (st1, inr run_id) →
  let st2 := (RunService.execute_run_async E run_id st1).1 in
  is_Some (runs st2 !! run_id) ∧
  map RunStep.step_order (steps_of st2 run_id)
  = map Z.of_nat (seq 0 (length (steps_of st2 run_id))).
Proof.
  intros Hfk Hfresh Hc st2.
  pose proof (no_run_no_steps st new_id Hfk Hfresh) as Hnone.
  apply create_run_created in Hc as (-> & Hruns & Hagents & Hsteps).
  assert (steps_of st1 new_id = []) as Hnone1 by (unfold steps_of; by rewrite Hsteps).
  assert (runs st1 !! new_id
          = Some (Run.mk (RunCreate.input_text run_data) None PENDING None user_id
                         (RunCreate.agent_id run_data)
                         (RunCreate.conversation_id run_data) None None)) as Hrow
    by (rewrite Hruns; apply lookup_insert_eq).
  subst st2.
  destruct (agents st1 !! RunCreate.agent_id run_data) as [agent|] eqn:Hagent;
    [rewrite (execute_run_async_dispatches E new_id st1 _ agent Hrow Hagent)
    |rewrite (execute_run_async_agent_missing E new_id st1 _ Hrow Hagent)].
  - split.
    + rewrite execute_run_finished by (by eexists). cbn [fst].
      apply is_Some_runs_finished. by eexists.
    + destruct (fresh_run_step_orders E new_id agent (RunCreate.input_text run_data) st1
                  user_id (RunCreate.conversation_id run_data) Hnone1) as [n Hn].
      cbn [Run.input_text Run.user_id Run.conversation_id].
      rewrite <- (length_map RunStep.step_order). exact (count_up_length _ n Hn).
  - cbn [fst]. rewrite runs_commit_row. cbn [runs update_run with_runs].
    rewrite lookup_alter_eq, Hrow. split; [by eexists|].
    unfold steps_of in *. rewrite run_steps_commit_row.
    cbn [run_steps update_run with_runs]. by rewrite Hnone1.
Qed.

End Orchestrator.

(** ** The progress notifier *)

Section Notifier.
Import Streaming.

Lemma changed_progress (run : Run.t) last :
  Forall (λ e, is_progress e = true)
    (if decide (Run.status run ≠ last) then
       [status_event (Run.status run) ("Status: " +:+ status_value (Run.status run))]
     else []).
Proof. case_decide; repeat constructor. Qed.

Lemma heartbeat_not_changed (run : Run.t) last n :
  heartbeat_event n ∉
    (if decide (Run.status run ≠ last) then
       [status_event (Run.status run) ("Status: " +:+ status_value (Run.status run))]
     else []).
Proof.
  case_decide; [|apply not_elem_of_nil].
  intros Hin. apply list_elem_of_singleton in Hin. discriminate Hin.
Qed.

Lemma heartbeat_in_beat pc n :
  heartbeat_event n ∈ (if pc mod 10 =? 0 then [heartbeat_event pc] else [])
  ↔ n = pc ∧ n mod 10 = 0.
Proof.
  destruct (pc mod 10 =? 0) eqn:Hm.
  - apply Z.eqb_eq in Hm. rewrite list_elem_of_singleton. split.
    + intros [= ->]. done.
    + by intros [-> _].
  - apply Z.eqb_neq in Hm. split.
    + intros Hin. by apply elem_of_nil in Hin.
    + intros [-> Hz]. done.
Qed.

(** While no terminal state shows up, the loop runs to the last poll and
    yields a heartbeat exactly on every tenth poll. *)
Lemma poll_loop_quiet refresh :
  ∀ fuel pc last,
    0 ≤ pc →
    pc + Z.of_nat fuel = max_polls →
    quiet refresh pc max_polls →
    ∃ events,
      poll_loop refresh fuel pc last = (events, inr max_polls) ∧
      Forall (λ e, is_progress e = true) events ∧
      ∀ n, heartbeat_event n ∈ events ↔ (pc < n ≤ max_polls ∧ n mod 10 = 0).
Proof.
  induction fuel as [|fuel IH]; intros pc last Hpc Hfuel Hq.
  - exists []. cbn. replace pc with max_polls by lia. split; [done|]. split; [done|].
    intros n. split; [intros H; by apply elem_of_nil in H | lia].
  - cbn [poll_loop]. rewrite (proj2 (Z.ltb_lt pc max_polls)) by lia.
    destruct (Hq (pc + 1)) as (run & -> & Hrun); [lia|].
    rewrite decide_False by (intros Hs; by rewrite Hs in Hrun).
    rewrite decide_False by (intros Hs; by rewrite Hs in Hrun).
    destruct (IH (pc + 1) (Run.status run)) as (events & -> & Hprog & Hbeat);
      [lia | lia | intros n Hn; apply Hq; lia |].
    eexists. split; [reflexivity|]. split.
    + apply Forall_app. split; [apply changed_progress|].
      apply Forall_app. split; [|done]. destruct (_ =? 0); repeat constructor.
    + intros n. rewrite !elem_of_app, heartbeat_in_beat, Hbeat.
      pose proof (heartbeat_not_changed run last n). split; [|intros [? ?]].
      * intros [?|[[-> ?]|[? ?]]]; [done | lia | lia].
      * destruct (decide (n = pc + 1)); [right; left; done | right; right; lia].
Qed.

(** When poll [k] is the first to read a terminal state, the loop stops
    there with the terminal event, after a heartbeat on every tenth poll
    before [k]. *)
Lemma poll_loop_terminal refresh k run :
  refresh k = inr run →
  is_terminal (Run.status run) = true →
  ∀ fuel pc last,
    0 ≤ pc < k →
    k ≤ pc + Z.of_nat fuel →
    k ≤ max_polls →
    quiet refresh pc (k - 1) →
    ∃ events,
      poll_loop refresh fuel pc last = (events ++ [terminal_event run], inr k) ∧
      Forall (λ e, is_progress e = true) events ∧
      ∀ n, heartbeat_event n ∈ events ↔ (pc < n < k ∧ n mod 10 = 0).
Proof.
  intros Hk Hterm.
  induction fuel as [|fuel IH]; intros pc last Hpc Hfuel Hmax Hq; [lia|].
  cbn [poll_loop]. rewrite (proj2 (Z.ltb_lt pc max_polls)) by lia.
  destruct (decide (pc + 1 = k)) as [Heq|Hne].
  - rewrite Heq, Hk. unfold terminal_event.
    exists (if decide (Run.status run ≠ last) then
              [status_event (Run.status run)
                            ("Status: " +:+ status_value (Run.status run))]
            else []).
    split.
    + destruct (decide (Run.status run = COMPLETED)) as [Hc|Hc]; [done|].
      rewrite decide_True; [done|]. by destruct (Run.status run).
    + split; [apply changed_progress|].
      intros n. split; [intros H; by apply heartbeat_not_changed in H | lia].
  - destruct (Hq (pc + 1)) as (run' & -> & Hrun); [lia|].
    rewrite decide_False by (intros Hs; by rewrite Hs in Hrun).
    rewrite decide_False by (intros Hs; by rewrite Hs in Hrun).
    destruct (IH (pc + 1) (Run.status run')) as (events & -> & Hprog & Hbeat);
      [lia | lia | lia | intros n Hn; apply Hq; lia |].
    eexists. split; [by rewrite !app_assoc|]. split.
    + apply Forall_app. split; [|done].
      apply Forall_app. split; [apply changed_progress|].
      destruct (_ =? 0); repeat constructor.
    + intros n. rewrite !elem_of_app, heartbeat_in_beat, Hbeat.
      pose proof (heartbeat_not_changed run' last n). split; [|intros [? ?]].
      * intros [[?|[-> ?]]|[? ?]]; [done | lia | lia].
      * destruct (decide (n = pc + 1)); [left; right; done | right; lia].
Qed.


(** X26. A stream over a run that reaches a terminal state before the last
    poll ends with the terminal event; before it there are only status and
    heartbeat events, a heartbeat exactly on every tenth poll. *)
Lemma stream_ends_with_terminal_event refresh run_id st user_id run0 k run :
  query_run_of_user st run_id user_id = Some run0 →
  0 < k < max_polls →
  quiet refresh 0 (k - 1) →
  refresh k = inr run →
  is_terminal (Run.status run) = true →
  ∃ events,
    stream_run_execution refresh run_id st user_id = events ++ [terminal_event run] ∧
    Forall (λ e, is_progress e = true) events ∧
    ∀ n, heartbeat_event n ∈ events ↔ (0 < n < k ∧ n mod 10 = 0).
Proof.
  intros Hq0 Hk Hquiet Hr Hterm. unfold stream_run_execution. rewrite Hq0.
  destruct (poll_loop_terminal refresh k run Hr Hterm (Z.to_nat max_polls) 0
              (Run.status run0)) as (events & -> & Hprog & Hbeat);
    [lia | unfold max_polls in *; lia | lia | done |].
  rewrite (proj2 (Z.leb_gt max_polls k)) by lia.
  exists (status_event (Run.status run0) "Starting..." :: events).
  split; [by rewrite app_nil_r|]. split; [by constructor|].
  intros n. rewrite elem_of_cons, Hbeat. split; [intros [?|?]; done | by right].
Qed.

(** X27. A stream over a run that reaches no terminal state within the poll
    budget ends with the timeout event, after a heartbeat on every tenth
    poll, the last poll included. *)
Lemma stream_ends_with_timeout refresh run_id st user_id run0 :
  query_run_of_user st run_id user_id = Some run0 →
  quiet refresh 0 max_polls →
  ∃ events,
    stream_run_execution refresh run_id st user_id
      = events ++ [timeout_event "Run execution timeout"] ∧
    Forall (λ e, is_progress e = true) events ∧
    ∀ n, heartbeat_event n ∈ events ↔ (0 < n ≤ max_polls ∧ n mod 10 = 0).
Proof.
  intros Hq0 Hquiet. unfold stream_run_execution. rewrite Hq0.
  destruct (poll_loop_quiet refresh (Z.to_nat max_polls) 0 (Run.status run0))
    as (events & -> & Hprog & Hbeat); [lia | unfold max_polls; lia | done |].
  rewrite Z.leb_refl.
  exists (status_event (Run.status run0) "Starting..." :: events).
  split; [done|]. split; [by constructor|].
  intros n. rewrite elem_of_cons, Hbeat. split; [intros [?|?]; done | by right].
Qed.

(** A stream over a run whose terminal state is first read on the last poll
    yields the terminal event and then also the timeout event. *)
Lemma stream_terminal_on_last_poll refresh run_id st user_id run0 run :
  query_run_of_user st run_id user_id = Some run0 →
  quiet refresh 0 (max_polls - 1) →
  refresh max_polls = inr run →
  is_terminal (Run.status run) = true →
  ∃ events,
    stream_run_execution refresh run_id st user_id
      = events ++ [terminal_event run; timeout_event "Run execution timeout"] ∧
    Forall (λ e, is_progress e = true) events.
Proof.
  intros Hq0 Hquiet Hr Hterm. unfold stream_run_execution. rewrite Hq0.
  destruct (poll_loop_terminal refresh max_polls run Hr Hterm (Z.to_nat max_polls) 0
              (Run.status run0)) as (events & -> & Hprog & _);
    [unfold max_polls; lia | unfold max_polls; lia | lia | done |].
  rewrite Z.leb_refl.
  exists (status_event (Run.status run0) "Starting..." :: events).
  split; [by rewrite <- app_assoc|]. by constructor.
Qed.

(** C7, at the input where the code departs from it: the run is first read
    COMPLETED on the 120th poll.  The stream yields the complete event and
    then a timeout event; it does not end with the terminal event. *)
Theorem C7_complete_on_last_poll_then_timeout :
  stream_run_execution (Sample.completes_at 120) 1 Sample.storage 7
  = [status_event PENDING "Starting...";
     status_event RUNNING "Status: running";
     heartbeat_event 10; heartbeat_event 20; heartbeat_event 30; heartbeat_event 40;
     heartbeat_event 50; heartbeat_event 60; heartbeat_event 70; heartbeat_event 80;
     heartbeat_event 90; heartbeat_event 100; heartbeat_event 110;
     status_event COMPLETED "Status: completed";
     complete_event (Some "4");
     timeout_event "Run execution timeout"].
Proof. vm_compute. reflexivity. Qed.

(** One poll earlier the stream is as the specification has it. *)
Example complete_before_last_poll :
  stream_run_execution (Sample.completes_at 119) 1 Sample.storage 7
  = [status_event PENDING "Starting...";
     status_event RUNNING "Status: running";
     heartbeat_event 10; heartbeat_event 20; heartbeat_event 30; heartbeat_event 40;
     heartbeat_event 50; heartbeat_event 60; heartbeat_event 70; heartbeat_event 80;
     heartbeat_event 90; heartbeat_event 100; heartbeat_event 110;
     status_event COMPLETED "Status: completed";
     complete_event (Some "4")].
Proof. vm_compute. reflexivity. Qed.

(** A run of another user is reported as not found. *)
Example stream_of_foreign_run :
  stream_run_execution (Sample.completes_at 3) 1 Sample.storage 8
  = [error_event (Some "Run not found")].
Proof. reflexivity. Qed.

End Notifier.

(* ===================================================================== *)
(** * Further properties *)
(* ===================================================================== *)

(** ** The tools of a built agent *)

Section AgentTools.
Import ToolRegistry AgentBuilder.

Lemma def_name_key name tool_def :
  get_tool_definition name = Some tool_def → def_name tool_def = name.
Proof.
  unfold get_tool_definition, TOOL_DEFINITIONS. intros H.
  apply elem_of_list_to_map_2 in H.
  repeat (apply elem_of_cons in H as [Heq|H]; [by injection Heq as -> ->|]).
  by apply elem_of_nil in H.
Qed.

Lemma build_tools_expected c user_id agent tool_models :
  (∀ n, FunctionTool_init c n = None) →
  ∀ S (s : S),
    build_tools c user_id agent tool_models s
    = (s, inr (omap (gateway_tool user_id agent) (map Tool.name tool_models))).
Proof.
  intros Hc. induction tool_models as [|tm l IH]; intros S s; [done|].
  cbn [build_tools map omap list_omap]. unfold gateway_tool at 1.
  destruct (get_tool_definition (Tool.name tm)) as [d|]; cbn; [|apply IH].
  unfold mbind, ST_bind, construct. rewrite Hc. cbn. by rewrite IH.
Qed.

Lemma gateway_tool_names user_id agent names :
  map tool_name (omap (gateway_tool user_id agent) names)
  = filter (λ n, is_Some (get_tool_definition n)) names.
Proof.
  induction names as [|n l IH]; [done|].
  cbn [omap list_omap]. unfold gateway_tool at 1.
  destruct (get_tool_definition n) as [d|] eqn:Hd; cbn [mbind option_bind map tool_name].
  - rewrite filter_cons_True by (by rewrite Hd). rewrite IH.
    by rewrite (def_name_key n d Hd).
  - rewrite filter_cons_False by (rewrite Hd; by intros [? ?]). exact IH.
Qed.

(** X1. When the LlamaIndex constructors raise nothing, [build_agent] returns
    an agent whose tools are exactly: one gateway tool for every tool row of
    the agent whose name the registry defines, in the order of the rows and
    whether or not the row is enabled, followed by [knowledge_base_search]
    exactly when the knowledge base is enabled.  Rows with an unknown name
    are skipped silently. *)
Theorem build_agent_tools {S} (c : Constructors) (agent : Agent.t) (user_id : Z) (s : S) :
  OpenAI_init c = None →
  (∀ n, FunctionTool_init c n = None) →
  ReActAgent_init c = None →
  ∃ llama_agent,
    build_agent c agent user_id s = (s, inr llama_agent) ∧
    agent_tools llama_agent
    = omap (gateway_tool user_id agent) (map Tool.name (Agent.tools agent))
      ++ (if Agent.kb_enabled agent then [kb_tool user_id agent] else []) ∧
    map tool_name (agent_tools llama_agent)
    = filter (λ n, is_Some (get_tool_definition n)) (map Tool.name (Agent.tools agent))
      ++ (if Agent.kb_enabled agent then ["knowledge_base_search"] else []).
Proof.
  intros Hllm Htool Hagent.
  unfold build_agent, mbind, ST_bind, construct. rewrite Hllm. cbn.
  rewrite build_tools_expected by done. cbn.
  destruct (Agent.kb_enabled agent); cbn; rewrite ?Htool, Hagent; cbn;
    (eexists; split; [reflexivity|]; cbn [agent_tools]; split; [done|]);
    by rewrite map_app, gateway_tool_names.
Qed.

(** The librarian has a disabled [file_fetch], an unknown [calculator], an
    enabled [vector_search] and the knowledge base. *)
Lemma build_agent_tools_witness :
  ∃ llama_agent,
    build_agent Sample.constructors_ok Fixture.librarian 7 tt = (tt, inr llama_agent) ∧
    agent_tools llama_agent
    = omap (gateway_tool 7 Fixture.librarian)
        (map Tool.name (Agent.tools Fixture.librarian))
      ++ (if Agent.kb_enabled Fixture.librarian then [kb_tool 7 Fixture.librarian] else []) ∧
    map tool_name (agent_tools llama_agent)
    = filter (λ n, is_Some (get_tool_definition n))
        (map Tool.name (Agent.tools Fixture.librarian))
      ++ (if Agent.kb_enabled Fixture.librarian then ["knowledge_base_search"] else []).
Proof.
  apply (build_agent_tools Sample.constructors_ok Fixture.librarian 7 tt);
    reflexivity.
Defined.

Example librarian_tool_names :
  filter (λ n, is_Some (get_tool_definition n))
    (map Tool.name (Agent.tools Fixture.librarian))
  = ["file_fetch"; "vector_search"].
Proof. reflexivity. Qed.

(** *** What the tools of an agent can reach *)

Lemma built_tool_cases {S} c agent user_id (s s' : S) llama_agent t :
  build_agent c agent user_id s = (s', inr llama_agent) →
  t ∈ agent_tools llama_agent →
  tool_fn t = vector_search_fn user_id agent ∨
  ∃ name, tool_fn t = create_tool_fn user_id agent name.
Proof.
  intros Hb Ht.
  unfold build_agent, mbind, ST_bind, construct in Hb.
  destruct (OpenAI_init c); [discriminate Hb|]. cbn in Hb.
  destruct (build_tools c user_id agent (Agent.tools agent) s)
    as [s1 [e|tools]] eqn:Htools; [discriminate Hb|].
  destruct (Agent.kb_enabled agent); cbn in Hb.
  - destruct (FunctionTool_init c "knowledge_base_search"); [discriminate Hb|].
    cbn in Hb. destruct (ReActAgent_init c); [discriminate Hb|].
    injection Hb as _ <-. cbn [agent_tools] in Ht.
    apply elem_of_app in Ht as [Ht | Ht].
    + right. by eapply build_tools_closures.
    + left. apply list_elem_of_singleton in Ht. by subst t.
  - destruct (ReActAgent_init c); [discriminate Hb|].
    injection Hb as _ <-. cbn [agent_tools] in Ht. rewrite app_nil_r in Ht.
    right. by eapply build_tools_closures.
Qed.

Lemma filter_none {A} (P : A → Prop) `{∀ x, Decision (P x)} (l : list A) :
  (∀ x, x ∈ l → ¬ P x) → filter P l = [].
Proof.
  induction l as [|a l IH]; intros Hl; [done|].
  rewrite filter_cons_False by (apply Hl; left). apply IH. intros x Hx. apply Hl. by right.
Qed.

Lemma calls_try_catch {A} (body : Eff A) (g : Exn → A) :
  calls (try_catch body (λ e, mret (g e))) = calls body.
Proof. destruct body as [t [e|a]]; cbn; by rewrite ?app_nil_r. Qed.

Lemma calls_bind {A B} (m : Eff A) (f : A → Eff B) :
  calls (m ≫= f) = calls m ++ match outcome m with
                              | inl _ => []
                              | inr a => calls (f a)
                              end.
Proof.
  destruct m as [t [e|a]]; cbn; [by rewrite app_nil_r|]. by destruct (f a).
Qed.

Lemma calls_bind_args {A} fn required kw (body : Eff A) (P : Call → Prop) :
  Forall P (calls body) → Forall P (calls (bind_args fn required kw body)).
Proof.
  intros H. by destruct (bind_args_outcome fn required kw body) as [-> | [names ->]].
Qed.

Lemma vector_search_calls w st kw :
  Forall (λ c, ∃ query top_k,
            c = VectorSearch (arg kw "user_id" VNone) (arg kw "agent_id" VNone) query top_k)
         (calls (vector_search_handler w st kw)).
Proof.
  unfold vector_search_handler. apply calls_bind_args.
  rewrite calls_try_catch, calls_bind. cbn.
  destruct (qdrant_search w _ _ _ _); repeat constructor; eauto.
Qed.

Lemma sql_query_calls w st kw :
  Forall (λ c, ∃ query,
            c = SqlExecute query ∧
            PyStr.startswith (PyStr.lower (PyStr.strip query)) "select" = true ∧
            PyStr.any (λ keyword, PyStr.contains keyword (PyStr.lower query)) dangerous
            = false)
         (calls (sql_query_handler w st kw)).
Proof.
  unfold sql_query_handler. apply calls_bind_args.
  rewrite calls_try_catch, calls_bind.
  destruct (arg kw "query" VNone) as [| | | |q| | |];
    cbn [str_method raise mret Eff_ret calls outcome fst snd app]; try done.
  destruct (PyStr.startswith (PyStr.lower (PyStr.strip q)) "select") eqn:Hsel;
    cbn [negb]; [|done].
  rewrite forbidden_word_check.
  destruct (PyStr.any _ dangerous) eqn:Hbad; [done|].
  rewrite calls_bind.
  destruct (arg kw "db" VNone);
    cbn [session_method raise mret Eff_ret calls outcome fst snd app]; try done.
  rewrite calls_bind. cbn [perform calls outcome fst snd].
  destruct (db_execute w q); repeat constructor; eauto.
Qed.

Lemma query_document_owner st doc_id user_id doc :
  query_document st doc_id user_id = Some doc →
  documents st !! doc_id = Some doc ∧ Document.user_id doc = user_id.
Proof.
  unfold query_document. destruct (documents st !! doc_id) as [d|]; [|done].
  case_decide; [|done]. by intros [= ->].
Qed.

Lemma file_fetch_calls w st kw user_id :
  kw !! "user_id" = Some (VInt user_id) →
  Forall (λ c, ∃ doc_id doc,
            documents st !! doc_id = Some doc ∧ Document.user_id doc = user_id ∧
            (c = PathExists (Document.file_path doc) ∨ c = ReadFile (Document.file_path doc)))
         (calls (file_fetch_handler w st kw)).
Proof.
  intros Hu. unfold file_fetch_handler. apply calls_bind_args.
  rewrite calls_try_catch.
  replace (arg kw "user_id" VNone) with (VInt user_id) by (unfold arg; by rewrite Hu).
  rewrite calls_bind.
  destruct (arg kw "db" VNone); cbn [session_method calls outcome raise fst snd app];
    try done.
  rewrite calls_bind.
  assert (calls (as_int w (arg kw "doc_id" VNone)) = []) as -> by (by destruct (arg kw _ _)).
  destruct (outcome (as_int w (arg kw "doc_id" VNone))) as [e|d]; [done|].
  cbn [as_int]. rewrite Eff_ret_bind.
  destruct (query_document st d user_id) as [doc|] eqn:Hq; [|done].
  apply query_document_owner in Hq as [Hdoc Hown].
  rewrite calls_bind. cbn [perform calls outcome fst snd].
  destruct (path_exists w _); cbn [negb].
  - rewrite calls_bind. cbn [perform calls outcome fst snd].
    destruct (read_text w _); repeat constructor; eauto 10.
  - repeat constructor; eauto 10.
Qed.

Lemma http_fetch_calls w st kw :
  calls (http_fetch_handler w st kw) = [] ∨
  calls (http_fetch_handler w st kw)
    = [HttpGet (arg kw "url" VNone) (arg kw "headers" VNone)] ∨
  calls (http_fetch_handler w st kw)
    = [HttpPost (arg kw "url" VNone) (arg kw "headers" VNone) (arg kw "body" VNone)].
Proof.
  unfold http_fetch_handler, bind_args. destruct (missing _ kw); [|by left].
  rewrite calls_try_catch, calls_bind.
  destruct (arg kw "method" (VStr "GET")) as [| | | |m| | |];
    cbn [str_method raise mret Eff_ret calls outcome fst snd app]; try (by left).
  destruct (String.eqb (PyStr.upper m) "GET").
  { right. left. rewrite calls_bind. cbn [perform calls outcome fst snd].
    by destruct (httpx_get w _ _). }
  destruct (String.eqb (PyStr.upper m) "POST"); [|by left].
  right. right. rewrite calls_bind. cbn [perform calls outcome fst snd].
  by destruct (httpx_post w _ _ _).
Qed.

Lemma web_search_calls w st kw :
  Forall (λ c, ∃ query max_results, c = WebSearch query max_results)
         (calls (web_search_handler w st kw)).
Proof.
  unfold web_search_handler. apply calls_bind_args.
  rewrite calls_try_catch, calls_bind. cbn [perform calls outcome fst snd].
  destruct (ddg_web_search w _ _); repeat constructor; eauto.
Qed.

(** X2. Whatever arguments the model passes to a tool of a built agent, the
    calls that the tool makes stay within the reach of the agent's owner: an
    SQL statement is executed only after both checks of [sql_query] passed,
    a vector search carries the owner's id and the agent's id, and a file is
    looked up or read only at the path of a document of the owner.  HTTP and
    web-search requests are not restricted. *)
Theorem tools_stay_within_reach {S} (c : Constructors) (agent : Agent.t) (user_id : Z)
    (s s' : S) (llama_agent : ReActAgent) (t : FunctionTool) :
  build_agent c agent user_id s = (s', inr llama_agent) →
  t ∈ agent_tools llama_agent →
  ∀ w st kwargs, Forall (permitted user_id agent st) (calls (tool_fn t w st kwargs)).
Proof.
  intros Hb Ht w st kwargs.
  destruct (built_tool_cases _ _ _ _ _ _ _ Hb Ht) as [-> | [name ->]].
  - (* the knowledge-base search *)
    unfold vector_search_fn. destruct (filter _ _); [|done].
    apply calls_bind_args. rewrite calls_bind. cbn [perform calls outcome fst snd].
    destruct (qdrant_search w _ _ _ _) as [e|results]; [by repeat constructor|].
    rewrite calls_bind.
    assert (∀ i, calls (texts_of i results) = []) as ->.
    { induction results as [|r l IH]; intros i; [done|]. cbn [texts_of].
      destruct (hit_text r); try done. rewrite calls_bind, IH.
      by destruct (outcome _). }
    destruct (outcome _); by repeat constructor.
  - (* a tool of the gateway *)
    unfold create_tool_fn, execute_tool.
    destruct (TOOL_HANDLERS !! name) as [handler|] eqn:Hh; [|done].
    cbv zeta. rewrite calls_try_catch.
    set (kw := merge_kwargs kwargs (tool_context user_id agent)).
    assert (kw !! "user_id" = Some (VInt user_id)) as Hu
      by (by apply merge_kwargs_context).
    assert (kw !! "agent_id" = Some (VInt (Agent.id agent))) as Ha
      by (by apply merge_kwargs_context).
    destruct (handler_in_registry _ _ Hh) as [-> | [-> | [-> | [-> | ->]]]].
    + eapply Forall_impl; [apply vector_search_calls|].
      intros ? (q & k & ->). unfold arg. by rewrite Hu, Ha.
    + eapply Forall_impl; [apply sql_query_calls|].
      by intros ? (q & -> & ? & ?).
    + destruct (http_fetch_calls w st kw) as [-> | [-> | ->]]; by repeat constructor.
    + eapply Forall_impl; [by apply file_fetch_calls|].
      intros ? (d & doc & ? & ? & [-> | ->]); cbn; eauto.
    + eapply Forall_impl; [apply web_search_calls|]. by intros ? (q & m & ->).
Qed.

Lemma tools_stay_within_reach_witness :
  Forall (permitted 7 Sample.agent Sample.storage)
    (calls (tool_fn Sample.sql_tool Sample.world Sample.storage
              (Sample.sql_kwargs "select 1"))).
Proof.
  apply (tools_stay_within_reach Sample.constructors_ok Sample.agent 7 tt tt
           Fixture.helper Sample.sql_tool).
  - reflexivity.
  - cbn. left.
Defined.

Example sql_tool_executes :
  calls (tool_fn Sample.sql_tool Sample.world Sample.storage (Sample.sql_kwargs "select 1"))
  = [SqlExecute "select 1"].
Proof. reflexivity. Qed.

(** *** The requests of [http_fetch] *)

(** X3. [http_fetch] sends at most one request.  With a [url] and a string
    [method], the method is compared without regard to case: GET sends one
    GET with the given headers, POST one POST with the headers and the body,
    and any other method sends nothing and answers "Unsupported method"
    with the method as it was given.  A [method] that is no string sends
    nothing and answers "HTTP request failed". *)
Theorem http_fetch_requests (w : World) (st : DB) (kw : gmap string Value) :
  let url := arg kw "url" VNone in
  let method := arg kw "method" (VStr "GET") in
  let headers := arg kw "headers" VNone in
  let body := arg kw "body" VNone in
  let r := http_fetch_handler w st kw in
  (calls r = [] ∨ calls r = [HttpGet url headers] ∨ calls r = [HttpPost url headers body]) ∧
  (∀ m, is_Some (kw !! "url") → method = VStr m →
     (PyStr.upper m = "GET" → calls r = [HttpGet url headers]) ∧
     (PyStr.upper m = "POST" → calls r = [HttpPost url headers body]) ∧
     (PyStr.upper m ≠ "GET" → PyStr.upper m ≠ "POST" →
      r = ([], inr (error_envelope ("Unsupported method: " +:+ m))))) ∧
  (is_Some (kw !! "url") → (∀ m, method ≠ VStr m) →
     r = ([], inr (error_envelope
                     ("HTTP request failed: "
                      +:+ exn_str (AttributeError (type_name method) "upper"))))).
Proof.
  intros url method headers body r. split; [apply http_fetch_calls|].
  subst r. unfold http_fetch_handler. split.
  - intros m Hurl Hm.
    rewrite bind_args_present by (by repeat constructor).
    fold url method headers body. rewrite Hm. cbn [str_method]. rewrite Eff_ret_bind.
    split; [|split].
    + intros ->. cbn [String.eqb Ascii.eqb Bool.eqb]. cbv iota.
      rewrite calls_try_catch, calls_bind. cbn [perform calls outcome fst snd].
      by destruct (httpx_get w url headers).
    + intros ->. cbn [String.eqb Ascii.eqb Bool.eqb]. cbv iota.
      rewrite calls_try_catch, calls_bind. cbn [perform calls outcome fst snd].
      by destruct (httpx_post w url headers body).
    + intros Hget Hpost.
      rewrite (proj2 (String.eqb_neq _ _) Hget), (proj2 (String.eqb_neq _ _) Hpost).
      reflexivity.
  - intros Hurl Hm.
    rewrite bind_args_present by (by repeat constructor).
    fold url method headers body.
    destruct method as [| | | |m| | |]; try reflexivity. by destruct (Hm m).
Qed.

Example http_fetch_lowercase_post :
  calls (http_fetch_handler Sample.world Sample.storage
           {[ "url" := VStr "http://x"; "method" := VStr "post" ]})
  = [HttpPost (VStr "http://x") VNone VNone].
Proof. reflexivity. Qed.

(** The method is compared after Unicode uppercasing: a long s becomes
    an S. *)
Example http_fetch_long_s :
  calls (http_fetch_handler Sample.world Sample.storage
           {[ "url" := VStr "http://x"; "method" := VStr ("po" +:+ PyStr.chr 0x17F +:+ "t") ]})
  = [HttpPost (VStr "http://x") VNone VNone].
Proof. vm_compute. reflexivity. Qed.

(** *** The arguments that the schemas require are the arguments that the
    handlers need *)

Lemma merge_kwargs_is_Some (arguments context : gmap string Value) k :
  is_Some (arguments !! k) ∨ is_Some (context !! k) →
  is_Some (merge_kwargs arguments context !! k).
Proof. intros H. unfold merge_kwargs. apply lookup_union_is_Some. tauto. Qed.

Lemma returns_through_gateway w st tool handler arguments context :
  TOOL_HANDLERS !! tool = Some handler →
  (∃ v, outcome (handler w st (merge_kwargs arguments context)) = inr v) →
  ∃ t v, handler w st (merge_kwargs arguments context) = (t, inr v) ∧
         execute_tool w st tool arguments context = (t, inr v).
Proof.
  intros Hh [v Hv]. unfold execute_tool. rewrite Hh. cbv zeta.
  destruct (handler w st _) as [t [e|v']]; [discriminate Hv|]. by exists t, v'.
Qed.

(** X4. The parameters that a tool's schema marks as required are the
    arguments that its handler cannot do without: when the model supplies
    them, the context of the agent supplies the rest, the handler is entered
    and returns, and [execute_tool] hands its answer on unchanged. *)
Theorem required_arguments_suffice (w : World) (st : DB) (tool : string)
    (required : list string) (arguments : gmap string Value) (user_id : Z)
    (agent : Agent.t) :
  required_parameters !! tool = Some required →
  Forall (λ k, is_Some (arguments !! k)) required →
  ∃ handler t v,
    TOOL_HANDLERS !! tool = Some handler ∧
    handler w st (merge_kwargs arguments (tool_context user_id agent)) = (t, inr v) ∧
    execute_tool w st tool arguments (tool_context user_id agent) = (t, inr v).
Proof.
  intros Hreq Hargs.
  set (context := tool_context user_id agent).
  assert (∀ k, k ∈ required ∨ k ∈ ["user_id"; "agent_id"; "db"] →
               is_Some (merge_kwargs arguments context !! k)) as Hkw.
  { intros k [Hk | Hk]; apply merge_kwargs_is_Some.
    - left. rewrite Forall_forall in Hargs. by apply Hargs.
    - right. repeat (apply elem_of_cons in Hk as [-> | Hk]; [by eexists|]).
      by apply elem_of_nil in Hk. }
  assert (∀ handler,
            TOOL_HANDLERS !! tool = Some handler →
            (∃ v, outcome (handler w st (merge_kwargs arguments context)) = inr v) →
            ∃ handler t v,
              TOOL_HANDLERS !! tool = Some handler ∧
              handler w st (merge_kwargs arguments context) = (t, inr v) ∧
              execute_tool w st tool arguments context = (t, inr v)) as Hvia.
  { intros handler Hh Hv.
    destruct (returns_through_gateway w st tool handler arguments context Hh Hv)
      as (t & v & ? & ?).
    by exists handler, t, v. }
  apply elem_of_list_to_map_2 in Hreq.
  repeat (apply elem_of_cons in Hreq as [Heq | Hreq];
          [injection Heq as -> ->|]); [..|by apply elem_of_nil in Hreq].
  - apply (Hvia vector_search_handler eq_refl).
    unfold vector_search_handler. rewrite bind_args_present; [apply try_catch_returns|].
    repeat constructor; apply Hkw; set_solver.
  - apply (Hvia sql_query_handler eq_refl).
    unfold sql_query_handler. rewrite bind_args_present; [apply try_catch_returns|].
    repeat constructor; apply Hkw; set_solver.
  - apply (Hvia http_fetch_handler eq_refl).
    unfold http_fetch_handler. rewrite bind_args_present; [apply try_catch_returns|].
    repeat constructor; apply Hkw; set_solver.
  - apply (Hvia file_fetch_handler eq_refl).
    unfold file_fetch_handler. rewrite bind_args_present; [apply try_catch_returns|].
    repeat constructor; apply Hkw; set_solver.
  - apply (Hvia web_search_handler eq_refl).
    unfold web_search_handler. rewrite bind_args_present; [apply try_catch_returns|].
    repeat constructor; apply Hkw; set_solver.
Qed.

Lemma required_arguments_suffice_witness :
  ∃ handler t v,
    TOOL_HANDLERS !! "file_fetch" = Some handler ∧
    handler Sample.world Sample.storage
      (merge_kwargs {[ "doc_id" := VInt 3 ]} (tool_context 8 Sample.agent)) = (t, inr v) ∧
    execute_tool Sample.world Sample.storage "file_fetch" {[ "doc_id" := VInt 3 ]}
      (tool_context 8 Sample.agent) = (t, inr v).
Proof.
  apply (required_arguments_suffice Sample.world Sample.storage "file_fetch" ["doc_id"]
           {[ "doc_id" := VInt 3 ]} 8 Sample.agent).
  - reflexivity.
  - repeat constructor. by eexists.
Defined.

End AgentTools.

(** ** The web search *)

Section WebSearch.
Import ToolRegistry WebSearchTool.

Lemma web_search_returns c query max_results :
  ∃ text, web_search c query max_results = inr text.
Proof.
  unfold web_search, res_try, mbind, Res_bind, mret, Res_ret.
  destruct (DDGS_init c); [by eexists|].
  destruct (ddgs_text c query max_results) as [e|[|r l]]; by eexists.
Qed.

(** X5. [web_search] never raises: when the search client cannot be made or
    its request fails, the text "Web search failed: ..." is returned as if
    it were the result, and an empty result list gives "No results found
    for: ...".  A handler that is given a [query] therefore always reports
    success, with that text under [results]. *)
Theorem web_search_failure_is_a_result (c : Client) (w : World) (st : DB)
    (kw : gmap string Value) (query : Value) :
  kw !! "query" = Some query →
  let max_results := arg kw "max_results" (VInt 5) in
  ∃ text,
    web_search c query max_results = inr text ∧
    web_search_handler (installed c w) st kw
    = ([WebSearch query max_results], inr (VDict [("results", VStr text)])) ∧
    (∀ e, DDGS_init c = Some e → text = "Web search failed: " +:+ exn_str e) ∧
    (∀ e, DDGS_init c = None → ddgs_text c query max_results = inl e →
          text = "Web search failed: " +:+ exn_str e) ∧
    (DDGS_init c = None → ddgs_text c query max_results = inr [] →
     text = "No results found for: " +:+ format c query).
Proof.
  intros Hq max_results.
  destruct (web_search_returns c query max_results) as [text Htext].
  exists text. split; [done|]. split.
  - unfold web_search_handler.
    rewrite bind_args_present by (repeat constructor; by rewrite Hq).
    replace (arg kw "query" VNone) with query by (unfold arg; by rewrite Hq).
    fold max_results. cbn [installed ddg_web_search]. rewrite Htext. reflexivity.
  - unfold web_search, res_try, mbind, Res_bind, mret, Res_ret in Htext.
    split; [|split].
    + intros e He. rewrite He in Htext. by injection Htext as <-.
    + intros e Hi He. rewrite Hi, He in Htext. by injection Htext as <-.
    + intros Hi He. rewrite Hi, He in Htext. by injection Htext as <-.
Qed.

Lemma web_search_failure_is_a_result_witness :
  ∃ text,
    web_search Fixture.ddgs_down (VStr "news") (VInt 5) = inr text ∧
    web_search_handler (installed Fixture.ddgs_down Sample.world) Sample.storage
      {[ "query" := VStr "news" ]}
    = ([WebSearch (VStr "news") (VInt 5)], inr (VDict [("results", VStr text)])) ∧
    (∀ e, DDGS_init Fixture.ddgs_down = Some e → text = "Web search failed: " +:+ exn_str e) ∧
    (∀ e, DDGS_init Fixture.ddgs_down = None →
          ddgs_text Fixture.ddgs_down (VStr "news") (VInt 5) = inl e →
          text = "Web search failed: " +:+ exn_str e) ∧
    (DDGS_init Fixture.ddgs_down = None →
     ddgs_text Fixture.ddgs_down (VStr "news") (VInt 5) = inr [] →
     text = "No results found for: " +:+ format Fixture.ddgs_down (VStr "news")).
Proof.
  exact (web_search_failure_is_a_result Fixture.ddgs_down Sample.world Sample.storage
           {[ "query" := VStr "news" ]} (VStr "news") eq_refl).
Defined.

Example web_search_rate_limited :
  web_search Fixture.ddgs_down (VStr "news") (VInt 5)
  = inr "Web search failed: rate limited".
Proof. reflexivity. Qed.

End WebSearch.

(** ** Embeddings in batches *)

Section Embeddings.
Import OpenAIClient.

Lemma concat_slices {A} (m : nat) :
  ∀ l : list A, (length l ≤ m * batch_size)%nat →
    concat (map (λ k, take batch_size (drop (k * batch_size) l)) (seq 0 m)) = l.
Proof.
  induction m as [|m IH]; intros l Hl.
  - destruct l; [done | cbn in Hl; lia].
  - cbn [seq map concat]. rewrite <- fmap_S_seq.
    change (map ?f (S <$> ?x)) with (map f (map S x)). rewrite map_map.
    rewrite Nat.mul_0_l, drop_0.
    transitivity (take batch_size l ++ drop batch_size l); [|apply take_drop].
    f_equal. rewrite <- (IH (drop batch_size l)) by (rewrite length_drop; lia).
    f_equal. apply map_ext. intros k. by rewrite drop_drop.
Qed.

Lemma range_step_covers (n : nat) :
  (n ≤ (n + batch_size - 1) `div` batch_size * batch_size)%nat.
Proof.
  unfold batch_size.
  pose proof (Nat.div_mod_eq (n + 100 - 1) 100).
  pose proof (Nat.mod_upper_bound (n + 100 - 1) 100). lia.
Qed.

Lemma range_step_inside (n i : nat) :
  i ∈ range_step n batch_size → (i < n)%nat.
Proof.
  unfold range_step. intros H. apply list_elem_of_fmap in H as (k & -> & Hk).
  apply elem_of_seq in Hk. unfold batch_size in *.
  pose proof (Nat.div_mod_eq (n + 100 - 1) 100).
  pose proof (Nat.mod_upper_bound (n + 100 - 1) 100). lia.
Qed.

(** The batches cut the texts into consecutive pieces. *)
Lemma batches_partition {A} (l : list A) :
  concat (map (λ i, slice i (i + batch_size) l) (range_step (length l) batch_size)) = l.
Proof.
  unfold range_step. rewrite map_map.
  transitivity (concat (map (λ k, take batch_size (drop (k * batch_size) l))
                            (seq 0 ((length l + batch_size - 1) `div` batch_size)%nat)));
    [|apply concat_slices, range_step_covers].
  f_equal. apply map_ext. intros k. unfold slice. f_equal. lia.
Qed.

Lemma embed_batches_pointwise c model texts (f : Value → Embedding) starts :
  (∀ i, i ∈ starts →
        embeddings_create c model (slice i (i + batch_size) texts)
        = inr (map f (slice i (i + batch_size) texts))) →
  ∀ all_embeddings,
    embed_batches c model texts starts all_embeddings
    = inr (all_embeddings
           ++ map f (concat (map (λ i, slice i (i + batch_size) texts) starts))).
Proof.
  induction starts as [|i l IH]; intros H acc; cbn [embed_batches map concat].
  - by rewrite app_nil_r.
  - rewrite H by left. unfold mbind, Res_bind.
    rewrite IH by (intros j Hj; apply H; by right).
    by rewrite map_app, app_assoc.
Qed.

(** X6. [get_embeddings] asks for the embeddings in batches of at most 100
    texts and returns them in the order of the texts: when every batch is
    answered with one embedding a text, the result has the embedding of
    every text at its place.  No text gives the empty list, whatever the
    model would answer.  When the first batch fails the error is raised again as
    "OpenAI embeddings failed: ...". *)
Theorem get_embeddings_batches (c : Client) (model : string) (texts : list Value) :
  (∀ f : Value → Embedding,
     (∀ batch, (0 < length batch ≤ batch_size)%nat →
               embeddings_create c model batch = inr (map f batch)) →
     get_embeddings c texts model = inr (map f texts)) ∧
  (texts = [] → get_embeddings c texts model = inr []) ∧
  (∀ e, texts ≠ [] →
        embeddings_create c model (take batch_size texts) = inl e →
        get_embeddings c texts model
        = inl (Exception ("OpenAI embeddings failed: " +:+ exn_str e))).
Proof.
  split; [|split].
  - intros f Hf. unfold get_embeddings.
    rewrite (embed_batches_pointwise c model texts f).
    + by rewrite batches_partition.
    + intros i Hi. apply range_step_inside in Hi. apply Hf.
      unfold slice. rewrite length_take, length_drop. unfold batch_size. lia.
  - by intros ->.
  - intros e Hne He. unfold get_embeddings, range_step.
    destruct texts as [|x l]; [done|].
    assert (∃ m, ((length (x :: l) + batch_size - 1) `div` batch_size = S m)%nat)
      as [m ->].
    { pose proof (range_step_covers (length (x :: l))) as Hc.
      destruct (_ `div` _)%nat; [cbn in Hc; lia | by eexists]. }
    cbn [seq map embed_batches]. unfold slice at 1.
    rewrite Nat.mul_0_l, drop_0, Nat.add_0_l, Nat.sub_0_r, He. reflexivity.
Qed.

Example get_embeddings_three_batches :
  get_embeddings Fixture.openai_up (replicate 250 (VStr "t")) default_model
  = inr (replicate 250 [1 # 1]).
Proof. vm_compute. reflexivity. Qed.

End Embeddings.

(** ** The vector store *)

Section VectorStore.
Import ToolRegistry AgentBuilder OpenAIClient Vectorstore.

Lemma get_embeddings_single oc query :
  get_embeddings oc [query] default_model
  = match embeddings_create oc default_model [query] with
    | inl e => inl (Exception ("OpenAI embeddings failed: " +:+ exn_str e))
    | inr embeddings => inr embeddings
    end.
Proof.
  unfold get_embeddings.
  change (range_step (length [query]) batch_size) with [0%nat].
  cbn [embed_batches]. change (slice 0 (0 + batch_size) [query]) with [query].
  by destruct (embeddings_create oc default_model [query]).
Qed.

Lemma format_results_payloads points :
  Forall (λ p, is_Some (payload p)) points →
  format_results points
  = inr (map (λ p, mkFound (default (VStr "") (payload p ≫= lookup "text")) (score p)
                           (default VNone (payload p ≫= lookup "doc_id"))
                           (default VNone (payload p ≫= lookup "chunk_index")))
             points).
Proof.
  induction 1 as [|p l [m Hm] _ IH]; [done|].
  cbn [format_results map]. rewrite Hm, IH. reflexivity.
Qed.

Lemma merge_kwargs_argument (arguments context : gmap string Value) k :
  context !! k = None → merge_kwargs arguments context !! k = arguments !! k.
Proof.
  intros H. unfold merge_kwargs. rewrite lookup_union, H. by rewrite (left_id_L None _).
Qed.

(** What [search] answers, by the answers of the embedding model and of Qdrant. *)
Lemma search_outcome oc qd user_id agent_id query top_k :
  search oc qd user_id agent_id query top_k
  = match embeddings_create oc default_model [query] with
    | inl e =>
        inl (Exception ("Qdrant search failed: OpenAI embeddings failed: " +:+ exn_str e))
    | inr [] => inl (Exception "Qdrant search failed: list index out of range")
    | inr (query_embedding :: _) =>
        match client_search qd COLLECTION_NAME query_embedding
                            (search_filter user_id agent_id) top_k with
        | inl e => inl (Exception ("Qdrant search failed: " +:+ exn_str e))
        | inr results =>
            match format_results results with
            | inl e => inl (Exception ("Qdrant search failed: " +:+ exn_str e))
            | inr formatted => inr formatted
            end
        end
    end.
Proof.
  unfold search. rewrite get_embeddings_single.
  destruct (embeddings_create oc default_model [query]) as [e|[|emb rest]]; try done.
  cbn. destruct (client_search qd _ _ _ _) as [e|results]; [done|]. cbn.
  by destruct (format_results results).
Qed.

(** X7. A [vector_search] through the gateway makes one search, with the
    owner's id and the agent's id of the context.  A failure below never
    escapes: a failing embedding model is reported as "Vector search
    failed: Qdrant search failed: OpenAI embeddings failed: ...", a failing
    Qdrant as "Vector search failed: Qdrant search failed: ...", both as an
    error result.  When the points have a payload, the result lists a text
    and a rounded score for each, a missing text as the empty string, and
    their count. *)
Theorem vector_search_failure_chain (oc : OpenAIClient.Client) (qd : Qdrant) (w : World)
    (st : DB) (user_id : Z) (agent : Agent.t) (kwargs : gmap string Value)
    (query : Value) :
  kwargs !! "query" = Some query →
  let top_k := arg kwargs "top_k" (VInt 5) in
  let r := execute_tool (installed oc qd w) st "vector_search" kwargs
                        (tool_context user_id agent) in
  calls r = [VectorSearch (VInt user_id) (VInt (Agent.id agent)) query top_k] ∧
  (∀ e, embeddings_create oc default_model [query] = inl e →
        outcome r
        = inr (error_envelope
                 ("Vector search failed: Qdrant search failed: OpenAI embeddings failed: "
                  +:+ exn_str e))) ∧
  (∀ query_embedding rest e,
     embeddings_create oc default_model [query] = inr (query_embedding :: rest) →
     client_search qd COLLECTION_NAME query_embedding
                   (search_filter (VInt user_id) (VInt (Agent.id agent))) top_k = inl e →
     outcome r
     = inr (error_envelope ("Vector search failed: Qdrant search failed: " +:+ exn_str e))) ∧
  (∀ query_embedding rest points,
     embeddings_create oc default_model [query] = inr (query_embedding :: rest) →
     client_search qd COLLECTION_NAME query_embedding
                   (search_filter (VInt user_id) (VInt (Agent.id agent))) top_k
     = inr points →
     Forall (λ p, is_Some (payload p)) points →
     outcome r
     = inr (VDict [
         ("results",
          VList (map (λ p, VDict [
                   ("text", default (VStr "") (payload p ≫= lookup "text"));
                   ("relevance_score", VFloat (py_round3 w (score p)))]) points));
         ("count", VInt (Z.of_nat (length points)))])).
Proof.
  intros Hq top_k r. subst r.
  unfold execute_tool.
  change (TOOL_HANDLERS !! "vector_search") with (Some vector_search_handler).
  cbv zeta. unfold vector_search_handler.
  set (context := tool_context user_id agent).
  set (kw := merge_kwargs kwargs context).
  assert (arg kw "user_id" VNone = VInt user_id) as Hu
    by (unfold arg, kw; by rewrite (merge_kwargs_context _ _ _ (VInt user_id))).
  assert (arg kw "agent_id" VNone = VInt (Agent.id agent)) as Ha
    by (unfold arg, kw; by rewrite (merge_kwargs_context _ _ _ (VInt (Agent.id agent)))).
  assert (arg kw "query" VNone = query) as Hquery
    by (unfold arg, kw; rewrite merge_kwargs_argument by done; by rewrite Hq).
  assert (arg kw "top_k" (VInt 5) = top_k) as Hk
    by (unfold arg, kw; by rewrite merge_kwargs_argument).
  rewrite bind_args_present; last first.
  { repeat constructor; unfold kw.
    - by rewrite (merge_kwargs_context _ _ _ (VInt user_id)).
    - by rewrite (merge_kwargs_context _ _ _ (VInt (Agent.id agent))).
    - rewrite merge_kwargs_argument by done. by rewrite Hq. }
  rewrite Hu, Ha, Hquery, Hk. cbn [installed qdrant_search py_round3].
  rewrite search_outcome.
  split; [|split; [|split]].
  - destruct (embeddings_create oc default_model [query]) as [e|[|emb rest]]; try done.
    destruct (client_search qd _ _ _ _) as [e|results]; [done|].
    by destruct (format_results results).
  - by intros e ->.
  - by intros emb rest e -> ->.
  - intros emb rest points -> -> Hp. rewrite (format_results_payloads _ Hp).
    cbn. rewrite !length_map, !map_map. reflexivity.
Qed.

Lemma vector_search_failure_chain_witness :
  outcome (execute_tool (installed Fixture.openai_down Fixture.qdrant_up Sample.world)
             Sample.storage "vector_search" {[ "query" := VStr "q" ]}
             (tool_context 7 Sample.agent))
  = inr (error_envelope
           ("Vector search failed: Qdrant search failed: OpenAI embeddings failed: "
            +:+ exn_str (Exception "invalid api key"))).
Proof.
  exact (proj1 (proj2 (vector_search_failure_chain Fixture.openai_down Fixture.qdrant_up
                         Sample.world Sample.storage 7 Sample.agent
                         {[ "query" := VStr "q" ]} (VStr "q") eq_refl))
           (Exception "invalid api key") eq_refl).
Defined.

Example vector_search_textless_point :
  outcome (execute_tool (installed Fixture.openai_up Fixture.qdrant_up Sample.world)
             Sample.storage "vector_search" {[ "query" := VStr "q" ]}
             (tool_context 7 Sample.agent))
  = inr (VDict [("results", VList [VDict [("text", VStr "");
                                          ("relevance_score", VFloat (1 # 2))]]);
                ("count", VInt 1)]).
Proof. reflexivity. Qed.

Lemma texts_of_strings results :
  Forall (λ r, ∃ s, hit_text r = VStr s) results →
  ∀ i, texts_of i results = ([], inr (map (λ r, text_string (hit_text r)) results)).
Proof.
  induction 1 as [|r l [s Hs] _ IH]; intros i; [done|].
  cbn [texts_of map]. rewrite Hs, IH. reflexivity.
Qed.

Lemma texts_of_calls results : ∀ i, calls (texts_of i results) = [].
Proof.
  induction results as [|r l IH]; intros i; [done|]. cbn [texts_of].
  destruct (hit_text r); try done. rewrite calls_bind, IH. by destruct (outcome _).
Qed.

(** X8. [knowledge_base_search] accepts the arguments [query] and [top_k]
    only; any other argument raises before anything is searched.  Unlike
    the gateway's [vector_search] it lets a failure of the search escape as
    an exception, "Qdrant search failed: ...".  On success it answers with
    the texts of the points, joined by a blank line, three dashes and a
    blank line. *)
Theorem knowledge_base_search_outcomes (oc : OpenAIClient.Client) (qd : Qdrant)
    (w : World) (st : DB) (user_id : Z) (agent : Agent.t) (kw : gmap string Value) :
  let top_k := arg kw "top_k" (VInt 5) in
  let separator := newline +:+ newline +:+ "---" +:+ newline +:+ newline in
  let r := vector_search_fn user_id agent (installed oc qd w) st kw in
  (∀ k, is_Some (kw !! k) → k ∉ ["query"; "top_k"] →
        ∃ k', r = ([], inl (UnexpectedArg "vector_search_fn" k'))) ∧
  (∀ query,
     kw !! "query" = Some query →
     (∀ k, is_Some (kw !! k) → k ∈ ["query"; "top_k"]) →
     calls r = [VectorSearch (VInt user_id) (VInt (Agent.id agent)) query top_k] ∧
     (∀ e, embeddings_create oc default_model [query] = inl e →
           outcome r
           = inl (Exception ("Qdrant search failed: OpenAI embeddings failed: "
                             +:+ exn_str e))) ∧
     (∀ query_embedding rest e,
        embeddings_create oc default_model [query] = inr (query_embedding :: rest) →
        client_search qd COLLECTION_NAME query_embedding
                      (search_filter (VInt user_id) (VInt (Agent.id agent))) top_k = inl e →
        outcome r = inl (Exception ("Qdrant search failed: " +:+ exn_str e))) ∧
     (∀ query_embedding rest points,
        embeddings_create oc default_model [query] = inr (query_embedding :: rest) →
        client_search qd COLLECTION_NAME query_embedding
                      (search_filter (VInt user_id) (VInt (Agent.id agent))) top_k
        = inr points →
        Forall (λ p, ∃ m s, payload p = Some m ∧ default (VStr "") (m !! "text") = VStr s)
               points →
        outcome r
        = inr (VStr (PyStr.join separator
                       (map (λ p, text_string (default (VStr "") (payload p ≫= lookup "text")))
                            points))))).
Proof.
  intros top_k separator r. subst r. unfold vector_search_fn. split.
  - intros k [v Hk] Hbad.
    destruct (filter _ _) as [|k' l] eqn:Hf; [|by eexists].
    exfalso. eapply (filter_nil_not_elem_of _ _ k Hf Hbad).
    apply list_elem_of_fmap. exists (k, v). split; [done|].
    by apply elem_of_map_to_list.
  - intros query Hq Hkeys.
    rewrite filter_none; last first.
    { intros k Hk Hbad. apply Hbad, Hkeys.
      apply list_elem_of_fmap in Hk as ([k' v] & -> & Hkv).
      apply elem_of_map_to_list in Hkv. by eexists. }
    rewrite bind_args_present by (repeat constructor; by rewrite Hq).
    replace (arg kw "query" VNone) with query by (unfold arg; by rewrite Hq).
    fold top_k. cbn [installed qdrant_search]. rewrite search_outcome.
    split; [|split; [|split]].
    + rewrite calls_bind. cbn [perform calls outcome fst snd].
      match goal with |- context [match ?x with inl _ => [] | inr _ => _ end] =>
        destruct x as [e|results] end; [done|].
      rewrite calls_bind, texts_of_calls. by destruct (outcome _).
    + by intros e ->.
    + by intros emb rest e -> ->.
    + intros emb rest points -> -> Hp.
      rewrite (format_results_payloads points)
        by (eapply Forall_impl; [exact Hp|]; intros p (m & s & -> & _); by eexists).
      unfold mbind, Eff_bind, perform. rewrite texts_of_strings.
      * rewrite !map_map. reflexivity.
      * apply Forall_forall. intros h Hh.
        apply list_elem_of_fmap in Hh as (f & -> & Hf).
        apply list_elem_of_fmap in Hf as (p & -> & Hin).
        rewrite Forall_forall in Hp. destruct (Hp p Hin) as (m & s & Hm & Hs).
        exists s. cbn. by rewrite Hm.
Qed.

Example knowledge_base_search_model_down :
  vector_search_fn 7 Sample.agent
    (installed Fixture.openai_down Fixture.qdrant_up Sample.world) Sample.storage
    {[ "query" := VStr "q" ]}
  = ([VectorSearch (VInt 7) (VInt 1) (VStr "q") (VInt 5)],
     inl (Exception "Qdrant search failed: OpenAI embeddings failed: invalid api key")).
Proof. reflexivity. Qed.

End VectorStore.

(** ** Stored points and the filters *)

Section StoredPoints.
Import ToolRegistry OpenAIClient Vectorstore.

Lemma opt_int_inj a a' : opt_int a' = opt_int a → a' = a.
Proof. destruct a, a'; cbn; congruence. Qed.

(** X9. [add_documents] builds one point for every position that
    [chunk_ids], [chunks] and [embeddings] all have, so the shortest of the
    three decides how many.  The point at a position has the id, the
    embedding and the text of that position and the position as
    [chunk_index].  Its payload has the values that the filter of [search]
    asks for exactly for the storing user and agent, and the values that
    the filter of [delete_document] asks for exactly for the storing user,
    agent and document. *)
Theorem stored_points_match_their_owner (user_id : Z) (agent_id : option Z) (doc_id : Z)
    (chunk_ids : list Z) (chunks : list string) (embeddings : list Embedding) :
  let points := points_of user_id agent_id doc_id chunk_ids chunks embeddings in
  length points
  = (length chunk_ids `min` (length chunks `min` length embeddings))%nat ∧
  (∀ i p, points !! i = Some p →
     chunk_ids !! i = Some (point_id p) ∧
     embeddings !! i = Some (vector p) ∧
     VStr <$> chunks !! i = point_payload p !! "text" ∧
     point_payload p !! "chunk_index" = Some (VInt (Z.of_nat i)) ∧
     (∀ u a, satisfies (point_payload p) (search_filter u a)
             ↔ u = VInt user_id ∧ a = opt_int agent_id) ∧
     (∀ u a d, satisfies (point_payload p) (document_filter u a d)
               ↔ u = user_id ∧ a = agent_id ∧ d = doc_id)).
Proof.
  intros points. subst points. unfold points_of. split.
  - by rewrite length_imap, !length_zip.
  - intros i p Hp. apply list_lookup_imap_Some in Hp as ([id [chunk emb]] & Hz & ->).
    apply lookup_zip_Some in Hz as [Hid Hz]. apply lookup_zip_Some in Hz as [Hc He].
    cbn [point_id vector point_payload].
    split; [done|]. split; [done|]. split; [by rewrite Hc|]. split; [done|]. split.
    + intros u a. unfold satisfies, search_filter. rewrite !Forall_cons, Forall_nil.
      cbn [fst snd]. split.
      * intros ([= <-] & [= <-] & _). done.
      * intros [-> ->]. done.
    + intros u a d. unfold satisfies, document_filter. rewrite !Forall_cons, Forall_nil.
      cbn [fst snd]. split.
      * intros ([= <-] & [= Ha] & [= <-] & _). by apply opt_int_inj in Ha.
      * intros (-> & -> & ->). done.
Qed.

End StoredPoints.

(** ** Chunking *)

Section Chunking.
Import PyStr DocumentService.

(** *** Every chunk is trimmed and not empty *)

Lemma flush_stripped chunks current_chunk :
  Forall stripped chunks → Forall stripped (flush chunks current_chunk).
Proof.
  intros H. destruct current_chunk; [done|]. apply Forall_app. split; [done|].
  repeat constructor. by eexists.
Qed.

Lemma add_sentence_stripped max_chars state sentence :
  Forall stripped state.1 → Forall stripped (add_sentence max_chars state sentence).1.
Proof.
  destruct state as [chunks current_chunk]. unfold add_sentence. intros H.
  destruct (_ <=? _); [done|]. by apply flush_stripped.
Qed.

Lemma add_sentences_stripped max_chars sentences :
  ∀ state, Forall stripped state.1 →
           Forall stripped (foldl (add_sentence max_chars) state sentences).1.
Proof.
  induction sentences as [|s l IH]; intros state H; [done|].
  cbn [foldl]. by apply IH, add_sentence_stripped.
Qed.

Lemma add_paragraph_stripped max_chars chunks para :
  Forall stripped chunks → Forall stripped (add_paragraph max_chars chunks para).
Proof.
  intros H. unfold add_paragraph. destruct (_ <=? _).
  - apply Forall_app. split; [done|]. repeat constructor. by eexists.
  - pose proof (add_sentences_stripped max_chars (split ". " para) (chunks, "") H) as Hs.
    destruct (foldl _ _ _) as [chunks' current_chunk]. by apply flush_stripped.
Qed.

Lemma add_paragraphs_stripped max_chars paragraphs :
  ∀ chunks, Forall stripped chunks →
            Forall stripped (foldl (add_paragraph max_chars) chunks paragraphs).
Proof.
  induction paragraphs as [|p l IH]; intros chunks H; [done|].
  cbn [foldl]. by apply IH, add_paragraph_stripped.
Qed.

(** X10. Every chunk that [_chunk_text] returns is trimmed and not empty: it
    has a first and a last character, and neither is white space. *)
Theorem chunks_are_trimmed (text : string) (max_chars : Z) :
  Forall trimmed (_chunk_text text max_chars).
Proof.
  unfold _chunk_text. apply Forall_forall. intros c Hc.
  apply list_elem_of_filter in Hc as [Hne Hc].
  pose proof (add_paragraphs_stripped max_chars
                (split (AgentBuilder.newline +:+ AgentBuilder.newline) text) []
                (Forall_nil_2 _))
    as Hall.
  rewrite Forall_forall in Hall. destruct (Hall c Hc) as [x ->].
  by destruct (strip_trimmed x).
Qed.

(** White space outside ASCII is trimmed as well: an ideographic space
    around a word, and a text of no-break spaces. *)
Example chunk_ideographic_space :
  _chunk_text (chr 0x3000 +:+ "ab" +:+ chr 0x3000) 1000 = ["ab"].
Proof. vm_compute. reflexivity. Qed.

Example chunk_no_break_spaces :
  _chunk_text (chr 0xA0 +:+ chr 0xA0) 1000 = [].
Proof. vm_compute. reflexivity. Qed.

(** *** The length of a chunk *)

Lemma flush_sentence chunks x :
  flush chunks (x +:+ ". ") = chunks ++ [strip (x +:+ ". ")].
Proof. by destruct x. Qed.

Lemma flush_bound max_chars chunks current_chunk :
  Forall (λ c, len c ≤ max_chars + 1) chunks →
  fits max_chars current_chunk →
  Forall (λ c, len c ≤ max_chars + 1) (flush chunks current_chunk).
Proof.
  intros H [-> | (x & -> & Hx)]; [done|].
  rewrite flush_sentence. apply Forall_app. split; [done|]. repeat constructor.
  rewrite strip_dot_space, len_append. pose proof (len_lstrip x).
  change (len ".") with 1. lia.
Qed.

Lemma add_sentence_bound max_chars state sentence :
  len sentence ≤ max_chars →
  Forall (λ c, len c ≤ max_chars + 1) state.1 ∧ fits max_chars state.2 →
  Forall (λ c, len c ≤ max_chars + 1) (add_sentence max_chars state sentence).1 ∧
  fits max_chars (add_sentence max_chars state sentence).2.
Proof.
  destruct state as [chunks current_chunk]. unfold add_sentence. cbn [fst snd].
  intros Hs [Hall Hfit].
  destruct (len current_chunk + len sentence <=? max_chars) eqn:Hle; cbn [fst snd].
  - split; [done|]. right. exists (current_chunk +:+ sentence).
    split; [by rewrite append_assoc|]. rewrite len_append. lia.
  - split; [by apply flush_bound|]. right. by exists sentence.
Qed.

Lemma add_sentences_bound max_chars sentences :
  Forall (λ s, len s ≤ max_chars) sentences →
  ∀ state,
    Forall (λ c, len c ≤ max_chars + 1) state.1 ∧ fits max_chars state.2 →
    Forall (λ c, len c ≤ max_chars + 1) (foldl (add_sentence max_chars) state sentences).1 ∧
    fits max_chars (foldl (add_sentence max_chars) state sentences).2.
Proof.
  induction 1 as [|s l Hs _ IH]; intros state H; [done|].
  cbn [foldl]. by apply IH, add_sentence_bound.
Qed.

Lemma add_paragraph_bound max_chars chunks para :
  (max_chars < len para → Forall (λ s, len s ≤ max_chars) (split ". " para)) →
  Forall (λ c, len c ≤ max_chars + 1) chunks →
  Forall (λ c, len c ≤ max_chars + 1) (add_paragraph max_chars chunks para).
Proof.
  intros Hfit H. unfold add_paragraph. destruct (len para <=? max_chars) eqn:Hle.
  - apply Forall_app. split; [done|]. repeat constructor.
    pose proof (len_strip para). lia.
  - destruct (add_sentences_bound max_chars (split ". " para) (Hfit ltac:(lia))
                (chunks, "")) as [Hall Hcur]; [split; [done | by left]|].
    destruct (foldl _ _ _) as [chunks' current_chunk]. by apply flush_bound.
Qed.

(** X11. When the sentences of every paragraph that is longer than
    [max_chars] are themselves at most [max_chars] long, no chunk is longer
    than [max_chars + 1]: the full stop that closes a chunk of sentences is
    not counted by the test.  Nothing splits a sentence, so without the
    condition a chunk can be of any length. *)
Theorem chunk_length_bound (text : string) (max_chars : Z) :
  (∀ para sentence,
     para ∈ split (AgentBuilder.newline +:+ AgentBuilder.newline) text →
     max_chars < len para →
     sentence ∈ split ". " para →
     len sentence ≤ max_chars) →
  Forall (λ c, len c ≤ max_chars + 1) (_chunk_text text max_chars).
Proof.
  intros Hfit. unfold _chunk_text.
  apply Forall_forall. intros c Hc. apply list_elem_of_filter in Hc as [_ Hc].
  revert c Hc. apply Forall_forall.
  cut (∀ paragraphs chunks,
         (∀ para sentence, para ∈ paragraphs → max_chars < len para →
                           sentence ∈ split ". " para → len sentence ≤ max_chars) →
         Forall (λ c, len c ≤ max_chars + 1) chunks →
         Forall (λ c, len c ≤ max_chars + 1)
                (foldl (add_paragraph max_chars) chunks paragraphs)).
  { intros Hcut. by apply Hcut. }
  induction paragraphs as [|p l IH]; intros chunks Hl H; [done|].
  cbn [foldl]. apply IH.
  - intros para sentence Hp. apply Hl. by right.
  - apply add_paragraph_bound; [|done]. intros Hlong.
    apply Forall_forall. intros s Hs. eapply Hl; [left | done | done].
Qed.

Lemma chunk_length_bound_witness :
  Forall (λ c, len c ≤ 4 + 1) (_chunk_text "a. b. c" 4).
Proof.
  apply (chunk_length_bound "a. b. c" 4).
  intros para sentence Hp _ Hs.
  change (split (AgentBuilder.newline +:+ AgentBuilder.newline) "a. b. c")
    with ["a. b. c"] in Hp.
  apply list_elem_of_singleton in Hp. subst para.
  change (split ". " "a. b. c") with ["a"; "b"; "c"] in Hs.
  repeat (apply elem_of_cons in Hs as [-> | Hs]; [by vm_compute|]).
  by apply elem_of_nil in Hs.
Defined.

(** The bound is met, and a long sentence passes it.  The length is counted
    in characters, not in bytes. *)
Example chunk_one_over :
  _chunk_text "a. b. c" 4 = ["a. b."; "c."].
Proof. vm_compute. reflexivity. Qed.

Example chunk_long_sentence :
  _chunk_text "abcdefgh" 4 = ["abcdefgh."].
Proof. vm_compute. reflexivity. Qed.

Example chunk_accented_letters :
  _chunk_text (chr 0xE9 +:+ chr 0xE9 +:+ chr 0xE9) 4 = [chr 0xE9 +:+ chr 0xE9 +:+ chr 0xE9].
Proof. vm_compute. reflexivity. Qed.

(** *** A text that is not blank gives a chunk *)

Lemma flush_grows chunks current_chunk c : c ∈ chunks → c ∈ flush chunks current_chunk.
Proof.
  intros H. destruct current_chunk; [done|]. apply elem_of_app. by left.
Qed.

Lemma add_sentences_grow max_chars sentences :
  ∀ state c, c ∈ state.1 → c ∈ (foldl (add_sentence max_chars) state sentences).1.
Proof.
  induction sentences as [|s l IH]; intros [chunks current_chunk] c H; [done|].
  cbn [foldl]. apply IH. unfold add_sentence.
  destruct (_ <=? _); [done|]. by apply flush_grows.
Qed.

Lemma add_sentences_current max_chars sentences :
  sentences ≠ [] →
  ∀ state, ∃ x, (foldl (add_sentence max_chars) state sentences).2 = x +:+ ". ".
Proof.
  assert (∀ l state, (∃ x, state.2 = x +:+ ". ") →
                     ∃ x, (foldl (add_sentence max_chars) state l).2 = x +:+ ". ")
    as Hkeep.
  { induction l as [|s l IH]; intros [chunks current_chunk] Hx; [done|].
    cbn [foldl]. apply IH. unfold add_sentence.
    destruct (_ <=? _); cbn [snd]; [|by eexists].
    exists (current_chunk +:+ s). by rewrite append_assoc. }
  destruct sentences as [|s l]; [done|]. intros _ [chunks current_chunk].
  cbn [foldl]. apply Hkeep. unfold add_sentence.
  destruct (_ <=? _); cbn [snd]; [|by eexists].
  exists (current_chunk +:+ s). by rewrite append_assoc.
Qed.

Lemma add_paragraph_grows max_chars chunks para c :
  c ∈ chunks → c ∈ add_paragraph max_chars chunks para.
Proof.
  intros H. unfold add_paragraph. destruct (_ <=? _); [apply elem_of_app; by left|].
  pose proof (add_sentences_grow max_chars (split ". " para) (chunks, "") c H) as Hg.
  destruct (foldl _ _ _) as [chunks' current_chunk]. by apply flush_grows.
Qed.

Lemma add_paragraph_solid max_chars chunks para :
  ¬ blank para → has_chunk (add_paragraph max_chars chunks para).
Proof.
  intros Hs. unfold add_paragraph. destruct (_ <=? _).
  - exists (strip para). split; [apply elem_of_app; right; left|].
    by rewrite strip_empty.
  - destruct (add_sentences_current max_chars (split ". " para)) with (state := (chunks, ""))
      as [x Hx].
    { unfold split. by destruct (split_from_cons ". " para 0) as (? & ? & ->). }
    destruct (foldl _ _ _) as [chunks' current_chunk]. cbn [snd] in Hx. subst.
    rewrite flush_sentence. exists (strip (x +:+ ". ")).
    split; [apply elem_of_app; right; left|].
    rewrite strip_dot_space. by destruct (lstrip x).
Qed.

Lemma add_paragraphs_grow max_chars paragraphs :
  ∀ chunks, has_chunk chunks → has_chunk (foldl (add_paragraph max_chars) chunks paragraphs).
Proof.
  induction paragraphs as [|p l IH]; intros chunks H; [done|].
  cbn [foldl]. apply IH. destruct H as (c & Hc & Hne).
  exists c. split; [by apply add_paragraph_grows | done].
Qed.

Lemma chunk_text_nonblank (text : string) (max_chars : Z) :
  strip text ≠ "" → _chunk_text text max_chars ≠ [].
Proof.
  intros Hs. rewrite strip_empty in Hs.
  unfold _chunk_text.
  destruct (split_not_blank (AgentBuilder.newline +:+ AgentBuilder.newline) text)
    as (para & Hin & Hpara); [done | by repeat constructor | done |].
  cut (has_chunk (foldl (add_paragraph max_chars) []
                    (split (AgentBuilder.newline +:+ AgentBuilder.newline) text))).
  { intros (c & Hc & Hne) Hnil.
    assert (c ∈ filter (λ c, c ≠ "") (foldl (add_paragraph max_chars) []
              (split (AgentBuilder.newline +:+ AgentBuilder.newline) text))) as H
      by (by apply list_elem_of_filter).
    rewrite Hnil in H. by apply elem_of_nil in H. }
  revert Hin. generalize (@nil string).
  induction (split _ text) as [|p l IH]; intros chunks Hin.
  - by apply elem_of_nil in Hin.
  - cbn [foldl]. apply elem_of_cons in Hin as [<- | Hin]; [|by apply IH].
    apply add_paragraphs_grow. by apply add_paragraph_solid.
Qed.

(** X12. A text that is not blank has at least one chunk, whatever
    [max_chars] is. *)
Theorem nonblank_text_has_chunks (text : string) (max_chars : Z) :
  strip text ≠ "" → ∃ c rest, _chunk_text text max_chars = c :: rest.
Proof.
  intros Hs. pose proof (chunk_text_nonblank text max_chars Hs).
  destruct (_chunk_text text max_chars) as [|c rest]; [done|]. by exists c, rest.
Qed.

Lemma nonblank_text_has_chunks_witness :
  ∃ c rest, _chunk_text " x " (-1) = c :: rest.
Proof.
  apply (nonblank_text_has_chunks " x " (-1)). vm_compute. discriminate.
Defined.

(** A blank paragraph that is longer than [max_chars] leaves a full stop. *)
Example chunk_of_blank_paragraph :
  _chunk_text "     " 4 = ["."].
Proof. vm_compute. reflexivity. Qed.

End Chunking.

(** ** Processing a document *)

Section Processing.
Import PyStr DocumentService.

(** X13. The ids that [_process_document] gives to the chunks are distinct,
    within a document and between documents, as long as no document has
    more than 10000 chunks: an id determines the document and the position
    of its chunk. *)
Theorem chunk_ids_distinct (d1 d2 : Z) (n1 n2 i1 i2 : nat) (id : Z) :
  Z.of_nat n1 ≤ 10000 → Z.of_nat n2 ≤ 10000 →
  chunk_ids d1 n1 !! i1 = Some id →
  chunk_ids d2 n2 !! i2 = Some id →
  d1 = d2 ∧ i1 = i2.
Proof.
  unfold chunk_ids. intros Hn1 Hn2 H1 H2.
  change (map ?f ?l) with (f <$> l) in *. rewrite list_lookup_fmap in H1, H2.
  destruct (seq 0 n1 !! i1) as [x|] eqn:Hx; [|discriminate H1].
  destruct (seq 0 n2 !! i2) as [y|] eqn:Hy; [|discriminate H2].
  apply lookup_seq in Hx as [-> ?]. apply lookup_seq in Hy as [-> ?].
  cbn in H1, H2. injection H1 as H1. injection H2 as H2. lia.
Qed.

Lemma chunk_ids_distinct_witness :
  3 = 3 ∧ 2%nat = 2%nat.
Proof.
  apply (chunk_ids_distinct 3 3 5 4 2 2 30002).
  - lia.
  - lia.
  - reflexivity.
  - reflexivity.
Defined.

(** Beyond ten thousand chunks the ids of two documents meet. *)
Example chunk_ids_meet :
  chunk_ids 1 (Z.to_nat 10001) !! Z.to_nat 10000 = chunk_ids 2 1 !! 0%nat.
Proof. vm_compute. reflexivity. Qed.

(** X14. [_process_document] ends in one of two ways and changes nothing of
    the document but its marks.  It returns only when a text that is not
    blank was extracted and indexed; the document is then processed, its
    chunk count is the number of chunks of that text, at least one, and its
    error message is as before.  Otherwise the exception of the failing step
    is raised again, the document is marked unprocessed with the text of
    the exception as its error message, and its chunk count is as before. *)
Theorem process_document_marks (P : Parsers) (oc : OpenAIClient.Client)
    (qd : Vectorstore.Qdrant) (document_id user_id : Z) (row : Row) :
  ∃ row' r,
    _process_document P oc qd document_id user_id row = (row', r) ∧
    Document.filename (document row') = Document.filename (document row) ∧
    Document.file_path (document row') = Document.file_path (document row) ∧
    Document.user_id (document row') = Document.user_id (document row) ∧
    Document.agent_id (document row') = Document.agent_id (document row) ∧
    match r with
    | inr _ =>
        ∃ content,
          extract P (Document.file_path (document row)) = inr content ∧
          strip content ≠ "" ∧
          index_document P oc qd document_id (document row) user_id
          = inr (_chunk_text content 1000) ∧
          Document.processed (document row') = true ∧
          chunk_count row' = Z.of_nat (length (_chunk_text content 1000)) ∧
          1 ≤ chunk_count row' ∧
          error_message row' = error_message row
    | inl e =>
        index_document P oc qd document_id (document row) user_id = inl e ∧
        Document.processed (document row') = false ∧
        error_message row' = Some (exn_str e) ∧
        chunk_count row' = chunk_count row
    end.
Proof.
  unfold _process_document, st_try, mbind, ST_bind, st_get, st_answer, st_modify, st_raise.
  destruct (index_document P oc qd document_id (document row) user_id) as [e|chunks] eqn:Hi.
  - eexists _, _. split; [reflexivity|]. by repeat split.
  - eexists _, _. split; [reflexivity|]. do 4 (split; [reflexivity|]).
    unfold index_document, mbind, Res_bind in Hi.
    destruct (extract P _) as [e|content]; [discriminate Hi|].
    destruct (strip content) eqn:Hs; [discriminate Hi|].
    destruct (Vectorstore.add_documents _ _ _ _ _ _ _); [discriminate Hi|].
    injection Hi as <-. exists content.
    assert (strip content ≠ "") as Hne by (by rewrite Hs).
    split; [done|]. split; [done|]. split; [done|]. split; [done|]. split; [done|].
    split; [|done]. cbn [chunk_count].
    pose proof (chunk_text_nonblank content 1000 Hne).
    destruct (_chunk_text content 1000); [done | cbn; lia].
Qed.

End Processing.

(** ** The life of a run *)

Section RunLifecycle.
Import Runner.

(** *** The window of history that reaches the agent *)

(** X15. Only the last ten messages of the history reach the agent: with ten
    or more messages, whatever came before the last ten does not change the
    input of the agent.  The note of the trace still counts every message
    of the history. *)
Theorem history_window (older recent : list (string * string)) (input_text : string) :
  length recent = 10%nat →
  full_input (older ++ recent) input_text = full_input recent input_text ∧
  loaded_note (older ++ recent)
  = VDict [("conversation_history",
            VStr ("Loaded " +:+ pretty (length older + 10)%nat +:+ " previous messages"))].
Proof.
  intros Hlen. split.
  - unfold full_input, history_text, PyStr.last_n.
    rewrite length_app, Hlen.
    replace (length older + 10 - 10)%nat with (length older) by lia.
    rewrite drop_app_length, Nat.sub_diag, drop_0.
    destruct recent as [|m recent]; [discriminate Hlen|]. by destruct older.
  - unfold loaded_note. by rewrite length_app, Hlen.
Qed.

Lemma history_window_witness :
  full_input (Fixture.older ++ Fixture.recent) "q" = full_input Fixture.recent "q" ∧
  loaded_note (Fixture.older ++ Fixture.recent)
  = VDict [("conversation_history", VStr "Loaded 11 previous messages")].
Proof.
  apply (history_window Fixture.older Fixture.recent "q"). reflexivity.
Defined.

(** *** What an execution leaves alone *)

Lemma agents_commit_row run_id st : agents (commit_row run_id st) = agents st.
Proof. unfold commit_row. by destruct (runs st !! run_id). Qed.

Lemma documents_commit_row run_id st : documents (commit_row run_id st) = documents st.
Proof. unfold commit_row. by destruct (runs st !! run_id). Qed.

Lemma commits_commit_row_grow run_id st :
  ∃ later, commits (commit_row run_id st) = commits st ++ later.
Proof.
  unfold commit_row. destruct (runs st !! run_id); [by eexists|].
  exists []. by rewrite app_nil_r.
Qed.

Lemma agents_log st l : agents (foldl (λ s x, insert_step x s) st l) = agents st.
Proof. revert st. induction l as [|x l IH]; intros st; [done|]. cbn. by rewrite IH. Qed.

Lemma documents_log st l : documents (foldl (λ s x, insert_step x s) st l) = documents st.
Proof. revert st. induction l as [|x l IH]; intros st; [done|]. cbn. by rewrite IH. Qed.

Lemma commits_log st l :
  commits (foldl (λ s x, insert_step x s) st l) = commits st ++ map CommitStep l.
Proof.
  revert st. induction l as [|x l IH]; intros st; cbn.
  - by rewrite app_nil_r.
  - rewrite IH. cbn. by rewrite <- app_assoc.
Qed.

Lemma agents_tell st l : agents (foldl (λ s m, insert_message m s) st l) = agents st.
Proof. revert st. induction l as [|x l IH]; intros st; [done|]. cbn. by rewrite IH. Qed.

Lemma documents_tell st l :
  documents (foldl (λ s m, insert_message m s) st l) = documents st.
Proof. revert st. induction l as [|x l IH]; intros st; [done|]. cbn. by rewrite IH. Qed.

Lemma conversations_tell st l :
  conversations (foldl (λ s m, insert_message m s) st l) = conversations st.
Proof. revert st. induction l as [|x l IH]; intros st; [done|]. cbn. by rewrite IH. Qed.

(** The tables that [finished] does not write to. *)
Lemma finished_leaves E run_id agent input st user_id conversation_id :
  agents (finished E run_id agent input st user_id conversation_id) = agents st ∧
  conversations (finished E run_id agent input st user_id conversation_id)
  = conversations st ∧
  documents (finished E run_id agent input st user_id conversation_id) = documents st.
Proof.
  unfold finished, prepared.
  destruct (outcome_of E agent input st user_id conversation_id);
    cbn [agents conversations documents insert_step update_run
         with_runs with_commits with_run_steps];
    rewrite ?agents_commit_row, ?conversations_commit_row, ?documents_commit_row;
    cbn [agents conversations documents insert_step update_run
         with_runs with_commits with_run_steps];
    rewrite ?agents_commit_row, ?conversations_commit_row, ?documents_commit_row,
      ?agents_tell, ?conversations_tell, ?documents_tell,
      ?agents_log, ?conversations_log, ?documents_log,
      ?agents_commit_row, ?conversations_commit_row, ?documents_commit_row;
    done.
Qed.

(** Reading a table through the last two writes of [finished]. *)
Ltac read_through :=
  do 2 (rewrite ?runs_commit_row, ?run_steps_commit_row, ?messages_commit_row;
        cbn [runs run_steps messages insert_step update_run
             with_runs with_commits with_run_steps]).

Lemma runs_finished_other E run_id agent input st user_id conversation_id other :
  other ≠ run_id →
  runs (finished E run_id agent input st user_id conversation_id) !! other
  = runs st !! other.
Proof.
  intros Hne. unfold finished.
  destruct (outcome_of E agent input st user_id conversation_id);
    read_through; rewrite ?runs_tell, runs_prepared; by rewrite !lookup_alter_ne.
Qed.

Lemma commits_finished E run_id agent input st user_id conversation_id :
  ∃ later,
    commits (finished E run_id agent input st user_id conversation_id)
    = commits st ++ later.
Proof.
  assert (∃ l0, commits (prepared E run_id input st user_id conversation_id)
                = commits st ++ l0) as [l0 Hp].
  { unfold prepared. rewrite commits_log.
    destruct (commits_commit_row_grow run_id
                (update_run run_id (mark_running (utcnow_started E)) st)) as [l ->].
    cbn [commits update_run with_runs]. rewrite <- app_assoc. by eexists. }
  unfold finished.
  destruct (outcome_of E agent input st user_id conversation_id).
  - cbn [commits insert_step with_commits with_run_steps].
    match goal with |- context [commit_row ?r ?s] =>
      destruct (commits_commit_row_grow r s) as [l ->] end.
    cbn [commits update_run with_runs]. rewrite Hp, <- !app_assoc. by eexists.
  - match goal with |- context [commit_row ?r ?s] =>
      destruct (commits_commit_row_grow r s) as [l ->] end.
    cbn [commits update_run with_runs insert_step with_commits with_run_steps].
    rewrite Hp, <- !app_assoc. by eexists.
  - match goal with |- context [commit_row ?r ?s] =>
      destruct (commits_commit_row_grow r s) as [l ->] end.
    cbn [commits update_run with_runs insert_step with_commits with_run_steps].
    rewrite commits_tell, Hp, <- !app_assoc. by eexists.
Qed.

(** X16. What [execute_run] leaves alone.  It writes to no agent, no
    conversation and no document, changes no run but its own and creates
    none, adds only steps of its own run to the trace and drops none, adds
    either no message or the user's and the assistant's turn to the
    conversation of the run, and only adds to the journal.  It ends without
    an exception when the run exists; when the run is missing it changes
    nothing at all and the failure of its own error handler escapes. *)
Theorem execute_run_frame (E : Env) (run_id : Z) (agent : Agent.t) (input_text : string)
    (st : DB) (user_id : Z) (conversation_id : option Z) :
  let st' := (execute_run E run_id agent input_text st user_id conversation_id).1 in
  (execute_run E run_id agent input_text st user_id conversation_id).2
  = match runs st !! run_id with
    | Some _ => None
    | None => Some (AttributeError "NoneType" "status")
    end ∧
  (runs st !! run_id = None → st' = st) ∧
  agents st' = agents st ∧
  conversations st' = conversations st ∧
  documents st' = documents st ∧
  (∀ other, other ≠ run_id → runs st' !! other = runs st !! other) ∧
  (is_Some (runs st' !! run_id) ↔ is_Some (runs st !! run_id)) ∧
  (∃ recorded, run_steps st' = run_steps st ++ recorded ∧
               Forall (λ s, RunStep.run_id s = run_id) recorded) ∧
  (messages st' = messages st ∨
   ∃ output_text,
     truthy_id conversation_id = true ∧
     messages st'
     = messages st ++ [Message.mk (default 0 conversation_id) "user" input_text;
                       Message.mk (default 0 conversation_id) "assistant" output_text]) ∧
  (∃ later, commits st' = commits st ++ later).
Proof.
  intros st'. subst st'. destruct (runs st !! run_id) as [r|] eqn:Hr.
  - rewrite execute_run_finished by (by eexists). cbn [fst snd].
    destruct (finished_leaves E run_id agent input_text st user_id conversation_id)
      as (-> & -> & ->).
    do 5 (split; [done|]).
    split; [intros other Hne; by apply runs_finished_other|].
    split; [rewrite (runs_finished _ _ _ _ _ _ _ r Hr); split; by eexists|].
    split; [|split; [|apply commits_finished]].
    + rewrite run_steps_finished. eexists. split; [reflexivity|].
      apply Forall_app. split; [apply setup_steps_run_id|].
      repeat constructor. apply closing_step_run_id.
    + rewrite messages_finished.
      destruct (outcome_of E agent input_text st user_id conversation_id) as [e|e|out];
        try (left; by rewrite app_nil_r).
      unfold turns. destruct (truthy_id conversation_id); [right; by eexists|].
      left. by rewrite app_nil_r.
  - rewrite execute_run_missing by done. cbn [fst snd]. rewrite Hr.
    do 7 (split; [done|]). split; [exists []; by rewrite app_nil_r|].
    split; [by left|]. exists []. by rewrite app_nil_r.
Qed.

(** *** The books of a finished run *)

(** X17. The books of an executed run that exists.  The run keeps its input,
    owner, agent and conversation and has both times set.  When the agent
    cannot be built, the run is FAILED with "Fatal error: " and the text of
    the exception.  When the agent is built and fails, the run is FAILED
    with the text of the exception.  When the agent answers but the call
    names a conversation (by an id other than 0) that is missing or belongs
    to another user, the turns cannot be stored: the run is FAILED with
    "404: Conversation not found" and no message is stored.  In these three
    cases the last step of the trace is an error step with the text of the
    exception, and the output of the run is as before.  Otherwise the agent
    answers and the run is COMPLETED with the answer; the last step of the
    trace is the final answer with the elapsed time. *)
Theorem execute_run_bookkeeping (E : Env) (run_id : Z) (agent : Agent.t)
    (input_text : string) (st : DB) (user_id : Z) (conversation_id : option Z)
    (r : Run.t) :
  runs st !! run_id = Some r →
  let st' := (execute_run E run_id agent input_text st user_id conversation_id).1 in
  ∃ r' closing,
    runs st' !! run_id = Some r' ∧
    last (run_steps st') = Some closing ∧
    Run.started_at r' = Some (utcnow_started E) ∧
    Run.completed_at r' = Some (utcnow_completed E) ∧
    Run.input_text r' = Run.input_text r ∧
    Run.user_id r' = Run.user_id r ∧
    Run.agent_id r' = Run.agent_id r ∧
    Run.conversation_id r' = Run.conversation_id r ∧
    match built E agent user_id with
    | inl e =>
        Run.status r' = FAILED ∧
        Run.error_message r' = Some ("Fatal error: " +:+ exn_str e) ∧
        Run.output_text r' = Run.output_text r ∧
        RunStep.step_type closing = ERROR ∧
        RunStep.error_message closing = Some (exn_str e)
    | inr llama_agent =>
        match llama_run E llama_agent
                (full_input (history_of st user_id conversation_id) input_text) with
        | inl e =>
            Run.status r' = FAILED ∧
            Run.error_message r' = Some (exn_str e) ∧
            Run.output_text r' = Run.output_text r ∧
            RunStep.step_type closing = ERROR ∧
            RunStep.error_message closing = Some (exn_str e)
        | inr output_text =>
            if truthy_id conversation_id &&
               bool_decide (ConversationService.get_conversation
                              st (default 0 conversation_id) user_id = None)
            then
              Run.status r' = FAILED ∧
              Run.error_message r' = Some "404: Conversation not found" ∧
              Run.output_text r' = Run.output_text r ∧
              RunStep.step_type closing = ERROR ∧
              RunStep.error_message closing = Some "404: Conversation not found" ∧
              messages st' = messages st
            else
              Run.status r' = COMPLETED ∧
              Run.output_text r' = Some output_text ∧
              Run.error_message r' = Run.error_message r ∧
              RunStep.step_type closing = FINAL_ANSWER ∧
              RunStep.output_data closing = Some (VDict [("answer", VStr output_text)]) ∧
              RunStep.duration_ms closing = Some (elapsed_ms E)
        end
    end.
Proof.
  intros Hr st'. subst st'.
  rewrite execute_run_finished by (by eexists). cbn [fst].
  eexists _, _. split; [by apply runs_finished|].
  split; [rewrite run_steps_finished, app_assoc; apply last_snoc|].
  rewrite messages_finished. unfold outcome_of.
  destruct (built E agent user_id) as [e|llama_agent]; [done|].
  destruct (llama_run E llama_agent _) as [e|output_text]; [done|].
  destruct (truthy_id conversation_id); cbn [andb]; [|done].
  destruct (ConversationService.get_conversation st _ user_id) eqn:Hc.
  - by rewrite bool_decide_eq_false_2.
  - rewrite bool_decide_eq_true_2 by done. by rewrite app_nil_r.
Qed.

Lemma execute_run_bookkeeping_witness :
  ∃ r' closing,
    runs (execute_run Sample.env 1 Sample.agent "What is 2+2?"
            Sample.storage_conversation_gone 7 (Some 5)).1 !! 1 = Some r' ∧
    last (run_steps (execute_run Sample.env 1 Sample.agent "What is 2+2?"
                       Sample.storage_conversation_gone 7 (Some 5)).1) = Some closing ∧
    Run.started_at r' = Some (utcnow_started Sample.env) ∧
    Run.completed_at r' = Some (utcnow_completed Sample.env) ∧
    Run.input_text r' = Run.input_text (Sample.pending_run (Some 5)) ∧
    Run.user_id r' = Run.user_id (Sample.pending_run (Some 5)) ∧
    Run.agent_id r' = Run.agent_id (Sample.pending_run (Some 5)) ∧
    Run.conversation_id r' = Run.conversation_id (Sample.pending_run (Some 5)) ∧
    Run.status r' = FAILED ∧
    Run.error_message r' = Some "404: Conversation not found" ∧
    Run.output_text r' = Run.output_text (Sample.pending_run (Some 5)) ∧
    RunStep.step_type closing = ERROR ∧
    RunStep.error_message closing = Some "404: Conversation not found" ∧
    messages (execute_run Sample.env 1 Sample.agent "What is 2+2?"
                Sample.storage_conversation_gone 7 (Some 5)).1
    = messages Sample.storage_conversation_gone.
Proof.
  exact (execute_run_bookkeeping Sample.env 1 Sample.agent "What is 2+2?"
           Sample.storage_conversation_gone 7 (Some 5) (Sample.pending_run (Some 5))
           eq_refl).
Defined.

End RunLifecycle.

(** ** Conversations *)

Section Conversations.
Import ConversationService.

(** X18. [add_message] to a conversation of the user stores the message and
    puts it at the end of the history of that conversation; the history of
    every other conversation and every conversation itself are as before.
    For a conversation that is missing or belongs to another user it raises
    404 "Conversation not found" and stores nothing. *)
Theorem add_message_extends_history (conversation_id user_id : Z) (role content : string)
    (st : DB) :
  match get_conversation st conversation_id user_id with
  | Some _ =>
      ∃ st',
        add_message conversation_id user_id role content st
        = (st', inr (Message.mk conversation_id role content)) ∧
        get_conversation_history st' conversation_id user_id
        = get_conversation_history st conversation_id user_id ++ [(role, content)] ∧
        (∀ c u, c ≠ conversation_id →
                get_conversation_history st' c u = get_conversation_history st c u) ∧
        (∀ c u, get_conversation st' c u = get_conversation st c u)
  | None =>
      add_message conversation_id user_id role content st
      = (st, inl (HTTPException 404 "Conversation not found"))
  end.
Proof.
  unfold add_message.
  destruct (get_conversation st conversation_id user_id) as [cv|] eqn:Hc; [|done].
  eexists. split; [reflexivity|].
  unfold get_conversation_history, messages_of.
  change (get_conversation (insert_message ?m st) ?c ?u) with (get_conversation st c u).
  cbn [messages insert_message with_commits with_messages].
  split; [|split; [|done]].
  - rewrite Hc, filter_app, map_app. by rewrite filter_cons_True, filter_nil.
  - intros c u Hne. destruct (get_conversation st c u); [|done].
    rewrite filter_app, filter_cons_False by (cbn; congruence).
    by rewrite filter_nil, app_nil_r.
Qed.

Example add_message_second_turn :
  get_conversation_history
    (add_message 5 7 "assistant" "hello" Sample.storage_with_history).1 5 7
  = [("user", "hi"); ("assistant", "hello")] ∧
  add_message 5 8 "assistant" "hello" Sample.storage_with_history
  = (Sample.storage_with_history, inl (HTTPException 404 "Conversation not found")).
Proof. split; reflexivity. Qed.

Lemma get_conversation_deleted st conversation_id c u :
  get_conversation
    (with_runs (fmap (unlink conversation_id))
       (with_messages (filter (λ m, Message.conversation_id m ≠ conversation_id))
          (with_conversations (delete conversation_id) st))) c u
  = if decide (c = conversation_id) then None else get_conversation st c u.
Proof.
  unfold get_conversation. cbn [conversations with_runs with_messages with_conversations].
  case_decide as Hc; [subst; by rewrite lookup_delete_eq | by rewrite lookup_delete_ne].
Qed.

(** X19. [delete_conversation] of a conversation of the user deletes it with
    all its messages and no other message, keeps every other conversation
    with its history, and keeps every run: the runs of the conversation stay
    with their steps and lose only their link to it, so that afterwards no
    run refers to the deleted conversation.  Agents and documents are as
    before.  For a conversation that is missing or belongs to another user
    it returns false and changes nothing. *)
Theorem delete_conversation_cascade (conversation_id user_id : Z) (st : DB) :
  match get_conversation st conversation_id user_id with
  | None => delete_conversation conversation_id user_id st = (st, inr false)
  | Some _ =>
      ∃ st',
        delete_conversation conversation_id user_id st = (st', inr true) ∧
        (∀ u, get_conversation st' conversation_id u = None) ∧
        (∀ u, get_conversation_history st' conversation_id u = []) ∧
        (∀ m, m ∈ messages st' ↔
              m ∈ messages st ∧ Message.conversation_id m ≠ conversation_id) ∧
        (∀ c u, c ≠ conversation_id →
                get_conversation st' c u = get_conversation st c u ∧
                get_conversation_history st' c u = get_conversation_history st c u) ∧
        (∀ run_id, runs st' !! run_id = unlink conversation_id <$> runs st !! run_id) ∧
        (∀ run_id run, runs st' !! run_id = Some run →
                       Run.conversation_id run ≠ Some conversation_id) ∧
        run_steps st' = run_steps st ∧
        agents st' = agents st ∧
        documents st' = documents st
  end.
Proof.
  unfold delete_conversation.
  destruct (get_conversation st conversation_id user_id) as [cv|] eqn:Hc; [|done].
  eexists. split; [reflexivity|].
  split; [intros u; rewrite get_conversation_deleted; by rewrite decide_True|].
  split.
  { intros u. unfold get_conversation_history.
    rewrite get_conversation_deleted. by rewrite decide_True. }
  split.
  { intros m. cbn [messages with_runs with_messages with_conversations].
    rewrite list_elem_of_filter. tauto. }
  split.
  { intros c u Hne. unfold get_conversation_history.
    rewrite get_conversation_deleted, decide_False by done. split; [done|].
    destruct (get_conversation st c u); [|done]. f_equal. unfold messages_of.
    cbn [messages with_runs with_messages with_conversations].
    rewrite list_filter_filter. apply list_filter_iff. intros m. split; [tauto|].
    intros Hm. split; [done | congruence]. }
  split.
  { intros run_id. cbn [runs with_runs with_messages with_conversations].
    by rewrite lookup_fmap. }
  split; [|done].
  intros run_id run. cbn [runs with_runs with_messages with_conversations].
  rewrite lookup_fmap. destruct (runs st !! run_id) as [r|]; [|done].
  cbn. intros [= <-]. unfold unlink. case_decide as Hr; [done | exact Hr].
Qed.

Example delete_conversation_unlinks :
  let st' := (delete_conversation 5 7 Sample.storage_with_history).1 in
  Run.conversation_id <$> runs st' !! 1 = Some None ∧
  messages st' = [] ∧
  delete_conversation 5 8 Sample.storage_with_history
  = (Sample.storage_with_history, inr false).
Proof. repeat split; reflexivity. Qed.

End Conversations.

(** ** Referential integrity *)

Section Integrity.
Import Runner Service.

(** An execution keeps the owner and the conversation of every run. *)
Lemma execute_run_async_keeps_owner E run_id st id r' :
  runs (RunService.execute_run_async E run_id st).1 !! id = Some r' →
  ∃ r, runs st !! id = Some r ∧
       Run.user_id r' = Run.user_id r ∧
       Run.conversation_id r' = Run.conversation_id r.
Proof.
  destruct (runs st !! run_id) as [run|] eqn:Hrun; last first.
  { unfold RunService.execute_run_async. rewrite Hrun. by eexists. }
  destruct (agents st !! Run.agent_id run) as [agent|] eqn:Hagent;
    [rewrite (execute_run_async_dispatches E run_id st run agent Hrun Hagent)
    |rewrite (execute_run_async_agent_missing E run_id st run Hrun Hagent)].
  - rewrite execute_run_finished by (by eexists). cbn [fst].
    destruct (decide (id = run_id)) as [-> | Hne].
    + rewrite (runs_finished _ _ _ _ _ _ _ run Hrun). intros [= <-].
      exists run. split; [done|].
      by destruct (outcome_of E agent (Run.input_text run) st (Run.user_id run)
                     (Run.conversation_id run)).
    + rewrite runs_finished_other by done. by eexists.
  - cbn [fst]. rewrite runs_commit_row. cbn [runs update_run with_runs].
    destruct (decide (id = run_id)) as [-> | Hne].
    + rewrite lookup_alter_eq, Hrun. intros [= <-]. by exists run.
    + rewrite lookup_alter_ne by done. by eexists.
Qed.

Lemma execute_run_async_conversations E run_id st :
  conversations (RunService.execute_run_async E run_id st).1 = conversations st.
Proof.
  destruct (runs st !! run_id) as [run|] eqn:Hrun; last first.
  { unfold RunService.execute_run_async. by rewrite Hrun. }
  destruct (agents st !! Run.agent_id run) as [agent|] eqn:Hagent;
    [rewrite (execute_run_async_dispatches E run_id st run agent Hrun Hagent)
    |rewrite (execute_run_async_agent_missing E run_id st run Hrun Hagent)].
  - rewrite execute_run_finished by (by eexists). cbn [fst].
    by destruct (finished_leaves E run_id agent (Run.input_text run) st (Run.user_id run)
                   (Run.conversation_id run)) as (_ & -> & _).
  - cbn [fst]. by rewrite conversations_commit_row.
Qed.

Lemma after_attached call st :
  attached_conversations_exist st → attached_conversations_exist (after call st).
Proof.
  intros Hinv. destruct call as [new_id run_data user_id | E run_id | run_id user_id
    | conversation_id user_id role content | conversation_id user_id title
    | conversation_id user_id]; cbn [after].
  - (* create_run *)
    unfold RunService.create_run, RunService.query_agent_of_user.
    destruct (agents st !! RunCreate.agent_id run_data) as [agent|]; [|done].
    case_decide; [|done].
    destruct (truthy_id (RunCreate.conversation_id run_data)) eqn:Ht.
    + destruct (ConversationService.get_conversation st _ user_id) as [cv|] eqn:Hc;
        [|done].
      destruct (RunService.conversation_exists st _); [|done].
      cbn [fst]. intros id run c. rewrite runs_commit_row, conversations_commit_row.
      cbn [runs conversations with_runs].
      destruct (decide (id = new_id)) as [-> | Hne].
      * rewrite lookup_insert_eq. intros [= <-]. cbn [Run.conversation_id Run.user_id].
        intros Hrc _. rewrite Hrc in Hc. cbn [default id] in Hc.
        unfold ConversationService.get_conversation in Hc.
        destruct (conversations st !! c) as [conv|]; [|done].
        case_decide; [|done]. by exists conv.
      * rewrite lookup_insert_ne by done. apply Hinv.
    + destruct (RunService.conversation_exists st _); [|done].
      cbn [fst]. intros id run c. rewrite runs_commit_row, conversations_commit_row.
      cbn [runs conversations with_runs].
      destruct (decide (id = new_id)) as [-> | Hne].
      * rewrite lookup_insert_eq. intros [= <-]. cbn [Run.conversation_id Run.user_id].
        intros Hrc Hc0. rewrite Hrc in Ht. cbn in Ht.
        apply negb_false_iff, Z.eqb_eq in Ht. done.
      * rewrite lookup_insert_ne by done. apply Hinv.
  - (* execute_run_async *)
    intros id r' c Hr' Hc Hc0.
    apply execute_run_async_keeps_owner in Hr' as (r & Hr & Hu & Hcv).
    rewrite execute_run_async_conversations, Hu. eapply Hinv; [done | congruence | done].
  - (* delete_run *)
    unfold RunService.delete_run. destruct (RunService.get_run st run_id user_id); [|done].
    cbn [fst]. intros id run c Hrun.
    cbn [runs conversations with_commits with_run_steps with_runs] in *.
    apply lookup_delete_Some in Hrun as [_ Hrun]. by eapply Hinv.
  - (* add_message *)
    unfold ConversationService.add_message.
    by destruct (ConversationService.get_conversation st conversation_id user_id).
  - (* update_conversation *)
    unfold ConversationService.update_conversation.
    destruct (ConversationService.get_conversation st conversation_id user_id)
      as [cv|] eqn:Hcv; [|done].
    cbn [fst]. intros id run c Hrun Hc Hc0.
    cbn [runs conversations with_conversations] in *.
    destruct (Hinv id run c Hrun Hc Hc0) as (conv & Hconv & Hown).
    destruct (decide (c = conversation_id)) as [-> | Hne].
    + rewrite lookup_insert_eq. eexists. split; [reflexivity|].
      unfold ConversationService.get_conversation in Hcv. rewrite Hconv in Hcv.
      case_decide; [|done]. injection Hcv as <-. by destruct title.
    + rewrite lookup_insert_ne by done. by exists conv.
  - (* delete_conversation *)
    unfold ConversationService.delete_conversation.
    destruct (ConversationService.get_conversation st conversation_id user_id); [|done].
    cbn [fst]. intros id run c.
    cbn [runs conversations with_runs with_messages with_conversations].
    rewrite lookup_fmap. destruct (runs st !! id) as [r|] eqn:Hr; [|done].
    cbn. intros [= <-]. unfold ConversationService.unlink.
    case_decide as Hd; [done|]. intros Hc Hc0.
    rewrite lookup_delete_ne by congruence. by eapply Hinv.
Qed.

Lemma after_steps_have_runs call st :
  steps_have_runs st → steps_have_runs (after call st).
Proof.
  intros Hfk. destruct call as [new_id run_data user_id | E run_id | run_id user_id
    | conversation_id user_id role content | conversation_id user_id title
    | conversation_id user_id]; cbn [after].
  - by apply create_run_keeps_foreign_key.
  - destruct (runs st !! run_id) as [run|] eqn:Hrun; last first.
    { unfold RunService.execute_run_async. by rewrite Hrun. }
    destruct (agents st !! Run.agent_id run) as [agent|] eqn:Hagent;
      [rewrite (execute_run_async_dispatches E run_id st run agent Hrun Hagent)
      |rewrite (execute_run_async_agent_missing E run_id st run Hrun Hagent)];
      [by apply execute_run_keeps_foreign_key|].
    cbn [fst]. intros s Hs. rewrite run_steps_commit_row in Hs.
    rewrite runs_commit_row. cbn [runs run_steps update_run with_runs] in *.
    rewrite lookup_alter_is_Some. by apply Hfk.
  - by apply delete_run_keeps_foreign_key.
  - unfold ConversationService.add_message.
    by destruct (ConversationService.get_conversation st conversation_id user_id).
  - unfold ConversationService.update_conversation.
    by destruct (ConversationService.get_conversation st conversation_id user_id).
  - unfold ConversationService.delete_conversation.
    destruct (ConversationService.get_conversation st conversation_id user_id); [|done].
    cbn [fst]. intros s Hs.
    cbn [runs run_steps with_runs with_messages with_conversations] in *.
    rewrite lookup_fmap, fmap_is_Some. by apply Hfk.
Qed.

Lemma after_all_attached calls :
  ∀ st, attached_conversations_exist st → attached_conversations_exist (after_all calls st).
Proof.
  induction calls as [|call l IH]; intros st Hinv; [done|].
  cbn [after_all foldl]. by apply IH, after_attached.
Qed.

Lemma after_keys_positive call st :
  conversation_keys_positive st → conversation_keys_positive (after call st).
Proof.
  unfold conversation_keys_positive. intros Hkeys.
  destruct call as [new_id run_data user_id | E run_id | run_id user_id
    | conversation_id user_id role content | conversation_id user_id title
    | conversation_id user_id]; cbn [after].
  - unfold RunService.create_run.
    destruct (RunService.query_agent_of_user st _ user_id); [|done].
    destruct (if truthy_id _ then _ else _); [done|].
    destruct (RunService.conversation_exists st _); [|done].
    cbn [fst]. by rewrite conversations_commit_row.
  - by rewrite execute_run_async_conversations.
  - unfold RunService.delete_run. by destruct (RunService.get_run st run_id user_id).
  - unfold ConversationService.add_message.
    by destruct (ConversationService.get_conversation st conversation_id user_id).
  - unfold ConversationService.update_conversation.
    destruct (ConversationService.get_conversation st conversation_id user_id)
      as [cv|] eqn:Hcv; [|done].
    cbn [fst conversations with_conversations].
    destruct (decide (conversation_id = 0)) as [-> | Hne].
    + unfold ConversationService.get_conversation in Hcv. by rewrite Hkeys in Hcv.
    + by rewrite lookup_insert_ne.
  - unfold ConversationService.delete_conversation.
    destruct (ConversationService.get_conversation st conversation_id user_id); [|done].
    cbn [fst conversations with_runs with_messages with_conversations].
    by apply lookup_delete_None; right.
Qed.

Lemma links_attached st :
  conversation_links_hold st → attached_conversations_exist st.
Proof. intros Hlinks id run c Hrun Hc _. by eapply Hlinks. Qed.

(** With no conversation of id 0, a run names the conversation 0 after a
    call only if one did before. *)
Lemma after_names_zero call st id run :
  conversation_keys_positive st →
  runs (after call st) !! id = Some run →
  Run.conversation_id run = Some 0 →
  ∃ id0 run0, runs st !! id0 = Some run0 ∧ Run.conversation_id run0 = Some 0.
Proof.
  unfold conversation_keys_positive. intros Hkeys.
  destruct call as [new_id run_data user_id | E run_id | run_id user_id
    | conversation_id user_id role content | conversation_id user_id title
    | conversation_id user_id]; cbn [after].
  - unfold RunService.create_run.
    destruct (RunService.query_agent_of_user st _ user_id); [|by eauto].
    destruct (if truthy_id _ then _ else _); [by eauto|].
    destruct (RunService.conversation_exists st _) eqn:He; [|by eauto].
    cbn [fst]. rewrite runs_commit_row. cbn [runs with_runs].
    destruct (decide (id = new_id)) as [-> | Hne].
    + rewrite lookup_insert_eq. intros [= <-]. cbn [Run.conversation_id].
      intros Hc. rewrite Hc in He. cbn in He. rewrite Hkeys in He.
      by apply bool_decide_eq_true_1, is_Some_None in He.
    + rewrite lookup_insert_ne by done. by eauto.
  - intros Hr' Hc. apply execute_run_async_keeps_owner in Hr' as (r & Hr & _ & Hcv).
    exists id, r. split; [done | congruence].
  - unfold RunService.delete_run.
    destruct (RunService.get_run st run_id user_id); [|by eauto].
    cbn [fst runs with_commits with_run_steps with_runs].
    intros [_ Hrun]%lookup_delete_Some. by eauto.
  - unfold ConversationService.add_message.
    destruct (ConversationService.get_conversation st conversation_id user_id);
      by eauto.
  - unfold ConversationService.update_conversation.
    destruct (ConversationService.get_conversation st conversation_id user_id);
      by eauto.
  - unfold ConversationService.delete_conversation.
    destruct (ConversationService.get_conversation st conversation_id user_id);
      [|by eauto].
    cbn [fst runs with_runs with_messages with_conversations].
    rewrite lookup_fmap. destruct (runs st !! id) as [r|] eqn:Hr; [|done].
    cbn. intros [= <-]. unfold ConversationService.unlink.
    case_decide as Hd; [done|]. by eauto.
Qed.

Lemma after_links call st :
  conversation_keys_positive st →
  conversation_links_hold st → conversation_links_hold (after call st).
Proof.
  intros Hkeys Hlinks id run c Hrun Hc.
  destruct (decide (c = 0)) as [-> | Hc0].
  - destruct (after_names_zero call st id run Hkeys Hrun Hc) as (id0 & run0 & Hrun0 & Hc0).
    destruct (Hlinks id0 run0 0 Hrun0 Hc0) as (conversation & Hconv & _).
    unfold conversation_keys_positive in Hkeys. congruence.
  - by eapply (after_attached call st (links_attached st Hlinks)).
Qed.

(** X20. In a storage that has no conversation of id 0, three invariants
    survive every sequence of calls of the run service and the conversation
    service (creating, executing and deleting runs; adding messages,
    renaming and deleting conversations), whether the calls succeed or
    fail: no conversation has the id 0, every step of a trace belongs to a
    run that exists, and every run that names a conversation names one that
    exists and belongs to the owner of the run. *)
Theorem service_calls_keep_integrity (calls : list Call) (st : DB) :
  conversation_keys_positive st →
  steps_have_runs st →
  conversation_links_hold st →
  conversation_keys_positive (after_all calls st) ∧
  steps_have_runs (after_all calls st) ∧
  conversation_links_hold (after_all calls st).
Proof.
  revert st. induction calls as [|call l IH]; intros st Hkeys Hfk Hlinks; [done|].
  cbn [after_all foldl]. apply IH.
  - by apply after_keys_positive.
  - by apply after_steps_have_runs.
  - by apply after_links.
Qed.

Lemma sample_storage_integrity :
  steps_have_runs Sample.storage_with_history ∧
  attached_conversations_exist Sample.storage_with_history.
Proof.
  split.
  - intros s Hs. by apply elem_of_nil in Hs.
  - intros id run c Hrun.
    change (runs Sample.storage_with_history)
      with ({[ 1 := Sample.pending_run (Some 5) ]} : gmap Z Run.t) in Hrun.
    apply lookup_singleton_Some in Hrun as [<- <-].
    intros [= <-] _. by eexists.
Qed.

Lemma sample_storage_links :
  conversation_keys_positive Sample.storage_with_history ∧
  conversation_links_hold Sample.storage_with_history.
Proof.
  split; [reflexivity|].
  intros id run c Hrun.
  change (runs Sample.storage_with_history)
    with ({[ 1 := Sample.pending_run (Some 5) ]} : gmap Z Run.t) in Hrun.
  apply lookup_singleton_Some in Hrun as [<- <-].
  intros [= <-]. by eexists.
Qed.

Lemma service_calls_keep_integrity_witness :
  conversation_keys_positive
    (after_all [Service.CreateRun 2 (RunCreate.mk 1 "What is 2+2?" (Some 0)) 7;
                Service.DeleteConversation 5 7; Service.ExecuteRunAsync Sample.env 1]
       Sample.storage_with_history) ∧
  steps_have_runs
    (after_all [Service.CreateRun 2 (RunCreate.mk 1 "What is 2+2?" (Some 0)) 7;
                Service.DeleteConversation 5 7; Service.ExecuteRunAsync Sample.env 1]
       Sample.storage_with_history) ∧
  conversation_links_hold
    (after_all [Service.CreateRun 2 (RunCreate.mk 1 "What is 2+2?" (Some 0)) 7;
                Service.DeleteConversation 5 7; Service.ExecuteRunAsync Sample.env 1]
       Sample.storage_with_history).
Proof.
  apply (service_calls_keep_integrity
           [Service.CreateRun 2 (RunCreate.mk 1 "What is 2+2?" (Some 0)) 7;
            Service.DeleteConversation 5 7; Service.ExecuteRunAsync Sample.env 1]
           Sample.storage_with_history).
  - exact (proj1 sample_storage_links).
  - exact (proj1 sample_storage_integrity).
  - exact (proj2 sample_storage_links).
Defined.

(** X21. In a storage that service calls made from one in which every
    attached conversation exists, the execution of a run whose agent
    exists, can be built and answers always completes: the look-up of the
    attached conversation cannot fail.  The
    run is then COMPLETED with the answer, and the conversation of the run
    has the two turns more, or no message is added when the run has no
    conversation. *)
Theorem attached_run_completes (calls : list Call) (st0 : DB) (E : Env) (run_id : Z)
    (run : Run.t) (agent : Agent.t) (llama_agent : AgentBuilder.ReActAgent)
    (output_text : string) :
  attached_conversations_exist st0 →
  let st := after_all calls st0 in
  runs st !! run_id = Some run →
  agents st !! Run.agent_id run = Some agent →
  built E agent (Run.user_id run) = inr llama_agent →
  llama_run E llama_agent
            (full_input (history_of st (Run.user_id run) (Run.conversation_id run))
                        (Run.input_text run)) = inr output_text →
  ∃ run',
    RunService.execute_run_async E run_id st = ((after (ExecuteRunAsync E run_id) st), None) ∧
    runs (after (ExecuteRunAsync E run_id) st) !! run_id = Some run' ∧
    Run.status run' = COMPLETED ∧
    Run.output_text run' = Some output_text ∧
    messages (after (ExecuteRunAsync E run_id) st)
    = messages st ++ turns (Run.conversation_id run) (Run.input_text run) output_text.
Proof.
  intros Hinv st Hrun Hagent Hbuilt Hanswer.
  pose proof (after_all_attached calls st0 Hinv) as Hatt. fold st in Hatt.
  assert (outcome_of E agent (Run.input_text run) st (Run.user_id run)
                     (Run.conversation_id run) = Answer output_text) as Ho.
  { unfold outcome_of. rewrite Hbuilt, Hanswer.
    destruct (Run.conversation_id run) as [c|] eqn:Hc; [|done]. cbn [truthy_id default id].
    destruct (c =? 0) eqn:Hc0; [done|]. cbn [negb]. apply Z.eqb_neq in Hc0.
    destruct (Hatt run_id run c Hrun Hc Hc0) as (conv & Hconv & Hown).
    unfold ConversationService.get_conversation. rewrite Hconv. by rewrite decide_True. }
  cbn [after]. rewrite (execute_run_async_dispatches E run_id st run agent Hrun Hagent).
  rewrite execute_run_finished by (by eexists). cbn [fst].
  eexists. split; [reflexivity|].
  split; [by apply runs_finished|]. rewrite Ho. cbn [close_run].
  split; [done|]. split; [done|]. by rewrite messages_finished, Ho.
Qed.

Lemma attached_run_completes_witness :
  ∃ run',
    RunService.execute_run_async Sample.env 1 Fixture.chatted
    = (after (Service.ExecuteRunAsync Sample.env 1) Fixture.chatted, None) ∧
    runs (after (Service.ExecuteRunAsync Sample.env 1) Fixture.chatted) !! 1 = Some run' ∧
    Run.status run' = COMPLETED ∧
    Run.output_text run' = Some "4" ∧
    messages (after (Service.ExecuteRunAsync Sample.env 1) Fixture.chatted)
    = messages Fixture.chatted
      ++ turns (Run.conversation_id (Sample.pending_run (Some 5)))
               (Run.input_text (Sample.pending_run (Some 5))) "4".
Proof.
  exact (attached_run_completes [Service.AddMessage 5 7 "user" "more"]
           Sample.storage_with_history Sample.env 1 (Sample.pending_run (Some 5))
           Sample.agent Fixture.helper "4"
           (proj2 sample_storage_integrity) eq_refl eq_refl eq_refl eq_refl).
Defined.

End Integrity.

(** ** The run endpoints *)

Section RunEndpoints.
Import Runner.

(** X22. The endpoint that creates a run answers 400 with "Agent <id> not
    found" when the agent is missing or belongs to another user, and 400
    with "Conversation <id> not found" when a conversation with an id other
    than 0 is named that is missing or belongs to another user.  The id 0
    passes the check as if no conversation were named; unless a
    conversation of id 0 exists, the commit then violates the foreign key
    and the endpoint answers 500.  In these cases nothing is stored and
    nothing is scheduled.  Otherwise the endpoint
    stores one pending run of the user, with no output, error or times,
    schedules its execution once, and changes nothing else; the run can be
    read back at once. *)
Theorem create_run_endpoint (new_id : Z) (run_data : RunCreate.t) (current_user : Z)
    (st : DB) :
  let agent_id := RunCreate.agent_id run_data in
  let conversation_id := RunCreate.conversation_id run_data in
  let run := Run.mk (RunCreate.input_text run_data) None PENDING None current_user
                    agent_id conversation_id None None in
  match RunService.query_agent_of_user st agent_id current_user with
  | None =>
      RunsApi.create_run new_id run_data current_user st
      = (st, inl (HTTPException 400 ("Agent " +:+ pretty agent_id +:+ " not found")))
  | Some _ =>
      if truthy_id conversation_id &&
         bool_decide (ConversationService.get_conversation
                        st (default 0 conversation_id) current_user = None)
      then
        RunsApi.create_run new_id run_data current_user st
        = (st, inl (HTTPException 400
                      ("Conversation " +:+ pretty (default 0 conversation_id)
                       +:+ " not found")))
      else if RunService.conversation_exists st conversation_id then
        ∃ st',
          RunsApi.create_run new_id run_data current_user st
          = (st', inr (new_id, [new_id])) ∧
          runs st' = <[new_id := run]> (runs st) ∧
          RunsApi.get_run new_id current_user st' = (st', inr run) ∧
          agents st' = agents st ∧
          conversations st' = conversations st ∧
          messages st' = messages st ∧
          run_steps st' = run_steps st ∧
          documents st' = documents st ∧
          commits st' = commits st ++ [CommitRun new_id run]
      else
        conversation_id = Some 0 ∧
        ∃ detail,
          RunsApi.create_run new_id run_data current_user st
          = (st, inl (HTTPException 500 detail))
  end.
Proof.
  intros agent_id conversation_id run.
  unfold RunsApi.create_run, st_try, mbind, ST_bind, RunService.create_run.
  fold agent_id conversation_id.
  destruct (RunService.query_agent_of_user st agent_id current_user); [|done].
  assert (∀ st',
            st' = commit_row new_id (with_runs (insert new_id run) st) →
            runs st' = <[new_id := run]> (runs st) ∧
            RunsApi.get_run new_id current_user st' = (st', inr run) ∧
            agents st' = agents st ∧
            conversations st' = conversations st ∧
            messages st' = messages st ∧
            run_steps st' = run_steps st ∧
            documents st' = documents st ∧
            commits st' = commits st ++ [CommitRun new_id run]) as Hstored.
  { intros st' ->.
    rewrite runs_commit_row, agents_commit_row, conversations_commit_row,
      messages_commit_row, run_steps_commit_row, documents_commit_row.
    split; [done|]. split.
    { unfold RunsApi.get_run, RunService.get_run. rewrite runs_commit_row.
      cbn [runs with_runs]. rewrite lookup_insert_eq. by rewrite decide_True. }
    do 5 (split; [done|]).
    by erewrite commits_commit_row by (cbn [runs with_runs]; apply lookup_insert_eq). }
  destruct (truthy_id conversation_id) eqn:Ht; cbn [andb].
  - destruct (ConversationService.get_conversation st _ current_user) as [cv|] eqn:Hc.
    + rewrite bool_decide_eq_false_2 by done. fold run.
      assert (RunService.conversation_exists st conversation_id = true) as ->.
      { destruct conversation_id as [c|]; [|done]. cbn [default id] in Hc.
        unfold ConversationService.get_conversation in Hc. cbn.
        destruct (conversations st !! c); [|done]. by apply bool_decide_eq_true_2. }
      eexists. split; [reflexivity|]. by apply Hstored.
    + by rewrite bool_decide_eq_true_2.
  - fold run. destruct (RunService.conversation_exists st conversation_id) eqn:He.
    + eexists. split; [reflexivity|]. by apply Hstored.
    + split; [|by eexists].
      destruct conversation_id as [c|]; [|done]. cbn in Ht.
      apply negb_false_iff, Z.eqb_eq in Ht. by subst.
Qed.

(** X23. The endpoint that deletes a run deletes a run of the user with all
    its steps and nothing else, after which reading the run answers 404; for
    a run that is missing or belongs to another user it answers 404 "Run
    not found", as reading it does, and changes nothing. *)
Theorem delete_run_endpoint (run_id current_user : Z) (st : DB) :
  match runs st !! run_id with
  | Some run =>
      if decide (Run.user_id run = current_user) then
        ∃ st',
          RunsApi.delete_run run_id current_user st = (st', inr ()) ∧
          runs st' = delete run_id (runs st) ∧
          steps_of st' run_id = [] ∧
          (∀ other, other ≠ run_id → steps_of st' other = steps_of st other) ∧
          RunsApi.get_run run_id current_user st'
          = (st', inl (HTTPException 404 "Run not found")) ∧
          agents st' = agents st ∧
          conversations st' = conversations st ∧
          messages st' = messages st ∧
          documents st' = documents st
      else
        RunsApi.delete_run run_id current_user st
        = (st, inl (HTTPException 404 "Run not found")) ∧
        RunsApi.get_run run_id current_user st
        = (st, inl (HTTPException 404 "Run not found"))
  | None =>
      RunsApi.delete_run run_id current_user st
      = (st, inl (HTTPException 404 "Run not found")) ∧
      RunsApi.get_run run_id current_user st
      = (st, inl (HTTPException 404 "Run not found"))
  end.
Proof.
  unfold RunsApi.delete_run, RunsApi.get_run, mbind, ST_bind, RunService.delete_run,
    RunService.get_run.
  destruct (runs st !! run_id) as [run|] eqn:Hrun; [|done].
  case_decide as Hown; [|done].
  eexists. split; [reflexivity|].
  cbn [runs run_steps agents conversations messages documents
       with_commits with_run_steps with_runs].
  split; [done|]. unfold steps_of.
  cbn [runs run_steps agents conversations messages documents
       with_commits with_run_steps with_runs].
  split; [|split; [|split; [by rewrite lookup_delete_eq | done]]].
  - rewrite list_filter_filter. apply filter_none. intros s _ [? ?]. done.
  - intros other Hne. rewrite list_filter_filter. apply list_filter_iff.
    intros s. split; [tauto|]. intros Hs. split; [done | congruence].
Qed.

Example create_run_for_foreign_agent :
  RunsApi.create_run 2 Fixture.run_data 8 Sample.storage
  = (Sample.storage, inl (HTTPException 400 "Agent 1 not found")) ∧
  (RunsApi.create_run 2 Fixture.run_data 7 Sample.storage).2 = inr (2, [2]).
Proof. split; reflexivity. Qed.

Example create_run_for_conversation_zero :
  (RunsApi.create_run 2 (RunCreate.mk 1 "What is 2+2?" (Some 0)) 7 Sample.storage).1
  = Sample.storage ∧
  ∃ detail,
    (RunsApi.create_run 2 (RunCreate.mk 1 "What is 2+2?" (Some 0)) 7 Sample.storage).2
    = inl (HTTPException 500 detail).
Proof. split; [reflexivity | by eexists]. Qed.

End RunEndpoints.

(** ** The timeline of a run *)

Section Timeline.
Import Runner.

Lemma counted_strictly_sorted (l : list RunStep.t) :
  ∀ start n,
    map RunStep.step_order l = map Z.of_nat (seq start n) →
    StronglySorted (λ a b, RunStep.step_order a < RunStep.step_order b) l.
Proof.
  induction l as [|a t IH]; intros start n H; [constructor|].
  destruct n as [|n]; [discriminate H|]. cbn [seq map] in H. injection H as Ha Ht.
  constructor; [by eapply IH|].
  apply Forall_forall. intros b Hb.
  assert (RunStep.step_order b ∈ map Z.of_nat (seq (S start) n)) as Hin.
  { rewrite <- Ht. apply list_elem_of_fmap. by exists b. }
  apply list_elem_of_fmap in Hin as (k & -> & Hk). apply elem_of_seq in Hk. lia.
Qed.

Lemma sorted_distinct_strictly (l : list RunStep.t) :
  StronglySorted (λ a b, RunStep.step_order a ≤ RunStep.step_order b) l →
  NoDup (map RunStep.step_order l) →
  StronglySorted (λ a b, RunStep.step_order a < RunStep.step_order b) l.
Proof.
  induction 1 as [|a t Ht IH Ha]; intros Hnd; [constructor|].
  cbn [map] in Hnd. apply NoDup_cons in Hnd as [Hnotin Hnd].
  constructor; [by apply IH|].
  rewrite Forall_forall in Ha |- *. intros b Hb. specialize (Ha b Hb).
  assert (RunStep.step_order a ≠ RunStep.step_order b); [|lia].
  intros Heq. apply Hnotin. rewrite Heq. apply list_elem_of_fmap. by exists b.
Qed.

Lemma counted_trace_unique (trace steps : list RunStep.t) n :
  map RunStep.step_order trace = map Z.of_nat (seq 0 n) →
  steps ≡ₚ trace →
  Sorted (λ a b, RunStep.step_order a ≤ RunStep.step_order b) steps →
  steps = trace.
Proof.
  intros Hcount Hperm Hsorted.
  assert (AntiSymm eq (λ a b : RunStep.t, RunStep.step_order a < RunStep.step_order b))
    as Hanti by (intros a b ? ?; lia).
  apply (StronglySorted_unique _ steps trace); [|by eapply counted_strictly_sorted|done].
  apply sorted_distinct_strictly.
  - apply Sorted_StronglySorted; [|done]. intros a b c ? ?. lia.
  - change (map ?f ?l) with (f <$> l). rewrite Hperm.
    change (RunStep.step_order <$> trace) with (map RunStep.step_order trace).
    rewrite Hcount. apply NoDup_count_up.
Qed.

Lemma counted_trace_sorted (trace : list RunStep.t) n :
  map RunStep.step_order trace = map Z.of_nat (seq 0 n) →
  Sorted (λ a b, RunStep.step_order a ≤ RunStep.step_order b) trace.
Proof.
  intros Hcount. apply StronglySorted_Sorted.
  pose proof (counted_strictly_sorted trace 0 n Hcount) as Hs. clear Hcount.
  induction Hs as [|a t Ht IH Ha]; [constructor|]. constructor; [exact IH|].
  eapply Forall_impl; [exact Ha|]. intros b ?. cbn in *. lia.
Qed.

Lemma background_task_trace E run_id st :
  steps_of st run_id = [] →
  ∃ n, map RunStep.step_order (steps_of (RunsApi.background_task E run_id st) run_id)
       = map Z.of_nat (seq 0 n).
Proof.
  intros Hfresh. unfold RunsApi.background_task.
  destruct (runs st !! run_id) as [run|] eqn:Hrun; last first.
  { unfold RunService.execute_run_async. rewrite Hrun. cbn [fst]. rewrite Hfresh.
    by exists 0%nat. }
  destruct (agents st !! Run.agent_id run) as [agent|] eqn:Hagent;
    [rewrite (execute_run_async_dispatches E run_id st run agent Hrun Hagent)
    |rewrite (execute_run_async_agent_missing E run_id st run Hrun Hagent)].
  - by apply fresh_run_step_orders.
  - cbn [fst]. unfold steps_of in *. rewrite run_steps_commit_row.
    cbn [run_steps update_run with_runs]. rewrite Hfresh. by exists 0%nat.
Qed.

(** X24. The trace of a run that was executed once is read back in the
    order in which it was recorded: since the step orders of the trace are
    distinct, the order by [step_order] of the steps of a run leaves one
    list only, the trace itself. *)
Theorem timeline_is_the_trace (E : Env) (run_id : Z) (st : DB) (steps : list RunStep.t) :
  steps_of st run_id = [] →
  let st' := RunsApi.background_task E run_id st in
  RunsApi.timeline st' run_id steps ↔ steps = steps_of st' run_id.
Proof.
  intros Hfresh st'. destruct (background_task_trace E run_id st Hfresh) as [n Hn].
  fold st' in Hn. unfold RunsApi.timeline. split.
  - intros [Hperm Hsorted]. by eapply counted_trace_unique.
  - intros ->. split; [done|]. by eapply counted_trace_sorted.
Qed.

Lemma timeline_is_the_trace_witness :
  RunsApi.timeline (RunsApi.background_task Sample.env 1 Sample.storage) 1 Fixture.trace.
Proof.
  apply (proj2 (timeline_is_the_trace Sample.env 1 Sample.storage Fixture.trace eq_refl)).
  reflexivity.
Defined.

End Timeline.

(** ** The shape of a stream *)

Section Streams.
Import Streaming.

(** The loop yields progress events and then at most one closing event; it
    is left by an exception, at the last poll, or on a terminal state. *)
Lemma poll_loop_shape refresh :
  ∀ fuel pc last,
    0 ≤ pc →
    pc + Z.of_nat fuel = max_polls →
    ∃ progress closing r,
      poll_loop refresh fuel pc last = (progress ++ closing, r) ∧
      Forall (λ e, is_progress e = true) progress ∧
      match r with
      | inl _ => closing = []
      | inr pc' =>
          (closing = [] ∧ pc' = max_polls) ∨
          (∃ e, closing = [e] ∧ is_progress e = false ∧ pc' ≤ max_polls)
      end.
Proof.
  induction fuel as [|fuel IH]; intros pc last Hpc Hfuel.
  - exists [], [], (inr pc). split; [reflexivity|]. split; [constructor|].
    left. split; [reflexivity | lia].
  - cbn [poll_loop]. rewrite (proj2 (Z.ltb_lt pc max_polls)) by lia.
    destruct (refresh (pc + 1)) as [e|run].
    { exists [], [], (inl e). split; [reflexivity|]. split; [constructor | reflexivity]. }
    destruct (decide (Run.status run = COMPLETED)) as [Hc|Hc].
    { exists (if decide (Run.status run ≠ last) then
                [status_event (Run.status run)
                              ("Status: " +:+ status_value (Run.status run))]
              else []), [complete_event (Run.output_text run)], (inr (pc + 1)).
      split; [reflexivity|]. split; [apply changed_progress|].
      right. exists (complete_event (Run.output_text run)).
      split; [reflexivity|]. split; [reflexivity | lia]. }
    destruct (decide (Run.status run = FAILED)) as [Hf|Hf].
    { exists (if decide (Run.status run ≠ last) then
                [status_event (Run.status run)
                              ("Status: " +:+ status_value (Run.status run))]
              else []), [error_event (Run.error_message run)], (inr (pc + 1)).
      split; [reflexivity|]. split; [apply changed_progress|].
      right. exists (error_event (Run.error_message run)).
      split; [reflexivity|]. split; [reflexivity | lia]. }
    destruct (IH (pc + 1) (Run.status run)) as (progress & closing & r & -> & Hp & Hr);
      [lia | lia |].
    pose proof (changed_progress run last) as Hchanged.
    set (changed := if decide (Run.status run ≠ last) then _ else _) in *.
    set (heartbeat := if (pc + 1) mod 10 =? 0 then _ else _).
    exists (changed ++ heartbeat ++ progress), closing, r.
    split; [by rewrite <- !app_assoc|]. split; [|exact Hr].
    apply Forall_app. split; [exact Hchanged|].
    apply Forall_app. split; [|exact Hp].
    subst heartbeat. destruct (_ =? 0); repeat constructor.
Qed.

(** X25. Every stream has the same shape.  For a run that is missing or
    belongs to another user it is the single error event "Run not found".
    Otherwise it opens with the status of the run and "Starting...", goes on
    with status and heartbeat events only, and closes with one event that is
    a completion, an error or the timeout, which only the timeout event may
    follow. *)
Theorem stream_shape (refresh : Z → Exn + Run.t) (run_id : Z) (st : DB) (user_id : Z) :
  match query_run_of_user st run_id user_id with
  | None =>
      stream_run_execution refresh run_id st user_id = [error_event (Some "Run not found")]
  | Some run =>
      ∃ progress closing,
        stream_run_execution refresh run_id st user_id
        = status_event (Run.status run) "Starting..." :: progress ++ closing ∧
        Forall (λ e, is_progress e = true) progress ∧
        ∃ e, is_progress e = false ∧
             (closing = [e] ∨ closing = [e; timeout_event "Run execution timeout"])
  end.
Proof.
  unfold stream_run_execution.
  destruct (query_run_of_user st run_id user_id) as [run|]; [|done].
  destruct (poll_loop_shape refresh (Z.to_nat max_polls) 0 (Run.status run))
    as (progress & closing & r & -> & Hp & Hr); [lia | unfold max_polls; lia |].
  exists progress. destruct r as [e|pc'].
  - subst closing. exists [error_event (Some (exn_str e))].
    split; [by rewrite app_nil_r|]. split; [exact Hp|].
    exists (error_event (Some (exn_str e))). split; [reflexivity | by left].
  - destruct Hr as [[-> ->] | (e & -> & He & Hle)].
    + rewrite Z.leb_refl. exists [timeout_event "Run execution timeout"].
      split; [by rewrite app_nil_r|]. split; [exact Hp|].
      exists (timeout_event "Run execution timeout"). split; [reflexivity | by left].
    + destruct (max_polls <=? pc').
      * exists [e; timeout_event "Run execution timeout"].
        split; [by rewrite <- app_assoc|]. split; [exact Hp|].
        exists e. split; [exact He | by right].
      * exists [e]. split; [by rewrite app_nil_r|]. split; [exact Hp|].
        exists e. split; [exact He | by left].
Qed.

Lemma stream_ends_with_terminal_event_witness :
  ∃ events,
    stream_run_execution (Sample.completes_at 3) 1 Sample.storage 7
    = events ++ [terminal_event Fixture.completed_run] ∧
    Forall (λ e, is_progress e = true) events ∧
    ∀ n, heartbeat_event n ∈ events ↔ (0 < n < 3 ∧ n mod 10 = 0).
Proof.
  apply (stream_ends_with_terminal_event (Sample.completes_at 3) 1 Sample.storage 7
           (Sample.pending_run None) 3 Fixture.completed_run).
  - reflexivity.
  - unfold max_polls. lia.
  - intros n Hn. eexists. unfold Sample.completes_at.
    rewrite (proj2 (Z.ltb_lt n 3)) by lia. split; reflexivity.
  - reflexivity.
  - reflexivity.
Defined.

Lemma stream_ends_with_timeout_witness :
  ∃ events,
    stream_run_execution Fixture.always_running 1 Sample.storage 7
    = events ++ [timeout_event "Run execution timeout"] ∧
    Forall (λ e, is_progress e = true) events ∧
    ∀ n, heartbeat_event n ∈ events ↔ (0 < n ≤ max_polls ∧ n mod 10 = 0).
Proof.
  apply (stream_ends_with_timeout Fixture.always_running 1 Sample.storage 7
           (Sample.pending_run None)).
  - reflexivity.
  - intros n _. eexists. split; reflexivity.
Defined.

Lemma created_run_trace_counts_up_witness :
  is_Some (runs (RunService.execute_run_async Sample.env 2 Fixture.created).1 !! 2) ∧
  map RunStep.step_order
    (Runner.steps_of (RunService.execute_run_async Sample.env 2 Fixture.created).1 2)
  = map Z.of_nat
      (seq 0 (length (Runner.steps_of
                        (RunService.execute_run_async Sample.env 2 Fixture.created).1 2))).
Proof.
  apply (created_run_trace_counts_up Sample.env 2 Fixture.run_data 7 Sample.storage
           Fixture.created 2).
  - intros s Hs. by apply elem_of_nil in Hs.
  - reflexivity.
  - reflexivity.
Defined.

End Streams.

